(** * Plugin-collection interchange engine: shallow embedding and verification

    The development follows the layout of [astrbot/core/collection]:

    - [Py]               the Python values and built-ins the code relies on
                         (JSON-like values, [dict] with insertion order,
                         [str.lower], [str.strip], [in] on strings, [re]);
    - [SensitiveFilter]  [sensitive_filter.py];
    - [Models]           [models.py] (document classes, JSON schema, validation);
    - [Compatibility]    [compatibility.py] (priority overrides);
    - [Exporter]         [exporter.py];
    - [Importer]         [importer.py];
    - [Routes]           [dashboard/routes/collection.py].

    Strings are Rocq strings: one [ascii] per character, so [len], [lower]
    and the regular expressions are the source's on ASCII text. *)

From Stdlib Require Import List ZArith Bool String Ascii Lia Permutation Sorted.
From Stdlib Require DecimalString.
Import ListNotations.

Local Open Scope string_scope.
Local Open Scope Z_scope.
Local Open Scope list_scope.

(* ================================================================== *)
(** * Part I: the program                                              *)
(* ================================================================== *)

Module Py.

(** ** Values

    Plugin configuration and collection payloads are JSON-compatible Python
    values.  A [dict] keeps its insertion order, so it is an association
    list; [JFloat m e] is the finite binary float [m * 2^e]. *)

#[local] Unset Elimination Schemes.
Inductive json : Type :=
| JNull
| JBool (b : bool)
| JInt (n : Z)
| JFloat (m e : Z)
| JStr (s : string)
| JArr (xs : list json)
| JObj (kvs : list (string * json)).
#[local] Set Elimination Schemes.

Definition dict := list (string * json).

(** [d.get(k)] *)
Fixpoint dict_get {V : Type} (k : string) (d : list (string * V)) : option V :=
  match d with
  | [] => None
  | (k', v) :: rest => if String.eqb k k' then Some v else dict_get k rest
  end.

(** [k in d] *)
Definition dict_mem {V : Type} (k : string) (d : list (string * V)) : bool :=
  match dict_get k d with Some _ => true | None => false end.

(** [d[k] = v]: an existing key keeps its position, a new key goes last. *)
Fixpoint dict_set {V : Type} (k : string) (v : V) (d : list (string * V))
  : list (string * V) :=
  match d with
  | [] => [(k, v)]
  | (k', v') :: rest =>
      if String.eqb k k' then (k, v) :: rest else (k', v') :: dict_set k v rest
  end.

(** [{**a, **b}] *)
Definition dict_merge {V : Type} (a b : list (string * V)) : list (string * V) :=
  fold_left (fun acc kv => dict_set (fst kv) (snd kv) acc) b a.

Definition dict_keys {V : Type} (d : list (string * V)) : list string :=
  map fst d.

(** A Python [dict] never holds a key twice. *)
Definition is_dict {V : Type} (d : list (string * V)) : Prop :=
  NoDup (dict_keys d).

(** ** Strings *)

Definition lower_ascii (c : ascii) : ascii :=
  let n := N_of_ascii c in
  if (65 <=? n)%N && (n <=? 90)%N then ascii_of_N (n + 32) else c.

(** [s.lower()] *)
Fixpoint lower (s : string) : string :=
  match s with
  | EmptyString => EmptyString
  | String c s' => String (lower_ascii c) (lower s')
  end.

(** [needle in hay] *)
Fixpoint contains (needle hay : string) : bool :=
  if String.prefix needle hay then true
  else match hay with
       | EmptyString => false
       | String _ hay' => contains needle hay'
       end.

(** [c.isspace()], which is also the class [\s] of [re]. *)
Definition is_space (c : ascii) : bool :=
  let n := N_of_ascii c in
  ((9 <=? n)%N && (n <=? 13)%N) || ((28 <=? n)%N && (n <=? 32)%N).

Fixpoint lstrip (s : string) : string :=
  match s with
  | EmptyString => EmptyString
  | String c s' => if is_space c then lstrip s' else s
  end.

Fixpoint rev_string (s acc : string) : string :=
  match s with
  | EmptyString => acc
  | String c s' => rev_string s' (String c acc)
  end.

(** [s.strip()] *)
Definition strip (s : string) : string :=
  rev_string (lstrip (rev_string (lstrip s) EmptyString)) EmptyString.

(** [sep.join(parts)] *)
Fixpoint join (sep : string) (parts : list string) : string :=
  match parts with
  | [] => EmptyString
  | [p] => p
  | p :: rest => (p ++ sep ++ join sep rest)%string
  end.

(** ** Regular expressions

    The fragment of [re] the patterns of the filter are written in, matched
    by derivatives. *)

Inductive regex : Type :=
| Fail
| Eps
| Class (p : ascii -> bool)
| Seq (r1 r2 : regex)
| Alt (r1 r2 : regex)
| Star (r : regex).

Fixpoint nullable (r : regex) : bool :=
  match r with
  | Fail => false
  | Eps => true
  | Class _ => false
  | Seq r1 r2 => nullable r1 && nullable r2
  | Alt r1 r2 => nullable r1 || nullable r2
  | Star _ => true
  end.

Definition seq (r1 r2 : regex) : regex :=
  match r1, r2 with
  | Fail, _ => Fail
  | _, Fail => Fail
  | Eps, _ => r2
  | _, _ => Seq r1 r2
  end.

Definition alt (r1 r2 : regex) : regex :=
  match r1, r2 with
  | Fail, _ => r2
  | _, Fail => r1
  | _, _ => Alt r1 r2
  end.

Fixpoint deriv (c : ascii) (r : regex) : regex :=
  match r with
  | Fail => Fail
  | Eps => Fail
  | Class p => if p c then Eps else Fail
  | Seq r1 r2 =>
      if nullable r1 then alt (seq (deriv c r1) r2) (deriv c r2)
      else seq (deriv c r1) r2
  | Alt r1 r2 => alt (deriv c r1) (deriv c r2)
  | Star r1 => seq (deriv c r1) (Star r1)
  end.

(** [p.fullmatch(s) is not None] *)
Fixpoint fullmatch (r : regex) (s : string) : bool :=
  match s with
  | EmptyString => nullable r
  | String c s' => fullmatch (deriv c r) s'
  end.

(** [p.match(s) is not None]: some prefix of [s] matches. *)
Fixpoint rmatch (r : regex) (s : string) : bool :=
  if nullable r then true
  else match s with
       | EmptyString => false
       | String c s' => rmatch (deriv c r) s'
       end.

(** The strings a pattern matches as a whole: what [fullmatch] decides
    ([PyFacts.fullmatch_spec]). *)
Inductive lang : regex -> string -> Prop :=
| LEps : lang Eps ""
| LClass (p : ascii -> bool) (c : ascii) : p c = true -> lang (Class p) (String c "")
| LSeq (r1 r2 : regex) (s1 s2 : string) :
    lang r1 s1 -> lang r2 s2 -> lang (Seq r1 r2) (s1 ++ s2)%string
| LAltL (r1 r2 : regex) (s : string) : lang r1 s -> lang (Alt r1 r2) s
| LAltR (r1 r2 : regex) (s : string) : lang r2 s -> lang (Alt r1 r2) s
| LStarNil (r : regex) : lang (Star r) ""
| LStarCons (r : regex) (s1 s2 : string) :
    lang r s1 -> lang (Star r) s2 -> lang (Star r) (s1 ++ s2)%string.

(** Pattern syntax, under [re.IGNORECASE]. *)
Definition chr_i (c : ascii) : regex :=
  Class (fun x => Ascii.eqb (lower_ascii x) (lower_ascii c)).

Fixpoint lit_i (s : string) : regex :=
  match s with
  | EmptyString => Eps
  | String c s' => Seq (chr_i c) (lit_i s')
  end.

(** [.] does not match a newline. *)
Definition dot : regex := Class (fun x => negb (Ascii.eqb x "010"%char)).
Definition space : regex := Class is_space.
Definition plus (r : regex) : regex := Seq r (Star r).
Definition opt (r : regex) : regex := Alt r Eps.
(** [^] at the start of a pattern and [$] at its end are zero-width; [match]
    starts at position 0 and [fullmatch] ends at the end of the string. *)
Definition bol : regex := Eps.
Definition eol : regex := Eps.

(** ** Exceptions and results *)

(** The exceptions the code meets, each with its [str(e)].
    [asyncio.CancelledError] is the only one that is no [Exception]: an
    [except Exception] clause lets it through. *)
Inductive exn : Type :=
| CollectionValidationError (msg : string)
| ValueError (msg : string)
| TypeError (msg : string)
| KeyError (msg : string)
| AttributeError (msg : string)
| Exception (msg : string)
| CancelledError.

Definition is_Exception (e : exn) : bool :=
  match e with
  | CancelledError => false
  | _ => true
  end.

(** [str(e)] *)
Definition exn_str (e : exn) : string :=
  match e with
  | CollectionValidationError m | ValueError m | TypeError m
  | KeyError m | AttributeError m | Exception m => m
  | CancelledError => ""
  end.

Inductive result (A : Type) : Type :=
| Return (a : A)
| Raise (e : exn).
Arguments Return {A} a.
Arguments Raise {A} e.

Definition bind {A B : Type} (m : result A) (f : A -> result B) : result B :=
  match m with
  | Return a => f a
  | Raise e => Raise e
  end.

Notation "x <- m ;; k" := (bind m (fun x => k))
  (at level 61, m at next level, right associativity).

(** [[f(x) for x in xs]], stopping at the first exception. *)
Fixpoint map_result {A B : Type} (f : A -> result B) (xs : list A)
  : result (list B) :=
  match xs with
  | [] => Return []
  | x :: rest => y <- f x ;; ys <- map_result f rest ;; Return (y :: ys)
  end.

(** ** Built-ins on values *)

(** [a == b], structurally.  The code only compares with a string on one
    side (the [enum] of the schema, [r.get("status") == "ok"]), where [==]
    holds exactly for the same string. *)
Fixpoint json_eqb (a b : json) {struct a} : bool :=
  match a, b with
  | JNull, JNull => true
  | JBool x, JBool y => Bool.eqb x y
  | JInt x, JInt y => x =? y
  | JFloat m e, JFloat m' e' => (m =? m') && (e =? e')
  | JStr x, JStr y => String.eqb x y
  | JArr xs, JArr ys =>
      (fix all2 (xs ys : list json) : bool :=
         match xs, ys with
         | [], [] => true
         | x :: xs', y :: ys' => json_eqb x y && all2 xs' ys'
         | _, _ => false
         end) xs ys
  | JObj xs, JObj ys =>
      (fix all2 (xs ys : list (string * json)) : bool :=
         match xs, ys with
         | [], [] => true
         | (k, x) :: xs', (k', y) :: ys' =>
             String.eqb k k' && json_eqb x y && all2 xs' ys'
         | _, _ => false
         end) xs ys
  | _, _ => false
  end.

(** [bool(v)] *)
Definition truthy (v : json) : bool :=
  match v with
  | JNull => false
  | JBool b => b
  | JInt n => negb (n =? 0)
  | JFloat m _ => negb (m =? 0)
  | JStr s => negb (String.eqb s "")
  | JArr xs => match xs with [] => false | _ => true end
  | JObj kvs => match kvs with [] => false | _ => true end
  end.

(** [a or b] *)
Definition py_or (a b : json) : json := if truthy a then a else b.

(** [d.get(k, default)] *)
Definition get_or (k : string) (default : json) (d : dict) : json :=
  match dict_get k d with Some v => v | None => default end.

(** [d.get(k)] *)
Definition get (k : string) (d : dict) : json := get_or k JNull d.

(** [f.is_integer()] and [int(f)] of the float [m * 2^e]. *)
Definition float_is_integer (m e : Z) : bool :=
  (0 <=? e) || (m mod 2 ^ (- e) =? 0).

Definition float_trunc (m e : Z) : Z :=
  if 0 <=? e then m * 2 ^ e else Z.quot m (2 ^ (- e)).

(** [m * 2^e < n] *)
Definition float_ltb_int (m e n : Z) : bool :=
  if 0 <=? e then m * 2 ^ e <? n else m <? n * 2 ^ (- e).

Definition digit_of (c : ascii) : option Z :=
  let n := N_of_ascii c in
  if (48 <=? n)%N && (n <=? 57)%N then Some (Z.of_N (n - 48)) else None.

(** Digits with single underscores between them, as [int] reads them. *)
Fixpoint parse_digits (s : string) (acc : Z) (after_digit : bool) : option Z :=
  match s with
  | EmptyString => if after_digit then Some acc else None
  | String c s' =>
      match digit_of c with
      | Some d => parse_digits s' (10 * acc + d) true
      | None =>
          if Ascii.eqb c "_"%char && after_digit then parse_digits s' acc false
          else None
      end
  end.

(** [int(s)] for a string, [None] standing for [ValueError]. *)
Definition int_of_str (s : string) : option Z :=
  match strip s with
  | String "-"%char s' => option_map Z.opp (parse_digits s' 0 false)
  | String "+"%char s' => parse_digits s' 0 false
  | s' => parse_digits s' 0 false
  end.

(** [int(v)] *)
Definition py_int (v : json) : result Z :=
  match v with
  | JBool b => Return (if b then 1 else 0)
  | JInt n => Return n
  | JFloat m e => Return (float_trunc m e)
  | JStr s =>
      match int_of_str s with
      | Some n => Return n
      | None => Raise (ValueError "invalid literal for int() with base 10")
      end
  | JNull | JArr _ | JObj _ =>
      Raise (TypeError "int() argument must be a string, a bytes-like object or a real number")
  end.

(** [str(n)] for an index. *)
Definition str_of_nat (n : nat) : string :=
  DecimalString.NilEmpty.string_of_uint (Nat.to_uint n).

(** ** Sorting

    [sorted] and [list.sort] are stable and only ask [<] of the keys; a
    stable insertion sort returns the same list. *)

Fixpoint insert_by {A : Type} (lt : A -> A -> bool) (x : A) (l : list A) : list A :=
  match l with
  | [] => [x]
  | y :: l' => if lt x y then x :: y :: l' else y :: insert_by lt x l'
  end.

Definition sorted_by {A : Type} (lt : A -> A -> bool) (l : list A) : list A :=
  fold_left (fun acc x => insert_by lt x acc) l [].

(** [sorted(l, key=key)] and [l.sort(key=key)] for an integer key. *)
Definition key_ltb {A : Type} (key : A -> Z) (a b : A) : bool := key a <? key b.

Definition sort_by_key {A : Type} (key : A -> Z) (l : list A) : list A :=
  sorted_by (key_ltb key) l.

(** [a] may stand before [b]: [b < a] is false. *)
Definition le_of {A : Type} (lt : A -> A -> bool) (a b : A) : Prop := lt b a = false.

(** [enumerate(xs)] *)
Definition enumerate {A : Type} (xs : list A) : list (nat * A) :=
  combine (List.seq 0 (List.length xs)) xs.

(** A rendering of values for the examples: [repr] on [None], booleans,
    integers, strings free of quotes and escapes, lists and dicts. *)
Fixpoint demo_repr (v : json) : string :=
  match v with
  | JNull => "None"
  | JBool true => "True"
  | JBool false => "False"
  | JInt n => DecimalString.NilZero.string_of_int (Z.to_int n)
  | JFloat m e =>
      (DecimalString.NilZero.string_of_int (Z.to_int m) ++ "*2**" ++
       DecimalString.NilZero.string_of_int (Z.to_int e))%string
  | JStr s => ("'" ++ s ++ "'")%string
  | JArr xs => ("[" ++ join ", " (map demo_repr xs) ++ "]")%string
  | JObj kvs =>
      ("{" ++ join ", " (map (fun kv : string * json =>
                                ("'" ++ fst kv ++ "': " ++ demo_repr (snd kv))%string) kvs)
           ++ "}")%string
  end.

(** A value as Python holds it: every mapping has one entry per key, at
    every level. *)
Fixpoint is_value (v : json) : Prop :=
  match v with
  | JObj kvs => is_dict kvs /\ fold_right (fun kv P => is_value (snd kv) /\ P) True kvs
  | JArr xs => fold_right (fun x P => is_value x /\ P) True xs
  | _ => True
  end.

(** Every character of [s] is in the class [p]. *)
Fixpoint all_of (p : ascii -> bool) (s : string) : bool :=
  match s with
  | EmptyString => true
  | String c s' => p c && all_of p s'
  end.

(** The line feed, which [.] does not match. *)
Definition newline : ascii := "010"%char.

End Py.

Module SensitiveFilter.
Import Py.

Definition SENSITIVE_KEYWORDS : list string :=
  [ "key"; "secret"; "token"; "password"; "credential"; "api_key";
    "access_token"; "private_key"; "auth"; "group_id"; "group"; "qq_group";
    "guild"; "channel"; "user_id"; "user"; "qq"; "uin"; "openid"; "uid";
    "endpoint"; "base_url"; "api_base"; "url"; "uri"; "webhook"; "callback";
    "host"; "domain" ].

(** [.*<suffix>$] *)
Definition ends_with (suffix : regex) : regex :=
  Seq (Star dot) (Seq suffix eol).

Definition SENSITIVE_KEY_PATTERNS : list regex :=
  [ ends_with (lit_i "_key");
    ends_with (lit_i "_secret");
    ends_with (lit_i "_token");
    ends_with (lit_i "_password");
    ends_with (lit_i "_credential");
    ends_with (lit_i "_access_token");
    ends_with (lit_i "_private_key");
    ends_with (Seq (lit_i "_group") (opt (lit_i "_id")));
    ends_with (Seq (lit_i "_guild") (opt (lit_i "_id")));
    ends_with (Seq (lit_i "_channel") (opt (lit_i "_id")));
    ends_with (Seq (lit_i "_user") (opt (lit_i "_id")));
    ends_with (lit_i "_qq");
    ends_with (lit_i "_uin");
    ends_with (lit_i "_openid");
    ends_with (lit_i "_endpoint");
    ends_with (lit_i "_base_url");
    ends_with (lit_i "_api_base");
    ends_with (lit_i "_url");
    ends_with (lit_i "_uri");
    ends_with (Seq (lit_i "_webhook") (opt (lit_i "_url")));
    ends_with (Seq (lit_i "_callback") (opt (lit_i "_url")));
    ends_with (lit_i "_host");
    ends_with (lit_i "_domain") ].

Definition SENSITIVE_VALUE_PATTERNS : list regex :=
  [ Seq bol (Seq (lit_i "sk-") (Star dot));
    Seq bol (Seq (lit_i "bearer") (Seq (plus space) (plus dot)));
    Seq bol (Seq (lit_i "http") (Seq (opt (lit_i "s")) (Seq (lit_i "://") (plus dot))));
    Seq bol (Seq (lit_i "ws") (Seq (opt (lit_i "s")) (Seq (lit_i "://") (plus dot)))) ].

Definition is_sensitive_key (key : string) : bool :=
  let key_lower := lower key in
  if existsb (fun k => contains k key_lower) SENSITIVE_KEYWORDS then true
  else existsb (fun p => fullmatch p key) SENSITIVE_KEY_PATTERNS.

Definition is_sensitive_value (value : json) : bool :=
  match value with
  | JStr v =>
      let s := strip v in
      existsb (fun p => rmatch p s) SENSITIVE_VALUE_PATTERNS
  | _ => false
  end.

(** One turn of the loop over [data.items()]: the entry is skipped when its
    key or its value is sensitive, and stored under its key otherwise. *)
Definition filter_item (recur : json -> json) (filtered : dict)
  (kv : string * json) : dict :=
  let (key, v) := kv in
  if is_sensitive_key key then filtered
  else if is_sensitive_value v then filtered
  else dict_set key (recur v) filtered.

Fixpoint filter_data (depth max_depth : Z) (data : json) {struct data} : json :=
  if depth >? max_depth then data
  else
    match data with
    | JObj kvs =>
        JObj (fold_left (filter_item (filter_data (depth + 1) max_depth)) kvs [])
    | JArr xs => JArr (map (filter_data (depth + 1) max_depth) xs)
    | _ => if is_sensitive_value data then JNull else data
    end.

(** The call of the exporter: [filter_data(cfg_dict)], [depth = 0] and
    [max_depth = 20]. *)
Definition filter_data_default (data : json) : json := filter_data 0 20 data.

(** The entries the loop of [filter_data] does not skip. *)
Definition kept (kv : string * json) : bool :=
  negb (is_sensitive_key (fst kv) || is_sensitive_value (snd kv)).

(** A mapping nested [n] levels deep around [inner]; every level also holds
    a secret under the key ["token"]. *)
Fixpoint nest (n : nat) (inner : json) : json :=
  match n with
  | O => inner
  | S n' => JObj [("token", JStr "t"); ("child", nest n' inner)]
  end.

(** [x] inside [n] nested one-element lists. *)
Fixpoint wrap (n : nat) (x : json) : json :=
  match n with
  | O => x
  | S n' => JArr [wrap n' x]
  end.

(** The same nesting with the secret of every level gone. *)
Fixpoint nest_filtered (n : nat) (inner : json) : json :=
  match n with
  | O => inner
  | S n' => JObj [("child", nest_filtered n' inner)]
  end.

(** What [filter_data] leaves behind, down to the depth bound: no entry of
    a mapping with a sensitive key or a sensitive value, and no sensitive
    string in a list or on its own.  Beyond the bound nothing is asked. *)
Fixpoint scrubbed (depth max_depth : Z) (data : json) {struct data} : bool :=
  if depth >? max_depth then true
  else
    match data with
    | JObj kvs =>
        forallb (fun kv : string * json =>
                   negb (is_sensitive_key (fst kv)) && negb (is_sensitive_value (snd kv)) &&
                   scrubbed (depth + 1) max_depth (snd kv)) kvs
    | JArr xs => forallb (scrubbed (depth + 1) max_depth) xs
    | _ => negb (is_sensitive_value data)
    end.

End SensitiveFilter.

Module Models.
Import Py.

Record ImportOptions : Type := {
  import_mode : string;
  apply_configs : bool;
  overwrite_existing_configs : bool;
  apply_priority : bool;
  proxy : string
}.

Definition default_ImportOptions : ImportOptions :=
  {| import_mode := "add";
     apply_configs := true;
     overwrite_existing_configs := false;
     apply_priority := true;
     proxy := "" |}.

(** ** The validator of [jsonschema]

    [Draft7Validator(JSON_SCHEMA)] is built without a format checker.  A
    schema is the list of its keywords in the order of the schema [dict];
    [iter_errors] visits them in that order. *)

Inductive jtype : Type :=
| TObject | TArray | TString | TInteger | TNumber | TBoolean | TNull.

#[local] Unset Elimination Schemes.
Inductive keyword : Type :=
| KSchemaUri (uri : string)
| KType (types : list jtype)
| KEnum (values : list json)
| KRequired (names : list string)
| KAdditionalProperties (allowed : bool)
| KAdditionalPropertiesSchema (sub : list keyword)
| KProperties (props : list (string * list keyword))
| KItems (sub : list keyword)
| KMaxLength (limit : Z)
| KMinimum (bound : Z)
| KFormat (fmt : string).
#[local] Set Elimination Schemes.

Definition schema := list keyword.

Inductive path_elem : Type :=
| PKey (k : string)
| PIdx (i : nat).

(** A [jsonschema.ValidationError]; for the errors [iter_errors] yields,
    [path] and [absolute_path] are the same sequence. *)
Record ValidationError : Type := {
  path : list path_elem;
  message : string
}.

Definition type_name (t : jtype) : string :=
  match t with
  | TObject => "object"
  | TArray => "array"
  | TString => "string"
  | TInteger => "integer"
  | TNumber => "number"
  | TBoolean => "boolean"
  | TNull => "null"
  end.

(** The Draft 7 type checker: a [bool] is no number, a float with an
    integral value is an integer. *)
Definition is_type (v : json) (t : jtype) : bool :=
  match t, v with
  | TObject, JObj _ => true
  | TArray, JArr _ => true
  | TString, JStr _ => true
  | TInteger, JInt _ => true
  | TInteger, JFloat m e => float_is_integer m e
  | TNumber, JInt _ => true
  | TNumber, JFloat _ _ => true
  | TBoolean, JBool _ => true
  | TNull, JNull => true
  | _, _ => false
  end.

(** [schema.get("properties", {})], by name. *)
Fixpoint schema_properties (s : schema) : list string :=
  match s with
  | [] => []
  | KProperties props :: _ => map fst props
  | _ :: rest => schema_properties rest
  end.

Definition find_additional_properties (instance : dict) (s : schema) : list string :=
  filter (fun property => negb (existsb (String.eqb property) (schema_properties s)))
         (dict_keys instance).

Definition number_ltb (v : json) (bound : Z) : bool :=
  match v with
  | JInt n => n <? bound
  | JFloat m e => float_ltb_int m e bound
  | _ => false
  end.

Section Validator.

(** [repr] is the interpreter's; the messages of the validator and [str] on
    a value that is no string go through it. *)
Variable py_repr : json -> string.

Definition py_str (v : json) : string :=
  match v with
  | JStr s => s
  | _ => py_repr v
  end.

Definition extras_msg (extras : list string) : string :=
  (join ", " (map (fun e => py_repr (JStr e)) extras) ++
   (match extras with [_] => " was" | _ => " were" end))%string.

(** The errors of one keyword of the schema [whole] on [instance], found at
    [at_path] of the validated value. *)
Fixpoint keyword_errors (whole : schema) (kw : keyword)
  (at_path : list path_elem) (instance : json) {struct kw}
  : list ValidationError :=
  match kw with
  | KSchemaUri _ => []
  | KFormat _ => []
  | KType types =>
      if existsb (is_type instance) types then []
      else [ {| path := at_path;
                message := (py_repr instance ++ " is not of type " ++
                            join ", " (map (fun t => py_repr (JStr (type_name t))) types))%string |} ]
  | KEnum values =>
      if existsb (json_eqb instance) values then []
      else [ {| path := at_path;
                message := (py_repr instance ++ " is not one of " ++
                            py_repr (JArr values))%string |} ]
  | KRequired names =>
      match instance with
      | JObj kvs =>
          flat_map (fun property =>
                      if dict_mem property kvs then []
                      else [ {| path := at_path;
                                message := (py_repr (JStr property) ++
                                            " is a required property")%string |} ])
                   names
      | _ => []
      end
  | KAdditionalProperties allowed =>
      match instance with
      | JObj kvs =>
          match find_additional_properties kvs whole with
          | [] => []
          | extras =>
              if allowed then []
              else [ {| path := at_path;
                        message := ("Additional properties are not allowed (" ++
                                    extras_msg (sorted_by String.ltb extras) ++
                                    " unexpected)")%string |} ]
          end
      | _ => []
      end
  | KAdditionalPropertiesSchema sub =>
      match instance with
      | JObj kvs =>
          flat_map (fun extra =>
                      match dict_get extra kvs with
                      | Some v =>
                          flat_map (fun k => keyword_errors sub k (at_path ++ [PKey extra]) v) sub
                      | None => []
                      end)
                   (find_additional_properties kvs whole)
      | _ => []
      end
  | KProperties props =>
      match instance with
      | JObj kvs =>
          flat_map (fun ps : string * list keyword =>
                      match dict_get (fst ps) kvs with
                      | Some v =>
                          flat_map (fun k => keyword_errors (snd ps) k (at_path ++ [PKey (fst ps)]) v)
                                   (snd ps)
                      | None => []
                      end)
                   props
      | _ => []
      end
  | KItems sub =>
      match instance with
      | JArr xs =>
          flat_map (fun ix : nat * json =>
                      flat_map (fun k => keyword_errors sub k (at_path ++ [PIdx (fst ix)]) (snd ix))
                               sub)
                   (enumerate xs)
      | _ => []
      end
  | KMaxLength limit =>
      match instance with
      | JStr s =>
          if Z.of_nat (String.length s) >? limit
          then [ {| path := at_path; message := (py_repr instance ++ " is too long")%string |} ]
          else []
      | _ => []
      end
  | KMinimum bound =>
      if (is_type instance TNumber) && number_ltb instance bound
      then [ {| path := at_path;
                message := (py_repr instance ++ " is less than the minimum of " ++
                            py_repr (JInt bound))%string |} ]
      else []
  end.

(** [validator.iter_errors(instance)] *)
Definition iter_errors (s : schema) (instance : json) : list ValidationError :=
  flat_map (fun k => keyword_errors s k [] instance) s.

End Validator.

(** [<] on the sort key [list(e.path)]: the first position where the two
    paths differ decides, a proper prefix comes first.  Python raises
    [TypeError] when that position holds a key in one path and an index in
    the other; two locations of one value never do
    ([ModelsFacts.iter_errors_comparable]). *)
Definition elem_eqb (a b : path_elem) : bool :=
  match a, b with
  | PKey x, PKey y => String.eqb x y
  | PIdx i, PIdx j => Nat.eqb i j
  | _, _ => false
  end.

Definition elem_ltb (a b : path_elem) : bool :=
  match a, b with
  | PKey x, PKey y => String.ltb x y
  | PIdx i, PIdx j => Nat.ltb i j
  | _, _ => false
  end.

Fixpoint path_ltb (p q : list path_elem) : bool :=
  match p, q with
  | [], [] => false
  | [], _ :: _ => true
  | _ :: _, [] => false
  | a :: p', b :: q' => if elem_eqb a b then path_ltb p' q' else elem_ltb a b
  end.

Definition str_of_elem (p : path_elem) : string :=
  match p with
  | PKey k => k
  | PIdx i => str_of_nat i
  end.

Definition same_kind (a b : path_elem) : bool :=
  match a, b with
  | PKey _, PKey _ => true
  | PIdx _, PIdx _ => true
  | _, _ => false
  end.

(** [list(p) < list(q)] raises no [TypeError]: where the two paths first
    differ, both hold a key or both hold an index. *)
Fixpoint comparable (p q : list path_elem) : bool :=
  match p, q with
  | a :: p', b :: q' => if elem_eqb a b then comparable p' q' else same_kind a b
  | _, _ => true
  end.

(** [p] is the location of a value inside [v]. *)
Fixpoint resolves (p : list path_elem) (v : json) : bool :=
  match p with
  | [] => true
  | PKey k :: p' =>
      match v with
      | JObj kvs =>
          match dict_get k kvs with
          | Some v' => resolves p' v'
          | None => false
          end
      | _ => false
      end
  | PIdx i :: p' =>
      match v with
      | JArr xs =>
          match nth_error xs i with
          | Some v' => resolves p' v'
          | None => false
          end
      | _ => false
      end
  end.

Module CollectionPlugin.

Record t : Type := {
  name : string;
  repo : string;
  version : string;
  display_name : option string
}.

Definition to_dict (self : t) : dict :=
  let data := [ ("name", JStr (name self));
                ("repo", JStr (repo self));
                ("version", JStr (version self)) ] in
  match display_name self with
  | Some d => dict_set "display_name" (JStr d) data
  | None => data
  end.

Section FromDict.
Variable py_repr : json -> string.

Definition from_dict (data : json) : result t :=
  match data with
  | JObj d =>
      Return {| name := py_str py_repr (get_or "name" (JStr "") d);
                repo := py_str py_repr (get_or "repo" (JStr "") d);
                version := py_str py_repr (get_or "version" (JStr "") d);
                display_name :=
                  match get "display_name" d with
                  | JNull => None
                  | v => Some (py_str py_repr v)
                  end |}
  | _ => Raise (AttributeError "object has no attribute 'get'")
  end.

End FromDict.
End CollectionPlugin.

Module CollectionMetadata.

Record t : Type := {
  name : string;
  description : string;
  author : string;
  version : string;
  created_at : string;
  astrbot_version : string;
  plugin_count : Z
}.

Definition to_dict (self : t) : dict :=
  [ ("name", JStr (name self));
    ("description", JStr (description self));
    ("author", JStr (author self));
    ("version", JStr (version self));
    ("created_at", JStr (created_at self));
    ("astrbot_version", JStr (astrbot_version self));
    ("plugin_count", JInt (plugin_count self)) ].

Section FromDict.
Variable py_repr : json -> string.

Definition from_dict (data : json) : result t :=
  match data with
  | JObj d =>
      count <- py_int (py_or (get_or "plugin_count" (JInt 0) d) (JInt 0)) ;;
      Return {| name := py_str py_repr (get_or "name" (JStr "") d);
                description := py_str py_repr (get_or "description" (JStr "") d);
                author := py_str py_repr (get_or "author" (JStr "") d);
                version := py_str py_repr (get_or "version" (JStr "") d);
                created_at := py_str py_repr (get_or "created_at" (JStr "") d);
                astrbot_version := py_str py_repr (get_or "astrbot_version" (JStr "") d);
                plugin_count := count |}
  | _ => Raise (AttributeError "object has no attribute 'get'")
  end.

End FromDict.
End CollectionMetadata.

Module PluginCollection.

(** [plugin_configs] and [handler_priority_overrides] hold a [dict] or
    [None]; [None] is [JNull]. *)
Record t : Type := {
  schema_version : string;
  metadata : CollectionMetadata.t;
  plugins : list CollectionPlugin.t;
  plugin_configs : json;
  handler_priority_overrides : json
}.

Definition SCHEMA_VERSION : string := "1.0".

Definition JSON_SCHEMA : schema :=
  [ KSchemaUri "http://json-schema.org/draft-07/schema#";
    KType [TObject];
    KRequired ["schema_version"; "metadata"; "plugins"];
    KAdditionalProperties false;
    KProperties
      [ ("schema_version", [KType [TString]; KEnum [JStr "1.0"]]);
        ("metadata",
          [ KType [TObject];
            KRequired [ "name"; "description"; "author"; "version";
                        "created_at"; "astrbot_version"; "plugin_count" ];
            KAdditionalProperties false;
            KProperties
              [ ("name", [KType [TString]; KMaxLength 100]);
                ("description", [KType [TString]; KMaxLength 500]);
                ("author", [KType [TString]]);
                ("version", [KType [TString]]);
                ("created_at", [KType [TString]; KFormat "date-time"]);
                ("astrbot_version", [KType [TString]]);
                ("plugin_count", [KType [TInteger]; KMinimum 0]) ] ]);
        ("plugins",
          [ KType [TArray];
            KItems
              [ KType [TObject];
                KRequired ["name"; "repo"; "version"];
                KAdditionalProperties false;
                KProperties
                  [ ("name", [KType [TString]]);
                    ("repo", [KType [TString]]);
                    ("version", [KType [TString]]);
                    ("display_name", [KType [TString; TNull]]) ] ] ]);
        ("plugin_configs", [KType [TObject; TNull]; KAdditionalProperties true]);
        ("handler_priority_overrides",
          [ KType [TObject; TNull]; KAdditionalPropertiesSchema [KType [TInteger]] ]) ] ].

Definition to_dict (self : t) : dict :=
  let data := [ ("schema_version", JStr (schema_version self));
                ("metadata", JObj (CollectionMetadata.to_dict (metadata self)));
                ("plugins", JArr (map (fun p => JObj (CollectionPlugin.to_dict p))
                                      (plugins self))) ] in
  let data := match plugin_configs self with
              | JNull => data
              | v => dict_set "plugin_configs" v data
              end in
  match handler_priority_overrides self with
  | JNull => data
  | v => dict_set "handler_priority_overrides" v data
  end.

Section Validation.
Variable py_repr : json -> string.

(** The key of [sorted(..., key=lambda e: list(e.path))]. *)
Definition error_ltb (a b : ValidationError) : bool := path_ltb (path a) (path b).

(** One entry of [parts]: the location, when there is one, then the message. *)
Definition part (err : ValidationError) : string :=
  let loc := join "/" (map str_of_elem (path err)) in
  let prefix := if String.eqb loc "" then "" else (loc ++ ": ")%string in
  (prefix ++ message err)%string.

(** The [errors] of [validate_dict], sorted. *)
Definition sorted_errors (data : json) : list ValidationError :=
  sorted_by error_ltb (iter_errors py_repr JSON_SCHEMA data).

Definition validate_dict (data : json) : result unit :=
  let errors := sorted_errors data in
  match errors with
  | [] => Return tt
  | _ => Raise (CollectionValidationError (join "; " (map part errors)))
  end.

Definition from_dict (data : json) : result t :=
  _ <- validate_dict data ;;
  match data with
  | JObj d =>
      match dict_get "metadata" d with
      | None => Raise (KeyError "'metadata'")
      | Some m =>
          meta <- CollectionMetadata.from_dict py_repr m ;;
          match py_or (get "plugins" d) (JArr []) with
          | JArr ps =>
              plugins <- map_result (CollectionPlugin.from_dict py_repr) ps ;;
              Return {| schema_version :=
                          py_str py_repr (get_or "schema_version" (JStr SCHEMA_VERSION) d);
                        metadata := meta;
                        plugins := plugins;
                        plugin_configs := get "plugin_configs" d;
                        handler_priority_overrides := get "handler_priority_overrides" d |}
          | _ => Raise (TypeError "plugins is not a list")
          end
      end
  | _ => Raise (TypeError "collection is not a dict")
  end.

End Validation.
End PluginCollection.

(** The documents whose serialized form the schema accepts
    ([ModelsFacts.serialized_valid]). *)
Definition well_formed (doc : PluginCollection.t) : Prop :=
  PluginCollection.schema_version doc = "1.0" /\
  Z.of_nat (String.length (CollectionMetadata.name (PluginCollection.metadata doc))) <= 100 /\
  Z.of_nat (String.length (CollectionMetadata.description (PluginCollection.metadata doc)))
    <= 500 /\
  0 <= CollectionMetadata.plugin_count (PluginCollection.metadata doc) /\
  (PluginCollection.plugin_configs doc = JNull \/
   exists d, PluginCollection.plugin_configs doc = JObj d) /\
  (PluginCollection.handler_priority_overrides doc = JNull \/
   exists d, PluginCollection.handler_priority_overrides doc = JObj d /\
             Forall (fun kv => is_type (snd kv) TInteger = true) d).

(** ** The payloads [JSON_SCHEMA] accepts *)

Section Passing.
Variable py_repr : json -> string.

(** A schema with no error on [v]: none of its keywords has one. *)
Definition passes (s : schema) (at_path : list path_elem) (v : json) : Prop :=
  forall k, In k s -> keyword_errors py_repr s k at_path v = [].

End Passing.

(** A string under [key]. *)
Definition has_string (key : string) (d : dict) : Prop :=
  exists s, dict_get key d = Some (JStr s).

(** A string of at most [limit] characters under [key]. *)
Definition has_short_string (key : string) (limit : Z) (d : dict) : Prop :=
  exists s, dict_get key d = Some (JStr s) /\ Z.of_nat (String.length s) <= limit.

(** The [metadata] objects the schema accepts. *)
Definition accepted_metadata (m : dict) : Prop :=
  has_short_string "name" 100 m /\
  has_short_string "description" 500 m /\
  has_string "author" m /\
  has_string "version" m /\
  has_string "created_at" m /\
  has_string "astrbot_version" m /\
  (exists c, dict_get "plugin_count" m = Some c /\
             is_type c TInteger = true /\ number_ltb c 0 = false) /\
  (forall k, In k (dict_keys m) ->
     In k ["name"; "description"; "author"; "version"; "created_at";
           "astrbot_version"; "plugin_count"]).

(** The items of [plugins] the schema accepts. *)
Definition accepted_plugin (p : json) : Prop :=
  exists pd, p = JObj pd /\
    has_string "name" pd /\ has_string "repo" pd /\ has_string "version" pd /\
    (forall v, dict_get "display_name" pd = Some v -> v = JNull \/ exists s, v = JStr s) /\
    (forall k, In k (dict_keys pd) -> In k ["name"; "repo"; "version"; "display_name"]).

(** The payloads the schema accepts. *)
Definition accepted (data : json) : Prop :=
  exists d, data = JObj d /\
    dict_get "schema_version" d = Some (JStr "1.0") /\
    (exists m, dict_get "metadata" d = Some (JObj m) /\ accepted_metadata m) /\
    (exists ps, dict_get "plugins" d = Some (JArr ps) /\ Forall accepted_plugin ps) /\
    (forall v, dict_get "plugin_configs" d = Some v -> v = JNull \/ exists c, v = JObj c) /\
    (forall v, dict_get "handler_priority_overrides" d = Some v ->
       v = JNull \/
       exists o, v = JObj o /\
                 forall k w, dict_get k o = Some w -> is_type w TInteger = true) /\
    (forall k, In k (dict_keys d) ->
       In k ["schema_version"; "metadata"; "plugins"; "plugin_configs";
             "handler_priority_overrides"]).

End Models.

(** The host platform, as far as the collection code reads it. *)
Module Star.
Import Py.

(** Modelled from the spec: [StarMetadata] is declared outside these
    sources; the lifecycle contract lists an installed plugin as
    [{name, repo, version, display_name, reserved, config?}], and these are
    the attributes the exporter and the importer read.  Each of [name],
    [repo], [version] and [display_name] is a string or [None]. *)
Record t : Type := {
  name : option string;
  repo : option string;
  version : option string;
  display_name : option string;
  reserved : bool;
  config : option dict
}.

(** [not s] for a string or [None]. *)
Definition falsy (s : option string) : bool :=
  match s with
  | None => true
  | Some s => String.eqb s ""
  end.

(** [x in names], for [x] a string or [None] and [names] a set of strings. *)
Definition in_names (x : option string) (names : list string) : bool :=
  match x with
  | None => false
  | Some s => existsb (String.eqb s) names
  end.

(** [x in names], for [x] a string and [names] a set of strings or [None]. *)
Definition in_opt_names (x : string) (names : list (option string)) : bool :=
  existsb (fun n => match n with Some s => String.eqb x s | None => false end) names.

End Star.

Module Compatibility.
Import Py.

(** Modelled from the spec: [StarHandlerMetadata] is declared outside these
    sources; a handler carries its priority annotation in [extras_configs],
    which is all the compatibility layer reads and writes. *)
Record Handler : Type := {
  handler_full_name : string;
  extras_configs : dict
}.

(** Modelled from the spec: [star_handlers_registry] is declared outside
    these sources; it is the live handler registry, with its handlers by
    name ([star_handlers_map]) and its dispatch order ([_handlers]).
    Handlers are objects: both hold references into [heap], so a write
    through the map is seen through the list. *)
Record Registry : Type := {
  heap : nat -> Handler;
  star_handlers_map : list (string * nat);
  _handlers : list nat
}.

(** [int(h.extras_configs.get("priority", 0) or 0)] *)
Definition priority_of (h : Handler) : result Z :=
  py_int (py_or (get_or "priority" (JInt 0) (extras_configs h)) (JInt 0)).

(** [{str(k): int(v) for k, v in items}] *)
Fixpoint normalize (items : dict) (acc : list (string * Z)) : result (list (string * Z)) :=
  match items with
  | [] => Return acc
  | (k, v) :: rest => n <- py_int v ;; normalize rest (dict_set k n acc)
  end.

Definition overrides_json (d : list (string * Z)) : json :=
  JObj (map (fun kv => (fst kv, JInt (snd kv))) d).

(** [handler.extras_configs["priority"] = int(priority)] on the object [ref]. *)
Definition set_priority (ref : nat) (priority : Z) (reg : Registry) : Registry :=
  let h := heap reg ref in
  let h' := {| handler_full_name := handler_full_name h;
               extras_configs := dict_set "priority" (JInt priority) (extras_configs h) |} in
  {| heap := fun r => if Nat.eqb r ref then h' else heap reg r;
     star_handlers_map := star_handlers_map reg;
     _handlers := _handlers reg |}.

(** The loop over [normalized.items()]. *)
Definition write_priorities (normalized : list (string * Z)) (reg : Registry) : Registry :=
  fold_left (fun reg kv =>
               match dict_get (fst kv) (star_handlers_map reg) with
               | None => reg
               | Some ref => set_priority ref (snd kv) reg
               end)
            normalized reg.

(** [_handlers.sort(key=lambda h: -int(...))]: the keys are computed first,
    and an exception of the key function leaves the list as it was. *)
Definition sort_handlers (reg : Registry) : result Registry :=
  keys <- map_result (fun ref => p <- priority_of (heap reg ref) ;; Return (ref, - p))
                     (_handlers reg) ;;
  Return {| heap := heap reg;
            star_handlers_map := star_handlers_map reg;
            _handlers := map fst (sort_by_key snd keys) |}.

Section PriorityCompatibility.

(** The key-value store [sp] (declared outside these sources): a state and
    its two operations, each of which may raise. *)
Variable Store : Type.
Variable global_get : Store -> string -> json -> result json.
Variable global_put : Store -> string -> json -> result Store.

Definition registry_overrides (reg : Registry) : list (string * Z) :=
  fold_left (fun overrides kv =>
               let priority := match priority_of (heap reg (snd kv)) with
                               | Return p => p
                               | Raise _ => 0
                               end in
               if priority =? 0 then overrides
               else dict_set (fst kv) priority overrides)
            (star_handlers_map reg) [].

Definition get_priority_overrides (sp : Store) (reg : Registry)
  : result (list (string * Z)) :=
  match global_get sp "handler_priority_overrides" (JObj []) with
  | Return (JObj (item :: items)) =>
      match normalize (item :: items) [] with
      | Return d => Return d
      | Raise e => if is_Exception e then Return (registry_overrides reg) else Raise e
      end
  | Return _ => Return (registry_overrides reg)
  | Raise e => if is_Exception e then Return (registry_overrides reg) else Raise e
  end.

(** [(overrides or {}).items()] *)
Definition items_of (overrides : json) : result dict :=
  match py_or overrides (JObj []) with
  | JObj items => Return items
  | _ => Raise (AttributeError "object has no attribute 'items'")
  end.

(** The outcome, the store and the registry after the call.  An exception
    other than [Exception] raised by the store goes through. *)
Definition apply_priority_overrides (overrides : json) (sp : Store) (reg : Registry)
  : result bool * Store * Registry :=
  match (items <- items_of overrides ;; normalize items []) with
  | Raise e => (Raise e, sp, reg)
  | Return normalized =>
      match global_put sp "handler_priority_overrides" (overrides_json normalized) with
      | Return sp' => (Return true, sp', reg)
      | Raise e =>
          if is_Exception e then
            let reg' := write_priorities normalized reg in
            match sort_handlers reg' with
            | Return reg'' => (Return true, sp, reg'')
            | Raise e' =>
                if is_Exception e' then (Return false, sp, reg')
                else (Raise e', sp, reg')
            end
          else (Raise e, sp, reg)
      end
  end.

Definition is_pr4716_available (sp : Store) : result bool :=
  match global_get sp "handler_priority_overrides" (JObj []) with
  | Return _ => Return true
  | Raise e => if is_Exception e then Return false else Raise e
  end.

End PriorityCompatibility.

(** The handler [ref] has the priority [p]. *)
Definition has_priority (reg : Registry) (p : Z) (ref : nat) : bool :=
  match priority_of (heap reg ref) with
  | Return q => q =? p
  | Raise _ => false
  end.

(** The priorities of the dispatch list, in order. *)
Definition priorities (reg : Registry) : list (result Z) :=
  map (fun ref => priority_of (heap reg ref)) (_handlers reg).

(** Each priority is greater than the next one. *)
Fixpoint strictly_descending (ps : list Z) : bool :=
  match ps with
  | a :: (b :: _) as rest => (b <? a) && strictly_descending rest
  | _ => true
  end.

(** No priority is smaller than the next one. *)
Fixpoint descending (ps : list Z) : bool :=
  match ps with
  | a :: (b :: _) as rest => (b <=? a) && descending rest
  | _ => true
  end.

(** A registry of two handlers, both of priority 0, and a store whose
    writes fail. *)
Definition two_handlers : Registry :=
  {| heap := fun ref =>
               {| handler_full_name := if Nat.eqb ref 0 then "on_message" else "on_command";
                  extras_configs := [("priority", JInt 0)] |};
     star_handlers_map := [("on_message", 0%nat); ("on_command", 1%nat)];
     _handlers := [0%nat; 1%nat] |}.

Definition failing_put (sp : unit) (key : string) (value : json) : result unit :=
  Raise (Exception "store unavailable").

(** Every name of the registry stands for a handler of its own. *)
Definition distinct_handlers (reg : Registry) : Prop :=
  is_dict (star_handlers_map reg) /\ NoDup (map snd (star_handlers_map reg)).

(** What the registry reports for a name: the priority of its handler,
    unless it is 0 or cannot be read. *)
Definition reported (reg : Registry) (name : string) : option Z :=
  match dict_get name (star_handlers_map reg) with
  | Some ref =>
      match priority_of (heap reg ref) with
      | Return p => if p =? 0 then None else Some p
      | Raise _ => None
      end
  | None => None
  end.

End Compatibility.

Module Exporter.
Import Py Models.

Record ExportOptions : Type := {
  name : string;
  description : string;
  author : string;
  version : string;
  include_configs : bool;
  include_priority : bool;
  exclude_plugins : option (list string)
}.

(** [ExportOptions(name=name)]: every other field at its default. *)
Definition default_ExportOptions (name : string) : ExportOptions :=
  {| name := name;
     description := "";
     author := "";
     version := "1.0.0";
     include_configs := true;
     include_priority := true;
     exclude_plugins := None |}.

(** One turn of the loop over [get_all_stars()], on the pair
    [(plugins, plugin_configs)]; [plugin_configs] is a [dict] or [None]. *)
Definition export_star (options : ExportOptions) (exclude : list string)
  (acc : list CollectionPlugin.t * option dict) (plugin : Star.t)
  : list CollectionPlugin.t * option dict :=
  let (plugins, plugin_configs) := acc in
  if Star.in_names (Star.name plugin) exclude then acc
  else if Star.falsy (Star.repo plugin) then acc
  else if Star.falsy (Star.name plugin) then acc
  else
    let name := match Star.name plugin with Some s => s | None => "None" end in
    let plugins :=
      plugins ++
      [ {| CollectionPlugin.name := name;
           CollectionPlugin.repo := match Star.repo plugin with Some r => r | None => "" end;
           CollectionPlugin.version :=
             if Star.falsy (Star.version plugin) then ""
             else match Star.version plugin with Some v => v | None => "" end;
           CollectionPlugin.display_name := Star.display_name plugin |} ] in
    match include_configs options, plugin_configs with
    | true, Some configs =>
        match Star.config plugin with
        | None => (plugins, plugin_configs)
        | Some cfg_dict =>
            let filtered := SensitiveFilter.filter_data_default (JObj cfg_dict) in
            (plugins, Some (dict_set name filtered configs))
        end
    | _, _ => (plugins, plugin_configs)
    end.

Definition opt_dict_json (d : option dict) : json :=
  match d with
  | Some d => JObj d
  | None => JNull
  end.

Section Run.

(** What [export] reads from outside: the stars of the plugin manager, the
    key-value store and the handler registry (through
    [PriorityCompatibility.get_priority_overrides]),
    [datetime.now(timezone.utc).isoformat()] and the platform's [VERSION]. *)
Variable stars : list Star.t.
Variable Store : Type.
Variable global_get : Store -> string -> json -> result json.
Variable sp : Store.
Variable registry : Compatibility.Registry.
Variable now : string.
Variable VERSION : string.

(** The [collection] that [export] assembles. *)
Definition export_collection (options : ExportOptions) : result PluginCollection.t :=
  let exclude := match exclude_plugins options with Some l => l | None => [] end in
  let plugin_configs := if include_configs options then Some [] else None in
  let (plugins, plugin_configs) :=
    fold_left (export_star options exclude) stars ([], plugin_configs) in
  let metadata :=
    {| CollectionMetadata.name := name options;
       CollectionMetadata.description := description options;
       CollectionMetadata.author := author options;
       CollectionMetadata.version := version options;
       CollectionMetadata.created_at := now;
       CollectionMetadata.astrbot_version := VERSION;
       CollectionMetadata.plugin_count := Z.of_nat (List.length plugins) |} in
  handler_priority_overrides <-
    (if include_priority options
     then d <- Compatibility.get_priority_overrides Store global_get sp registry ;;
          Return (Compatibility.overrides_json d)
     else Return JNull) ;;
  Return {| PluginCollection.schema_version := PluginCollection.SCHEMA_VERSION;
            PluginCollection.metadata := metadata;
            PluginCollection.plugins := plugins;
            PluginCollection.plugin_configs := opt_dict_json plugin_configs;
            PluginCollection.handler_priority_overrides := handler_priority_overrides |}.

Variable py_repr : json -> string.

Definition export (options : ExportOptions) : result json :=
  collection <- export_collection options ;;
  let payload := JObj (PluginCollection.to_dict collection) in
  _ <- PluginCollection.validate_dict py_repr payload ;;
  Return payload.

End Run.
(** [options.exclude_plugins or []] *)
Definition excluded (options : ExportOptions) : list string :=
  match exclude_plugins options with Some l => l | None => [] end.

(** The stars the loop of [export] does not [continue] past before it
    appends: not excluded, with a repo and with a name. *)
Definition exported (exclude : list string) (plugin : Star.t) : bool :=
  negb (Star.in_names (Star.name plugin) exclude) &&
  negb (Star.falsy (Star.repo plugin)) &&
  negb (Star.falsy (Star.name plugin)).

(** The entry of [plugins] is the entry of the star. *)
Definition entry_of (plugin : Star.t) (p : CollectionPlugin.t) : Prop :=
  Star.name plugin = Some (CollectionPlugin.name p) /\
  Star.repo plugin = Some (CollectionPlugin.repo p) /\
  CollectionPlugin.version p =
    match Star.version plugin with Some v => v | None => "" end /\
  CollectionPlugin.display_name p = Star.display_name plugin.

End Exporter.

Module Importer.
Import Py Models.

(** The calls the importer makes on its collaborators, in the order it
    makes them. *)
Inductive event : Type :=
| EvConflictCheck (names : list string)
| EvUninstall (name : string)
| EvInstall (repo proxy : string)
| EvSaveConfig (plugin_name : string) (cfg : dict)
| EvReload (plugin_name : string)
| EvApplyPriority (overrides : json).

Section Host.

(** The plugin manager and the platform around it (declared outside these
    sources): a state [World] and the operations the importer calls, each
    returning or raising.  [detect_conflicts] is [None] when the platform
    has no conflict detection ([ImportError]); it reads the world and does
    not change it.  [apply_priority_overrides] stands for
    [PriorityCompatibility.apply_priority_overrides] on the store and the
    registry the world holds ([Compatibility.apply_priority_overrides]; see
    [DemoHost]). *)
Variable World : Type.
Variable get_all_stars : World -> list Star.t.
Variable get_registered_star : World -> string -> option Star.t.
Variable detect_conflicts : option (World -> list string -> result json).
Variable uninstall_plugin : World -> string -> result unit * World.
Variable install_plugin : World -> string -> string -> result unit * World.
Variable save_config : World -> string -> dict -> result unit * World.
Variable reload : World -> string -> result unit * World.
Variable apply_priority_overrides : World -> json -> result bool * World.

(** A computation of the importer: it reads and changes the world, logs its
    calls, and returns or raises. *)
Definition M (A : Type) : Type := World -> list event -> result A * World * list event.

Definition ret {A : Type} (a : A) : M A := fun w tr => (Return a, w, tr).

Definition raise {A : Type} (e : exn) : M A := fun w tr => (Raise e, w, tr).

Definition bindM {A B : Type} (m : M A) (k : A -> M B) : M B :=
  fun w tr =>
    match m w tr with
    | (Return a, w', tr') => k a w' tr'
    | (Raise e, w', tr') => (Raise e, w', tr')
    end.

Notation "x <~ m ;; k" := (bindM m (fun x => k))
  (at level 61, m at next level, right associativity).

(** A call on a collaborator that may change the world. *)
Definition call {A : Type} (ev : event) (op : World -> result A * World) : M A :=
  fun w tr => let (r, w') := op w in (r, w', tr ++ [ev]).

(** A read of the world. *)
Definition read {A : Type} (f : World -> A) : M A := fun w tr => (Return (f w), w, tr).

(** [try: m / except Exception as e: ...]: the outcome of [m], unless it
    raised what is no [Exception]. *)
Definition try_except {A : Type} (m : M A) : M (result A) :=
  fun w tr =>
    match m w tr with
    | (Return a, w', tr') => (Return (Return a), w', tr')
    | (Raise e, w', tr') =>
        if is_Exception e then (Return (Raise e), w', tr') else (Raise e, w', tr')
    end.

(** A [for] loop that carries [acc]. *)
Fixpoint for_each {A B : Type} (xs : list A) (acc : B) (body : B -> A -> M B) : M B :=
  match xs with
  | [] => ret acc
  | x :: rest => acc' <~ body acc x ;; for_each rest acc' body
  end.

Definition names_of (plugins : list CollectionPlugin.t) : list string :=
  map CollectionPlugin.name plugins.

Definition star_names (stars : list Star.t) : list (option string) :=
  map Star.name stars.

(** [ConflictDetectionCompatibility.check_conflicts] *)
Definition check_conflicts (plugins : list string) : M json :=
  match detect_conflicts with
  | None => ret JNull
  | Some detect =>
      r <~ try_except (call (EvConflictCheck plugins) (fun w => (detect w plugins, w))) ;;
      match r with
      | Return report => ret report
      | Raise _ => ret JNull
      end
  end.

Definition is_conflict_detection_available : bool :=
  match detect_conflicts with
  | None => false
  | Some _ => true
  end.

(** The stars the uninstall loop does not [continue] past. *)
Definition uninstall_target (keep : list string) (p : Star.t) : bool :=
  negb (Star.reserved p) && negb (Star.falsy (Star.name p)) &&
  negb (Star.in_names (Star.name p) keep).

Definition uninstall_one (keep : list string) (uninstalled : list json) (p : Star.t)
  : M (list json) :=
  if Star.reserved p then ret uninstalled
  else if Star.falsy (Star.name p) then ret uninstalled
  else if Star.in_names (Star.name p) keep then ret uninstalled
  else
    let name := match Star.name p with Some s => s | None => "" end in
    r <~ try_except (call (EvUninstall name) (fun w => uninstall_plugin w name)) ;;
    match r with
    | Return _ =>
        ret (uninstalled ++ [JObj [("name", JStr name); ("status", JStr "ok")]])
    | Raise e =>
        ret (uninstalled ++ [JObj [("name", JStr name); ("status", JStr "error");
                                   ("message", JStr (exn_str e))]])
    end.

(** The uninstall phase. *)
Definition uninstall_phase (collection : PluginCollection.t) (options : ImportOptions)
  : M (list json) :=
  if String.eqb (import_mode options) "clean" then
    let keep := names_of (PluginCollection.plugins collection) in
    stars <~ read get_all_stars ;;
    for_each stars [] (uninstall_one keep)
  else ret [].

(** [_install_one]: the result of one task of the batch, an entry or the
    exception the task ended with. *)
Definition _install_one (options : ImportOptions) (name repo : string) : M (result json) :=
  r <~ try_except (call (EvInstall repo (proxy options))
                 (fun w => install_plugin w repo (proxy options))) ;;
  match r with
  | Return _ =>
      ret (Return (JObj [("name", JStr name); ("status", JStr "ok");
                         ("message", JStr "installed")]))
  | Raise e =>
      ret (Return (JObj [("name", JStr name); ("status", JStr "error");
                         ("message", JStr (exn_str e))]))
  end.

(** A task of [asyncio.gather(..., return_exceptions=True)]: an exception
    that ends the task is its result. *)
Definition gathered (task : M (result json)) : M (result json) :=
  fun w tr =>
    match task w tr with
    | (Return r, w', tr') => (Return r, w', tr')
    | (Raise e, w', tr') => (Return (Raise e), w', tr')
    end.

(** The loop over [collection.plugins] that fills [skipped_results] and
    [tasks]. *)
Definition plan_installs (options : ImportOptions) (installed_before : list (option string))
  (plugins : list CollectionPlugin.t) : list json * list (string * string) :=
  fold_left (fun (acc : list json * list (string * string)) (p : CollectionPlugin.t) =>
               let (skipped, tasks) := acc in
               if String.eqb (import_mode options) "add" &&
                  Star.in_opt_names (CollectionPlugin.name p) installed_before
               then (skipped ++ [JObj [("name", JStr (CollectionPlugin.name p));
                                       ("reason", JStr "already_installed")]],
                     tasks)
               else (skipped, tasks ++ [(CollectionPlugin.name p, CollectionPlugin.repo p)]))
            plugins ([], []).

(** The loop over [raw]. *)
Fixpoint sort_results (raw : list (result json)) (installed failed : list json)
  : result (list json * list json) :=
  match raw with
  | [] => Return (installed, failed)
  | Raise CancelledError :: _ => Raise CancelledError
  | Raise e :: rest =>
      sort_results rest installed
        (failed ++ [JObj [("name", JStr "unknown"); ("status", JStr "error");
                          ("message", JStr (exn_str e))]])
  | Return r :: rest =>
      match r with
      | JObj d =>
          if json_eqb (get "status" d) (JStr "ok")
          then sort_results rest (installed ++ [r]) failed
          else sort_results rest installed (failed ++ [r])
      | _ => Raise (AttributeError "object has no attribute 'get'")
      end
  end.

(** The install phase.  The tasks of the batch run one after the other, in
    the order of the document. *)
Definition install_phase (collection : PluginCollection.t) (options : ImportOptions)
  (installed_before : list (option string)) : M (list json * list json * list json) :=
  let (skipped, tasks) :=
    plan_installs options installed_before (PluginCollection.plugins collection) in
  raw <~ for_each tasks []
           (fun raw t => r <~ gathered (_install_one options (fst t) (snd t)) ;;
                         ret (raw ++ [r])) ;;
  match sort_results raw [] [] with
  | Return (installed, failed) => ret (installed, failed, skipped)
  | Raise e => raise e
  end.

(** One turn of the loop over [collection.plugin_configs.items()]. *)
Definition apply_config (options : ImportOptions) (installed_before : list (option string))
  (configs_applied : Z) (item : string * json) : M Z :=
  let (plugin_name, cfg) := item in
  match cfg with
  | JObj cfg =>
      md <~ read (fun w => get_registered_star w plugin_name) ;;
      match md with
      | None => ret configs_applied
      | Some md =>
          match Star.config md with
          | None | Some [] => ret configs_applied
          | Some current_cfg =>
              let is_existing := Star.in_opt_names plugin_name installed_before in
              if String.eqb (import_mode options) "add" && is_existing &&
                 negb (overwrite_existing_configs options)
              then ret configs_applied
              else
                let merged_cfg := dict_merge current_cfg cfg in
                saved <~ try_except (call (EvSaveConfig plugin_name merged_cfg)
                                   (fun w => save_config w plugin_name merged_cfg)) ;;
                match saved with
                | Raise _ => ret configs_applied
                | Return _ =>
                    _ <~ try_except (call (EvReload plugin_name) (fun w => reload w plugin_name)) ;;
                    ret (configs_applied + 1)
                end
          end
      end
  | _ => ret configs_applied
  end.

(** The config-merge phase. *)
Definition config_phase (collection : PluginCollection.t) (options : ImportOptions)
  (installed_before : list (option string)) : M Z :=
  match apply_configs options, PluginCollection.plugin_configs collection with
  | true, JObj items => for_each items 0 (apply_config options installed_before)
  | _, _ => ret 0
  end.

(** The priority-apply phase. *)
Definition priority_phase (collection : PluginCollection.t) (options : ImportOptions)
  : M bool :=
  match apply_priority options, PluginCollection.handler_priority_overrides collection with
  | true, JObj overrides =>
      call (EvApplyPriority (JObj overrides))
           (fun w => apply_priority_overrides w (JObj overrides))
  | _, _ => ret false
  end.

Definition import_collection (collection : PluginCollection.t) (options : ImportOptions)
  : M dict :=
  if negb (String.eqb (import_mode options) "add" ||
           String.eqb (import_mode options) "clean")
  then raise (ValueError "import_mode must be 'add' or 'clean'")
  else
    installed_before <~ read (fun w => star_names (get_all_stars w)) ;;
    conflict_report <~ check_conflicts (names_of (PluginCollection.plugins collection)) ;;
    uninstalled <~ uninstall_phase collection options ;;
    results <~ install_phase collection options installed_before ;;
    configs_applied <~ config_phase collection options installed_before ;;
    priority_applied <~ priority_phase collection options ;;
    let result := [ ("installed", JArr (fst (fst results)));
                    ("failed", JArr (snd (fst results)));
                    ("skipped", JArr (snd results));
                    ("uninstalled", JArr uninstalled);
                    ("configs_applied", JInt configs_applied);
                    ("priority_applied", JBool priority_applied) ] in
    match conflict_report with
    | JNull => ret result
    | report => ret (dict_set "conflicts" report result)
    end.

(** [preview]: reads the world, calls nothing. *)
Definition preview (collection : PluginCollection.t) (mode : string) : M dict :=
  stars <~ read get_all_stars ;;
  let installed := star_names stars in
  let split :=
    fold_left (fun (acc : list json * list json) (p : CollectionPlugin.t) =>
                 let (to_install, to_skip) := acc in
                 if Star.in_opt_names (CollectionPlugin.name p) installed
                 then (to_install,
                       to_skip ++ [JObj [("name", JStr (CollectionPlugin.name p));
                                         ("repo", JStr (CollectionPlugin.repo p));
                                         ("status", JStr "installed")]])
                 else (to_install ++ [JObj [("name", JStr (CollectionPlugin.name p));
                                            ("repo", JStr (CollectionPlugin.repo p));
                                            ("version", JStr (CollectionPlugin.version p));
                                            ("status", JStr "not_installed")]],
                       to_skip))
              (PluginCollection.plugins collection) ([], []) in
  let keep := names_of (PluginCollection.plugins collection) in
  let to_uninstall :=
    if String.eqb mode "clean"
    then map (fun p : Star.t =>
                JObj [("name", match Star.name p with Some s => JStr s | None => JNull end)])
             (filter (fun p : Star.t => negb (Star.reserved p) &&
                                        negb (Star.in_names (Star.name p) keep))
                     stars)
    else [] in
  let configs_count :=
    match PluginCollection.plugin_configs collection with
    | JObj d => Z.of_nat (List.length d)
    | _ => 0
    end in
  ret [ ("metadata", JObj (CollectionMetadata.to_dict (PluginCollection.metadata collection)));
        ("plugins_to_install", JArr (fst split));
        ("plugins_to_skip", JArr (snd split));
        ("plugins_to_uninstall", JArr to_uninstall);
        ("configs_count", JInt configs_count);
        ("has_priority_overrides",
          JBool (truthy (PluginCollection.handler_priority_overrides collection)));
        ("conflict_detection_available", JBool is_conflict_detection_available) ].

(** The names the log says were handed to [uninstall_plugin], in order. *)
Definition uninstall_calls (tr : list event) : list string :=
  flat_map (fun ev => match ev with EvUninstall n => [n] | _ => [] end) tr.

(** Whether an event is a config write or a reload for the plugin [p]. *)
Definition touches_config (p : string) (ev : event) : bool :=
  match ev with
  | EvSaveConfig n _ => String.eqb n p
  | EvReload n => String.eqb n p
  | _ => false
  end.

(** [m] only appends to the log, and only events that satisfy [P]. *)
Definition emits {A : Type} (P : event -> Prop) (m : M A) : Prop :=
  forall w tr, exists evs, snd (m w tr) = tr ++ evs /\ Forall P evs.

(** [m] leaves the world as it is. *)
Definition read_only {A : Type} (m : M A) : Prop :=
  forall w tr, snd (fst (m w tr)) = w.

Definition is_uninstall (ev : event) : bool :=
  match ev with
  | EvUninstall _ => true
  | _ => false
  end.

(** The names the uninstall phase hands to [uninstall_plugin] when nothing
    interrupts it: the installed stars that are not reserved, have a name,
    and whose name the document does not hold. *)
Definition targets_of (keep : list string) (stars : list Star.t) : list string :=
  flat_map (fun p : Star.t => match Star.name p with Some s => [s] | None => [] end)
           (filter (uninstall_target keep) stars).

Definition uninstall_targets (collection : PluginCollection.t) (w : World) : list string :=
  targets_of (names_of (PluginCollection.plugins collection)) (get_all_stars w).

End Host.
(** ** Reading the log and the reports *)

(** The repos and proxies the log says were handed to [install_plugin]. *)
Definition install_calls (tr : list event) : list (string * string) :=
  flat_map (fun ev => match ev with EvInstall repo proxy => [(repo, proxy)] | _ => [] end) tr.

(** The names the log says were handed to [reload]. *)
Definition reload_calls (tr : list event) : list string :=
  flat_map (fun ev => match ev with EvReload n => [n] | _ => [] end) tr.

(** The names the log says were handed to [save_config]. *)
Definition save_calls (tr : list event) : list string :=
  flat_map (fun ev => match ev with EvSaveConfig n _ => [n] | _ => [] end) tr.

Definition not_install (ev : event) : Prop :=
  match ev with EvInstall _ _ => False | _ => True end.

Definition not_config (ev : event) : Prop :=
  match ev with EvSaveConfig _ _ | EvReload _ => False | _ => True end.

Definition not_priority (ev : event) : Prop :=
  match ev with EvApplyPriority _ => False | _ => True end.

(** The plugins of the document the install loop skips. *)
Definition already_installed (options : ImportOptions)
  (installed_before : list (option string)) (p : CollectionPlugin.t) : bool :=
  String.eqb (import_mode options) "add" &&
  Star.in_opt_names (CollectionPlugin.name p) installed_before.

(** [r["repo"]] of an entry of the preview. *)
Definition entry_repo (entry : json) : json :=
  match entry with
  | JObj d => get "repo" d
  | _ => JNull
  end.

(** [r["name"]] of an entry of the report. *)
Definition entry_name (entry : json) : json :=
  match entry with
  | JObj d => get "name" d
  | _ => JNull
  end.

(** [r.get("status") == "ok"] *)
Definition status_ok (entry : json) : bool :=
  match entry with
  | JObj d => json_eqb (get "status" d) (JStr "ok")
  | _ => false
  end.

(** The report of an import that returned. *)
Definition report_of (conflict_report : json) (uninstalled installed failed skipped : list json)
  (configs_applied : Z) (priority_applied : bool) : dict :=
  let result := [ ("installed", JArr installed);
                  ("failed", JArr failed);
                  ("skipped", JArr skipped);
                  ("uninstalled", JArr uninstalled);
                  ("configs_applied", JInt configs_applied);
                  ("priority_applied", JBool priority_applied) ] in
  match conflict_report with
  | JNull => result
  | report => dict_set "conflicts" report result
  end.

(** The entries of [plugins_to_install] and of [plugins_to_skip]. *)
Definition install_entry (p : CollectionPlugin.t) : json :=
  JObj [("name", JStr (CollectionPlugin.name p));
        ("repo", JStr (CollectionPlugin.repo p));
        ("version", JStr (CollectionPlugin.version p));
        ("status", JStr "not_installed")].

Definition skip_entry (p : CollectionPlugin.t) : json :=
  JObj [("name", JStr (CollectionPlugin.name p));
        ("repo", JStr (CollectionPlugin.repo p));
        ("status", JStr "installed")].

(** [p.name in installed] *)
Definition is_installed (installed : list (option string)) (p : CollectionPlugin.t) : bool :=
  Star.in_opt_names (CollectionPlugin.name p) installed.

Section Outcomes.
Variable World : Type.
Variable install_plugin : World -> string -> string -> result unit * World.

(** The outcome of one task of the batch: the cancellation that
    [install_plugin] raised, or the answer of [_install_one]. *)
Definition install_outcome (options : ImportOptions) (t : string * string)
  (r : result json) : Prop :=
  (r = Raise CancelledError /\
   exists w, fst (install_plugin w (snd t) (proxy options)) = Raise CancelledError) \/
  exists status message,
    r = Return (JObj [("name", JStr (fst t)); ("status", JStr status);
                      ("message", JStr message)]).

(** [m] returns, whatever the world and the log. *)
Definition returns {A : Type} (m : M World A) : Prop :=
  forall w tr, exists a, fst (fst (m w tr)) = Return a.

End Outcomes.

End Importer.

Module Routes.
Import Py Models.

(** Modelled from the spec: [Response] is declared outside these sources;
    every response of the route layer is a uniform envelope, [ok] with the
    data or [error] with the message. *)
Inductive Response : Type :=
| ok (data : json)
| error (message : string).

Definition DEMO_MESSAGE : string :=
  "You are not permitted to do this operation in demo mode".

(** [hash(v)] raises [TypeError] for a list and for a dict. *)
Definition unhashable (v : json) : option exn :=
  match v with
  | JArr _ => Some (TypeError "unhashable type: 'list'")
  | JObj _ => Some (TypeError "unhashable type: 'dict'")
  | _ => None
  end.

(** [set(xs)] as far as [plugin.name in set(xs)] goes: the strings of [xs];
    an element that cannot be hashed raises.  (A [None] in [xs] can only
    match a star with no name, which the loop passes over in any case.) *)
Fixpoint set_of_names (xs : list json) : result (list string) :=
  match xs with
  | [] => Return []
  | x :: rest =>
      match unhashable x with
      | Some e => Raise e
      | None =>
          names <- set_of_names rest ;;
          Return (match x with JStr s => s :: names | _ => names end)
      end
  end.

Section Route.

(** [DEMO_MODE] and [repr] come from outside these sources. *)
Variable DEMO_MODE : bool.
Variable py_repr : json -> string.

(** ** [_parse_collection] *)

Definition _parse_collection (body : json) : result PluginCollection.t :=
  match body with
  | JObj d =>
      let body := match dict_get "collection" d with
                  | Some (JObj c) => c
                  | _ => d
                  end in
      PluginCollection.from_dict py_repr (JObj body)
  | _ => Raise (CollectionValidationError "collection must be an object")
  end.

(** ** [validate_collection]; [request] is the outcome of
    [request.get_json()]. *)
Definition validate_collection (request : result json) : result Response :=
  match (data <- request ;; _parse_collection data) with
  | Return _ => Return (ok (JObj [("valid", JBool true)]))
  | Raise (CollectionValidationError msg) =>
      Return (ok (JObj [("valid", JBool false); ("errors", JArr [JStr msg])]))
  | Raise e => if is_Exception e then Return (error (exn_str e)) else Raise e
  end.

(** ** [export_collection] *)

Section Exporting.
Variable stars : list Star.t.
Variable Store : Type.
Variable global_get : Store -> string -> json -> result json.
Variable sp : Store.
Variable registry : Compatibility.Registry.
Variable now : string.
Variable VERSION : string.

(** [await self.exporter.export(options)], the excluded names as the
    request gave them. *)
Definition exporter_export (name description author version : string)
  (include_configs include_priority : bool) (exclude_plugins : option (list json))
  : result json :=
  exclude <- match exclude_plugins with
             | Some xs => names <- set_of_names xs ;; Return (Some names)
             | None => Return None
             end ;;
  Exporter.export stars Store global_get sp registry now VERSION py_repr
    {| Exporter.name := name;
       Exporter.description := description;
       Exporter.author := author;
       Exporter.version := version;
       Exporter.include_configs := include_configs;
       Exporter.include_priority := include_priority;
       Exporter.exclude_plugins := exclude |}.

Definition export_collection (request : result json) : result Response :=
  if DEMO_MODE then Return (error DEMO_MESSAGE)
  else
    data <- request ;;
    match data with
    | JObj data =>
        let name := strip (py_str py_repr (py_or (get "name" data) (JStr ""))) in
        if String.eqb name "" then Return (error "name is required")
        else
          match exporter_export name
                  (py_str py_repr (py_or (get "description" data) (JStr "")))
                  (py_str py_repr (py_or (get "author" data) (JStr "")))
                  (py_str py_repr (py_or (get "version" data) (JStr "1.0.0")))
                  (truthy (get_or "include_configs" (JBool true) data))
                  (truthy (get_or "include_priority" (JBool true) data))
                  (match get "exclude_plugins" data with
                   | JArr xs => Some xs
                   | _ => None
                   end) with
          | Return payload => Return (ok payload)
          | Raise e => if is_Exception e then Return (error (exn_str e)) else Raise e
          end
    | _ => Return (error "Invalid request body")
    end.

End Exporting.

(** ** [preview_collection] and [import_collection] *)

Section Importing.
Variable World : Type.
Variable get_all_stars : World -> list Star.t.
Variable get_registered_star : World -> string -> option Star.t.
Variable detect_conflicts : option (World -> list string -> result json).
Variable uninstall_plugin : World -> string -> result unit * World.
Variable install_plugin : World -> string -> string -> result unit * World.
Variable save_config : World -> string -> dict -> result unit * World.
Variable reload : World -> string -> result unit * World.
Variable apply_priority_overrides : World -> json -> result bool * World.

Local Abbreviation M := (Importer.M World).
Local Notation "x <~ m ;; k" := (Importer.bindM World m (fun x => k))
  (at level 61, m at next level, right associativity).

(** A step that leaves the world alone. *)
Definition lift {A : Type} (r : result A) : M A := fun w tr => (r, w, tr).

(** [except CollectionValidationError] and [except Exception] both answer
    with [str(e)]. *)
Definition answer (m : M Response) : M Response :=
  r <~ Importer.try_except World m ;;
  match r with
  | Return response => Importer.ret World response
  | Raise e => Importer.ret World (error (exn_str e))
  end.

(** The mode of a preview: [import_mode] of the body when it is ["add"] or
    ["clean"], ["add"] otherwise; [in] hashes its left side. *)
Definition preview_mode (data : json) : result string :=
  match data with
  | JObj d =>
      let v := get "import_mode" d in
      match unhashable v with
      | Some e => Raise e
      | None =>
          Return (if json_eqb v (JStr "add") || json_eqb v (JStr "clean")
                  then py_str py_repr v else "add")
      end
  | _ => Return "add"
  end.

Definition preview_collection (request : result json) : M Response :=
  answer (data <~ lift request ;;
          import_mode <~ lift (preview_mode data) ;;
          collection <~ lift (_parse_collection data) ;;
          preview <~ Importer.preview World get_all_stars detect_conflicts
                       collection import_mode ;;
          Importer.ret World (ok (JObj preview))).

(** The [ImportOptions] the route builds from the body. *)
Definition import_options (data : dict) : ImportOptions :=
  {| import_mode := py_str py_repr (py_or (get "import_mode" data) (JStr "add"));
     apply_configs := truthy (get_or "apply_configs" (JBool true) data);
     overwrite_existing_configs :=
       truthy (get_or "overwrite_existing_configs" (JBool false) data);
     apply_priority := truthy (get_or "apply_priority" (JBool true) data);
     proxy := py_str py_repr (py_or (get "proxy" data) (JStr "")) |}.

(** [req.collection] *)
Definition request_collection (data : dict) : dict :=
  match get "collection" data with
  | JObj c => c
  | _ => []
  end.

Definition import_collection (request : result json) : M Response :=
  if DEMO_MODE then Importer.ret World (error DEMO_MESSAGE)
  else
    answer (data <~ lift request ;;
            match data with
            | JObj data =>
                collection <~ lift (PluginCollection.from_dict py_repr
                                      (JObj (request_collection data))) ;;
                result <~ Importer.import_collection World get_all_stars
                            get_registered_star detect_conflicts uninstall_plugin
                            install_plugin save_config reload apply_priority_overrides
                            collection (import_options data) ;;
                Importer.ret World (ok (JObj result))
            | _ => Importer.ret World (error "Invalid request body")
            end).

End Importing.
End Route.
End Routes.

(** A small host to run the exporter and the importer on.  The world is the
    list of installed stars and the handler registry; the key-value store
    is out of reach, so the priority overrides go through the registry; a
    star installs under the name of its repo, [uninstall_plugin] fails on
    the name ["stuck"], and the platform has no conflict detection. *)
Module DemoHost.
Import Py Models.

Record World : Type := {
  stars : list Star.t;
  registry : Compatibility.Registry
}.

Definition failing_get (sp : unit) (key : string) (default : json) : result json :=
  Raise (Exception "store unavailable").

Definition has_name (n : string) (p : Star.t) : bool :=
  match Star.name p with
  | Some s => String.eqb s n
  | None => false
  end.

Definition get_all_stars (w : World) : list Star.t := stars w.

Definition get_registered_star (w : World) (n : string) : option Star.t :=
  find (has_name n) (stars w).

Definition detect_conflicts : option (World -> list string -> result json) := None.

Definition uninstall_plugin (w : World) (n : string) : result unit * World :=
  if String.eqb n "stuck" then (Raise (Exception "plugin is in use"), w)
  else (Return tt,
        {| stars := filter (fun p => negb (has_name n p)) (stars w);
           registry := registry w |}).

Definition install_plugin (w : World) (repo proxy : string) : result unit * World :=
  (Return tt,
   {| stars :=
        stars w ++
        [ {| Star.name := Some repo; Star.repo := Some repo; Star.version := Some "1.0";
             Star.display_name := None; Star.reserved := false;
             Star.config := Some [("enabled", JBool true)] |} ];
      registry := registry w |}).

Definition save_config (w : World) (n : string) (cfg : dict) : result unit * World :=
  (Return tt,
   {| stars :=
        map (fun p => if has_name n p
                      then {| Star.name := Star.name p; Star.repo := Star.repo p;
                              Star.version := Star.version p;
                              Star.display_name := Star.display_name p;
                              Star.reserved := Star.reserved p;
                              Star.config := Some cfg |}
                      else p) (stars w);
      registry := registry w |}).

Definition reload (w : World) (n : string) : result unit * World := (Return tt, w).

(** [PriorityCompatibility.apply_priority_overrides] on the registry of the
    world, the store failing. *)
Definition apply_priority_overrides (w : World) (overrides : json) : result bool * World :=
  let out := Compatibility.apply_priority_overrides unit Compatibility.failing_put
               overrides tt (registry w) in
  (fst (fst out), {| stars := stars w; registry := snd out |}).

Definition star (n : string) (reserved : bool) (config : option dict) : Star.t :=
  {| Star.name := Some n; Star.repo := Some ("https://example.org/" ++ n)%string;
     Star.version := Some "1.2.0"; Star.display_name := None;
     Star.reserved := reserved; Star.config := config |}.

(** Two handlers: [on_message] of priority 5 before [on_command] of
    priority 0. *)
Definition handlers : Compatibility.Registry :=
  {| Compatibility.heap := fun ref =>
       if Nat.eqb ref 0
       then {| Compatibility.handler_full_name := "on_message";
               Compatibility.extras_configs := [("priority", JInt 5)] |}
       else {| Compatibility.handler_full_name := "on_command";
               Compatibility.extras_configs := [("priority", JInt 0)] |};
     Compatibility.star_handlers_map := [("on_message", 0%nat); ("on_command", 1%nat)];
     Compatibility._handlers := [0%nat; 1%nat] |}.

(** Installed: A, B and the reserved C. *)
Definition installed : World :=
  {| stars :=
       [ star "A" false (Some [("mode", JStr "quiet"); ("api_key", JStr "sk-abc123")]);
         star "B" false None;
         star "C" true None ];
     registry := handlers |}.

(** Installed: a plugin that cannot be removed, then B. *)
Definition installed_stuck : World :=
  {| stars := [ star "stuck" false None; star "B" false None ];
     registry := handlers |}.

(** A document that holds the plugin A, a configuration for it, and an
    override that puts [on_command] first. *)
Definition document : PluginCollection.t :=
  {| PluginCollection.schema_version := "1.0";
     PluginCollection.metadata :=
       {| CollectionMetadata.name := "demo"; CollectionMetadata.description := "";
          CollectionMetadata.author := ""; CollectionMetadata.version := "1.0.0";
          CollectionMetadata.created_at := "2026-01-01T00:00:00+00:00";
          CollectionMetadata.astrbot_version := "4.0.0";
          CollectionMetadata.plugin_count := 1 |};
     PluginCollection.plugins :=
       [ {| CollectionPlugin.name := "A"; CollectionPlugin.repo := "https://example.org/A";
            CollectionPlugin.version := "1.2.0"; CollectionPlugin.display_name := None |} ];
     PluginCollection.plugin_configs := JObj [("A", JObj [("mode", JStr "loud")])];
     PluginCollection.handler_priority_overrides := JObj [("on_command", JInt 7)] |}.

(** The same document with no overrides. *)
Definition plain_document : PluginCollection.t :=
  {| PluginCollection.schema_version := PluginCollection.schema_version document;
     PluginCollection.metadata := PluginCollection.metadata document;
     PluginCollection.plugins := PluginCollection.plugins document;
     PluginCollection.plugin_configs := PluginCollection.plugin_configs document;
     PluginCollection.handler_priority_overrides := JNull |}.

Definition with_mode (mode : string) : ImportOptions :=
  {| import_mode := mode; apply_configs := true; overwrite_existing_configs := false;
     apply_priority := true; proxy := "" |}.

Definition run_import (collection : PluginCollection.t) (options : ImportOptions)
  : Importer.M World dict :=
  Importer.import_collection World get_all_stars get_registered_star detect_conflicts
    uninstall_plugin install_plugin save_config reload apply_priority_overrides
    collection options.

Definition run_export (options : Exporter.ExportOptions) : result json :=
  Exporter.export (stars installed) unit failing_get tt (registry installed)
    "2026-01-01T00:00:00+00:00" "4.0.0" demo_repr options.

(** The payload [export] returns on the demo host with the default options. *)
Definition payload : json :=
  JObj
    [ ("schema_version", JStr "1.0");
      ("metadata",
        JObj [ ("name", JStr "demo"); ("description", JStr ""); ("author", JStr "");
               ("version", JStr "1.0.0");
               ("created_at", JStr "2026-01-01T00:00:00+00:00");
               ("astrbot_version", JStr "4.0.0"); ("plugin_count", JInt 3) ]);
      ("plugins",
        JArr [ JObj [ ("name", JStr "A"); ("repo", JStr "https://example.org/A");
                      ("version", JStr "1.2.0") ];
               JObj [ ("name", JStr "B"); ("repo", JStr "https://example.org/B");
                      ("version", JStr "1.2.0") ];
               JObj [ ("name", JStr "C"); ("repo", JStr "https://example.org/C");
                      ("version", JStr "1.2.0") ] ]);
      ("plugin_configs", JObj [("A", JObj [("mode", JStr "quiet")])]);
      ("handler_priority_overrides", JObj [("on_message", JInt 5)]) ].

(** A payload that lacks [metadata.author] and holds the unknown key
    ["license"]. *)
Definition broken_payload : dict :=
  [ ("schema_version", JStr "1.0");
    ("metadata",
      JObj [ ("name", JStr "demo"); ("description", JStr "");
             ("version", JStr "1.0.0");
             ("created_at", JStr "2026-01-01T00:00:00+00:00");
             ("astrbot_version", JStr "4.0.0"); ("plugin_count", JInt 0) ]);
    ("plugins", JArr []);
    ("license", JStr "MIT") ].

Definition broken_metadata : dict :=
  [ ("name", JStr "demo"); ("description", JStr ""); ("version", JStr "1.0.0");
    ("created_at", JStr "2026-01-01T00:00:00+00:00");
    ("astrbot_version", JStr "4.0.0"); ("plugin_count", JInt 0) ].


(** A store kept in memory: a [dict] by key. *)
Module MemoryStore.
Definition t : Type := dict.
Definition global_get (sp : t) (key : string) (default : json) : result json :=
  Return (get_or key default sp).
Definition global_put (sp : t) (key : string) (value : json) : result t :=
  Return (dict_set key value sp).
End MemoryStore.

(** The export options that leave B out. *)
Definition without_B : Exporter.ExportOptions :=
  {| Exporter.name := "demo"; Exporter.description := ""; Exporter.author := "";
     Exporter.version := "1.0.0"; Exporter.include_configs := true;
     Exporter.include_priority := true; Exporter.exclude_plugins := Some ["B"] |}.

(** The export options with both optional sections switched off. *)
Definition plugins_only : Exporter.ExportOptions :=
  {| Exporter.name := "demo"; Exporter.description := ""; Exporter.author := "";
     Exporter.version := "1.0.0"; Exporter.include_configs := false;
     Exporter.include_priority := false; Exporter.exclude_plugins := None |}.

(** The document with a second plugin, D, that is not installed. *)
Definition wider_document : PluginCollection.t :=
  {| PluginCollection.schema_version := PluginCollection.schema_version document;
     PluginCollection.metadata := PluginCollection.metadata document;
     PluginCollection.plugins :=
       PluginCollection.plugins document ++
       [ {| CollectionPlugin.name := "D"; CollectionPlugin.repo := "https://example.org/D";
            CollectionPlugin.version := "0.1.0"; CollectionPlugin.display_name := None |} ];
     PluginCollection.plugin_configs := PluginCollection.plugin_configs document;
     PluginCollection.handler_priority_overrides :=
       PluginCollection.handler_priority_overrides document |}.

(** The import options with the config and the priority phase switched off. *)
Definition installs_only : ImportOptions :=
  {| import_mode := "add"; apply_configs := false; overwrite_existing_configs := false;
     apply_priority := false; proxy := "" |}.

(** The import options that overwrite the configuration of installed
    plugins. *)
Definition overwriting : ImportOptions :=
  {| import_mode := "add"; apply_configs := true; overwrite_existing_configs := true;
     apply_priority := true; proxy := "" |}.

(** A conflict detection that reports the names it was asked about. *)
Definition reporting_conflicts : option (World -> list string -> result json) :=
  Some (fun _ names => Return (JObj [("checked", JArr (map JStr names))])).

(** A request body: the payload wrapped under ["collection"], with a mode
    the importer does not know. *)
Definition replace_request : json :=
  JObj [("collection", payload); ("import_mode", JStr "replace")].

End DemoHost.

(* ================================================================== *)
(** * Part II: properties                                              *)
(* ================================================================== *)

Module PyFacts.
Import Py.

Lemma dict_get_app_none {V : Type} (k : string) (a b : list (string * V)) :
  dict_get k a = None -> dict_get k (a ++ b) = dict_get k b.
Proof.
  induction a as [|[k' v'] a IH]; simpl; [reflexivity|].
  destruct (String.eqb k k'); [discriminate | exact IH].
Qed.

Lemma dict_get_none_iff {V : Type} (k : string) (d : list (string * V)) :
  dict_get k d = None <-> ~ In k (dict_keys d).
Proof.
  induction d as [|[k' v'] d IH]; simpl.
  - tauto.
  - destruct (String.eqb_spec k k') as [->|Hne].
    + split; [discriminate | intros H; exfalso; apply H; now left].
    + rewrite IH. split.
      * intros H [E|I]; [congruence | tauto].
      * intros H I. apply H. now right.
Qed.

Lemma dict_get_in {V : Type} (k : string) (v : V) (d : list (string * V)) :
  is_dict d -> In (k, v) d -> dict_get k d = Some v.
Proof.
  unfold is_dict, dict_keys.
  induction d as [|[k' v'] d IH]; simpl; intros Hnd Hin; [contradiction|].
  inversion Hnd as [|? ? Hnotin Hnd']; subst.
  destruct Hin as [E|Hin].
  - inversion E; subst. now rewrite String.eqb_refl.
  - destruct (String.eqb_spec k k') as [->|Hne].
    + exfalso. apply Hnotin. apply (in_map fst) in Hin. exact Hin.
    + now apply IH.
Qed.

Lemma dict_get_some_in {V : Type} (k : string) (v : V) (d : list (string * V)) :
  dict_get k d = Some v -> In (k, v) d.
Proof.
  induction d as [|[k' v'] d IH]; simpl; [discriminate|].
  destruct (String.eqb_spec k k') as [->|Hne].
  - intros [= ->]. now left.
  - intros H. right. now apply IH.
Qed.

Lemma dict_set_fresh {V : Type} (k : string) (v : V) (d : list (string * V)) :
  ~ In k (dict_keys d) -> dict_set k v d = d ++ [(k, v)].
Proof.
  induction d as [|[k' v'] d IH]; simpl; intros Hnotin; [reflexivity|].
  destruct (String.eqb_spec k k') as [->|Hne].
  - exfalso. apply Hnotin. now left.
  - rewrite IH; [reflexivity | tauto].
Qed.

(** ** Sorting *)

Section Sorting.
Context {A : Type}.
Variable lt : A -> A -> bool.

Lemma insert_by_perm (x : A) (l : list A) :
  Permutation (insert_by lt x l) (x :: l).
Proof.
  induction l as [|y l IH]; cbn [insert_by]; [reflexivity|].
  destruct (lt x y); [reflexivity|].
  rewrite IH. apply perm_swap.
Qed.

Lemma fold_insert_perm (l acc : list A) :
  Permutation (fold_left (fun acc x => insert_by lt x acc) l acc) (l ++ acc).
Proof.
  revert acc. induction l as [|x l IH]; intros acc; cbn [fold_left app]; [reflexivity|].
  rewrite IH, insert_by_perm. symmetry. apply Permutation_middle.
Qed.

Lemma sorted_by_perm (l : list A) : Permutation (sorted_by lt l) l.
Proof.
  unfold sorted_by. rewrite fold_insert_perm. now rewrite app_nil_r.
Qed.

Lemma sorted_by_length (l : list A) : List.length (sorted_by lt l) = List.length l.
Proof. apply Permutation_length, sorted_by_perm. Qed.

Lemma sorted_by_nil_iff (l : list A) : sorted_by lt l = [] <-> l = [].
Proof.
  split; [|now intros ->].
  intros H. pose proof (sorted_by_length l) as Hl. rewrite H in Hl.
  destruct l; [reflexivity | discriminate].
Qed.

(** The order facts the sort needs, on the values that satisfy [P]. *)
Variable P : A -> Prop.
Hypothesis lt_asym : forall a b, P a -> P b -> lt a b = true -> lt b a = false.
Hypothesis le_trans :
  forall a b c, P a -> P b -> P c -> le_of lt a b -> le_of lt b c -> le_of lt a c.

Lemma insert_by_sorted (x : A) (l : list A) :
  P x -> Forall P l ->
  StronglySorted (le_of lt) l -> StronglySorted (le_of lt) (insert_by lt x l).
Proof.
  intros Px. induction l as [|y l IH]; intros HP Hs; cbn [insert_by].
  - constructor; constructor.
  - inversion HP as [|? ? Py HPl]; subst.
    inversion Hs as [|? ? Hs' Hall]; subst.
    destruct (lt x y) eqn:Exy.
    + constructor; [assumption|].
      assert (Hxy : le_of lt x y) by (now apply lt_asym).
      constructor; [exact Hxy|].
      rewrite Forall_forall in Hall, HPl. apply Forall_forall.
      intros z Hz. apply (le_trans x y z); auto.
    + constructor; [now apply IH|].
      eapply Permutation_Forall; [symmetry; apply insert_by_perm|].
      constructor; assumption.
Qed.

Lemma fold_insert_sorted (l acc : list A) :
  Forall P l -> Forall P acc -> StronglySorted (le_of lt) acc ->
  StronglySorted (le_of lt) (fold_left (fun acc x => insert_by lt x acc) l acc).
Proof.
  revert acc. induction l as [|x l IH]; intros acc HPl HPacc Hs; cbn [fold_left];
    [assumption|].
  inversion HPl; subst. apply IH; [assumption| |now apply insert_by_sorted].
  eapply Permutation_Forall; [symmetry; apply insert_by_perm|].
  now constructor.
Qed.

Lemma sorted_by_sorted (l : list A) :
  Forall P l -> StronglySorted (le_of lt) (sorted_by lt l).
Proof.
  intros HP. apply fold_insert_sorted; [assumption | constructor | constructor].
Qed.

End Sorting.



(** ** Sorting by an integer key: ascending and stable *)

Section KeySort.
Context {A : Type}.
Variable key : A -> Z.

Lemma key_sorted_le (l : list A) :
  StronglySorted (le_of (key_ltb key)) l <->
  StronglySorted (fun a b => key a <= key b) l.
Proof.
  split; intros Hs; induction Hs as [|a l' Hs IH Hall]; constructor; try exact IH;
    (eapply Forall_impl; [|exact Hall]); intros b; unfold le_of, key_ltb;
    rewrite Z.ltb_ge; trivial.
Qed.

Lemma sort_by_key_perm (l : list A) : Permutation (sort_by_key key l) l.
Proof. apply sorted_by_perm. Qed.

Lemma sort_by_key_sorted (l : list A) :
  StronglySorted (fun a b => key a <= key b) (sort_by_key key l).
Proof.
  apply key_sorted_le. apply (sorted_by_sorted (key_ltb key) (fun _ => True)).
  - intros a b _ _. unfold key_ltb. rewrite Z.ltb_lt, Z.ltb_ge. lia.
  - intros a b c _ _ _. unfold le_of, key_ltb. rewrite !Z.ltb_ge. lia.
  - apply Forall_forall. auto.
Qed.

Lemma filter_none (f : A -> bool) (l : list A) :
  Forall (fun x => f x = false) l -> filter f l = [].
Proof.
  induction 1 as [|x l Hx _ IH]; cbn [filter]; [reflexivity|]. now rewrite Hx.
Qed.

Lemma insert_by_key_filter (k : Z) (x : A) (l : list A) :
  StronglySorted (fun a b => key a <= key b) l ->
  filter (fun y => key y =? k) (insert_by (key_ltb key) x l) =
  filter (fun y => key y =? k) l ++ (if key x =? k then [x] else []).
Proof.
  induction l as [|y l IH]; intros Hs; cbn [insert_by filter app]; [reflexivity|].
  inversion Hs as [|? ? Hs' Hall]; subst.
  unfold key_ltb at 1. destruct (Z.ltb_spec (key x) (key y)) as [Hlt|Hge].
  - cbn [filter]. destruct (Z.eqb_spec (key x) k) as [Hk|Hk]; [|now rewrite app_nil_r].
    assert (Hnone : filter (fun z => key z =? k) (y :: l) = []).
    { apply filter_none. constructor; [apply Z.eqb_neq; lia|].
      eapply Forall_impl; [|exact Hall]. intros z Hz. cbv beta in Hz.
      apply Z.eqb_neq. lia. }
    cbn [filter] in Hnone. now rewrite Hnone.
  - cbn [filter]. rewrite (IH Hs'). now destruct (key y =? k).
Qed.

(** Stability: the elements of one key keep the order they had. *)
Lemma sort_by_key_stable (k : Z) (l : list A) :
  filter (fun y => key y =? k) (sort_by_key key l) = filter (fun y => key y =? k) l.
Proof.
  unfold sort_by_key, sorted_by.
  assert (H : forall acc,
    StronglySorted (fun a b => key a <= key b) acc ->
    filter (fun y => key y =? k)
           (fold_left (fun acc x => insert_by (key_ltb key) x acc) l acc) =
    filter (fun y => key y =? k) acc ++ filter (fun y => key y =? k) l).
  { induction l as [|x l IH]; intros acc Hacc; cbn [fold_left filter].
    - now rewrite app_nil_r.
    - rewrite IH.
      + rewrite insert_by_key_filter by assumption. rewrite <- app_assoc.
        now destruct (key x =? k).
      + apply key_sorted_le. apply (insert_by_sorted (key_ltb key) (fun _ => True)).
        * intros a b _ _. unfold key_ltb. rewrite Z.ltb_lt, Z.ltb_ge. lia.
        * intros a b c _ _ _. unfold le_of, key_ltb. rewrite !Z.ltb_ge. lia.
        * exact I.
        * apply Forall_forall. auto.
        * now apply key_sorted_le. }
  apply (H []). constructor.
Qed.

End KeySort.

(** ** The pattern matcher

    [fullmatch] and [rmatch] walk the subject with Brzozowski derivatives;
    they decide membership in [lang], the usual meaning of a pattern. *)

Section Regex.

Local Open Scope string_scope.

Lemma append_nil_inv (s1 s2 : string) : s1 ++ s2 = "" -> s1 = "" /\ s2 = "".
Proof. destruct s1; cbn; [auto | discriminate]. Qed.

Lemma append_cons_inv (s1 s2 s : string) (c : ascii) :
  s1 ++ s2 = String c s ->
  (s1 = "" /\ s2 = String c s) \/ (exists s1', s1 = String c s1' /\ s = s1' ++ s2).
Proof.
  destruct s1 as [|c' s1]; cbn.
  - intros ->. now left.
  - intros [= -> <-]. right. now exists s1.
Qed.

Lemma lang_fail (s : string) : ~ lang Fail s.
Proof. intros H. inversion H. Qed.

Lemma lang_seq (r1 r2 : regex) (s : string) :
  lang (seq r1 r2) s <-> lang (Seq r1 r2) s.
Proof.
  split.
  - destruct r1, r2; cbn [seq]; intros H; try (exfalso; now apply (lang_fail s));
      try exact H; try (exact (LSeq Eps _ "" s LEps H)).
  - intros H. inversion H as [| |? ? s1 s2 H1 H2| | | |]; subst.
    destruct r1, r2; cbn [seq]; try (exfalso; now eapply lang_fail; eauto);
      try (now constructor);
      try (inversion H1; subst; exact H2).
Qed.

Lemma lang_alt (r1 r2 : regex) (s : string) :
  lang (alt r1 r2) s <-> lang (Alt r1 r2) s.
Proof.
  split.
  - destruct r1, r2; cbn [alt]; intros H; try exact H;
      try (now apply LAltL); try (now apply LAltR).
  - intros H. inversion H; subst;
      destruct r1, r2; cbn [alt]; try (exfalso; now eapply lang_fail; eauto);
      try assumption; try (now apply LAltL); try (now apply LAltR).
Qed.

Lemma nullable_spec (r : regex) : nullable r = true <-> lang r "".
Proof.
  induction r as [| |p|r1 IH1 r2 IH2|r1 IH1 r2 IH2|r IH]; cbn [nullable].
  - split; [discriminate | intros H; inversion H].
  - split; [constructor | reflexivity].
  - split; [discriminate | intros H; inversion H].
  - rewrite andb_true_iff, IH1, IH2. split.
    + intros [H1 H2]. exact (LSeq r1 r2 "" "" H1 H2).
    + intros H. inversion H as [| |? ? s1 s2 H1 H2 [E1 E2] E| | | |]; subst.
      apply append_nil_inv in E. destruct E; subst. now split.
  - rewrite orb_true_iff, IH1, IH2. split.
    + intros [H|H]; [now apply LAltL | now apply LAltR].
    + intros H. inversion H; subst; auto.
  - split; [constructor | reflexivity].
Qed.

Lemma star_cons_inv (r : regex) (c : ascii) (s : string) :
  lang (Star r) (String c s) ->
  exists s1 s2, s = s1 ++ s2 /\ lang r (String c s1) /\ lang (Star r) s2.
Proof.
  intros H. remember (Star r) as r' eqn:Er. remember (String c s) as cs eqn:Es.
  revert Er Es. induction H as [| | | | | |r0 s1 s2 H1 _ H2 IH2]; try discriminate.
  intros [= ->] Es. apply append_cons_inv in Es.
  destruct Es as [[-> ->] | [s1' [-> ->]]].
  - now apply IH2.
  - now exists s1', s2.
Qed.

Lemma deriv_spec (c : ascii) (r : regex) (s : string) :
  lang (deriv c r) s <-> lang r (String c s).
Proof.
  revert s. induction r as [| |p|r1 IH1 r2 IH2|r1 IH1 r2 IH2|r IH]; intros s;
    cbn [deriv].
  - split; intros H; inversion H.
  - split; intros H; inversion H.
  - destruct (p c) eqn:Ep; split; intros H.
    + inversion H; subst. now constructor.
    + inversion H; subst. constructor.
    + inversion H.
    + inversion H; subst. congruence.
  - assert (Hseq : lang (seq (deriv c r1) r2) s <->
                   exists s1 s2, s = s1 ++ s2 /\ lang r1 (String c s1) /\ lang r2 s2).
    { rewrite lang_seq. split.
      - intros H. inversion H as [| |? ? s1 s2 H1 H2| | | |]; subst.
        exists s1, s2. split; [reflexivity|]. split; [now apply IH1 | assumption].
      - intros (s1 & s2 & -> & H1 & H2). constructor; [now apply IH1 | assumption]. }
    destruct (nullable r1) eqn:En.
    + rewrite lang_alt. split.
      * intros H. inversion H; subst.
        -- apply Hseq in H3. destruct H3 as (s1 & s2 & -> & H1 & H2).
           exact (LSeq r1 r2 (String c s1) s2 H1 H2).
        -- apply IH2 in H3. apply nullable_spec in En.
           exact (LSeq r1 r2 "" (String c s) En H3).
      * intros H. inversion H as [| |? ? s1 s2 H1 H2 [E1 E2] E| | | |]; subst.
        apply append_cons_inv in E. destruct E as [[-> ->] | [s1' [-> ->]]].
        -- apply LAltR. now apply IH2.
        -- apply LAltL. apply Hseq. now exists s1', s2.
    + rewrite Hseq. split.
      * intros (s1 & s2 & -> & H1 & H2). exact (LSeq r1 r2 (String c s1) s2 H1 H2).
      * intros H. inversion H as [| |? ? s1 s2 H1 H2 [E1 E2] E| | | |]; subst.
        apply append_cons_inv in E. destruct E as [[-> ->] | [s1' [-> ->]]].
        -- apply nullable_spec in H1. congruence.
        -- now exists s1', s2.
  - rewrite lang_alt. split; intros H; inversion H; subst.
    + apply LAltL. now apply IH1.
    + apply LAltR. now apply IH2.
    + apply LAltL. now apply IH1.
    + apply LAltR. now apply IH2.
  - rewrite lang_seq. split.
    + intros H. inversion H as [| |? ? s1 s2 H1 H2| | | |]; subst.
      apply IH in H1. exact (LStarCons r (String c s1) s2 H1 H2).
    + intros H. apply star_cons_inv in H. destruct H as (s1 & s2 & -> & H1 & H2).
      constructor; [now apply IH | assumption].
Qed.

Lemma fullmatch_spec (r : regex) (s : string) : fullmatch r s = true <-> lang r s.
Proof.
  revert r. induction s as [|c s IH]; intros r; cbn [fullmatch].
  - apply nullable_spec.
  - rewrite IH. apply deriv_spec.
Qed.

Lemma rmatch_spec (r : regex) (s : string) :
  rmatch r s = true <-> exists s1 s2, s = s1 ++ s2 /\ lang r s1.
Proof.
  revert r. induction s as [|c s IH]; intros r; cbn [rmatch].
  - destruct (nullable r) eqn:En.
    + split; [intros _ | reflexivity]. exists "", "". split; [reflexivity|].
      now apply nullable_spec.
    + split; [discriminate|]. intros (s1 & s2 & E & H).
      symmetry in E. apply append_nil_inv in E. destruct E; subst.
      apply nullable_spec in H. congruence.
  - destruct (nullable r) eqn:En.
    + split; [intros _ | reflexivity]. exists "", (String c s). split; [reflexivity|].
      now apply nullable_spec.
    + rewrite IH. split.
      * intros (s1 & s2 & -> & H). exists (String c s1), s2. split; [reflexivity|].
        now apply deriv_spec.
      * intros (s1 & s2 & E & H). symmetry in E. apply append_cons_inv in E.
        destruct E as [[-> ->] | [s1' [-> ->]]].
        -- apply nullable_spec in H. congruence.
        -- exists s1', s2. split; [reflexivity|]. now apply deriv_spec.
Qed.

End Regex.

End PyFacts.

Module SensitiveFilterFacts.
Import Py PyFacts SensitiveFilter.

Lemma filter_data_unfold (depth max_depth : Z) (data : json) :
  filter_data depth max_depth data =
  if depth >? max_depth then data
  else match data with
       | JObj kvs =>
           JObj (fold_left (filter_item (filter_data (depth + 1) max_depth)) kvs [])
       | JArr xs => JArr (map (filter_data (depth + 1) max_depth) xs)
       | _ => if is_sensitive_value data then JNull else data
       end.
Proof. destruct data; reflexivity. Qed.

Lemma filter_data_beyond (depth max_depth : Z) (data : json) :
  max_depth < depth -> filter_data depth max_depth data = data.
Proof.
  intros H. rewrite filter_data_unfold.
  destruct (Z.gtb_spec depth max_depth); [reflexivity | lia].
Qed.

Lemma filter_data_within (depth max_depth : Z) (data : json) :
  depth <= max_depth ->
  filter_data depth max_depth data =
  match data with
  | JObj kvs =>
      JObj (fold_left (filter_item (filter_data (depth + 1) max_depth)) kvs [])
  | JArr xs => JArr (map (filter_data (depth + 1) max_depth) xs)
  | _ => if is_sensitive_value data then JNull else data
  end.
Proof.
  intros H. rewrite filter_data_unfold.
  destruct (Z.gtb_spec depth max_depth); [lia | reflexivity].
Qed.

(** On a [dict] the loop is a filter followed by a map over the values: no
    key is stored twice, so every [filtered[key] = ...] appends. *)
Lemma fold_filter_item (recur : json -> json) (kvs acc : dict) :
  is_dict kvs ->
  (forall k, In k (dict_keys kvs) -> ~ In k (dict_keys acc)) ->
  fold_left (filter_item recur) kvs acc =
  acc ++ map (fun kv => (fst kv, recur (snd kv))) (filter kept kvs).
Proof.
  unfold is_dict, dict_keys.
  revert acc. induction kvs as [|[k v] kvs IH]; simpl; intros acc Hnd Hfresh.
  - now rewrite app_nil_r.
  - inversion Hnd as [|? ? Hnotin Hnd']; subst.
    unfold kept at 1. simpl.
    destruct (is_sensitive_key k) eqn:Ek; simpl.
    + apply IH; [assumption | intros k' Hk'; apply Hfresh; now right].
    + destruct (is_sensitive_value v) eqn:Ev; simpl.
      * apply IH; [assumption | intros k' Hk'; apply Hfresh; now right].
      * rewrite dict_set_fresh by (apply Hfresh; now left).
        rewrite IH; [now rewrite <- app_assoc | assumption |].
        intros k' Hk'. unfold dict_keys. rewrite map_app, in_app_iff. simpl.
        intros [Hin | [E | []]].
        -- apply (Hfresh k'); [now right | exact Hin].
        -- subst k'. contradiction.
Qed.

Lemma filter_keys_incl (recur : json -> json) (kvs : dict) (k : string) :
  In k (dict_keys (map (fun kv => (fst kv, recur (snd kv))) (filter kept kvs))) ->
  In k (dict_keys kvs).
Proof.
  unfold dict_keys. rewrite map_map. simpl. rewrite in_map_iff.
  intros [[k' v'] [E Hin]]. simpl in E. subst k'.
  apply filter_In in Hin. destruct Hin as [Hin _].
  apply (in_map fst) in Hin. exact Hin.
Qed.

Lemma filter_is_dict (recur : json -> json) (kvs : dict) :
  is_dict kvs ->
  is_dict (map (fun kv => (fst kv, recur (snd kv))) (filter kept kvs)).
Proof.
  unfold is_dict, dict_keys. rewrite map_map. simpl.
  induction kvs as [|[k v] kvs IH]; simpl; intros Hnd; [constructor|].
  inversion Hnd as [|? ? Hnotin Hnd']; subst.
  destruct (kept (k, v)); simpl; [|now apply IH].
  constructor; [|now apply IH].
  rewrite in_map_iff. intros [[k' v'] [E Hin]]. simpl in E. subst k'.
  apply filter_In in Hin. destruct Hin as [Hin _].
  apply Hnotin. apply (in_map fst) in Hin. exact Hin.
Qed.

(** The mapping case of [filter_data], for any call within the depth bound. *)
Lemma filter_data_dict (depth max_depth : Z) (kvs : dict) :
  depth <= max_depth -> is_dict kvs ->
  filter_data depth max_depth (JObj kvs) =
  JObj (map (fun kv => (fst kv, filter_data (depth + 1) max_depth (snd kv)))
            (filter kept kvs)).
Proof.
  intros Hd Hnd. rewrite filter_data_within by assumption.
  rewrite fold_filter_item; [reflexivity | assumption | intros k _ []].
Qed.

End SensitiveFilterFacts.

Module SensitiveFilterClaims.
Import Py PyFacts SensitiveFilter SensitiveFilterFacts.

Ltac solve_is_dict :=
  unfold is_dict, dict_keys; simpl;
  repeat (constructor; [simpl; intuition discriminate|]); constructor.

(** C2. For every mapping given to the filter, an entry whose key is
    sensitive or whose value is a sensitive string has no key in the result
    (it is omitted, nothing stands in for it); every other entry is kept,
    with its value filtered one level deeper; the result has no key of its
    own.  The same holds for a mapping met at any depth up to [max_depth].
    ["api_key"] is a sensitive key; ["sk-abc123"] is a sensitive value and
    ["note"] is not a sensitive key. *)
Theorem filter_data_drops_sensitive_entries (kvs : dict) :
  is_dict kvs ->
  (exists out : dict,
     filter_data_default (JObj kvs) = JObj out /\
     is_dict out /\
     (forall k v, In (k, v) kvs ->
        is_sensitive_key k = true \/ is_sensitive_value v = true ->
        dict_mem k out = false) /\
     (forall k v, In (k, v) kvs ->
        is_sensitive_key k = false -> is_sensitive_value v = false ->
        dict_get k out = Some (filter_data 1 20 v)) /\
     (forall k, dict_mem k out = true -> dict_mem k kvs = true)) /\
  (forall depth max_depth, depth <= max_depth ->
     filter_data depth max_depth (JObj kvs) =
     JObj (map (fun kv => (fst kv, filter_data (depth + 1) max_depth (snd kv)))
               (filter kept kvs))) /\
  is_sensitive_key "api_key" = true /\
  is_sensitive_key "note" = false /\
  is_sensitive_value (JStr "sk-abc123") = true.
Proof.
  intros Hd.
  split; [|split; [|now vm_compute]].
  2:{ intros depth max_depth Hdepth. now apply filter_data_dict. }
  set (recur := filter_data (0 + 1) 20).
  exists (map (fun kv => (fst kv, recur (snd kv))) (filter kept kvs)).
  split; [unfold filter_data_default; now apply filter_data_dict; [lia|]|].
  split; [now apply filter_is_dict|].
  split; [|split].
  - intros k v Hin Hsens. unfold dict_mem.
    destruct (dict_get k _) as [w|] eqn:Eg; [|reflexivity].
    apply dict_get_some_in in Eg. apply in_map_iff in Eg.
    destruct Eg as [[k' v'] [E Hin']]. simpl in E. inversion E; subst k'.
    apply filter_In in Hin'. destruct Hin' as [Hin' Hkept].
    assert (v' = v) as ->.
    { pose proof (dict_get_in k v kvs Hd Hin) as G1.
      pose proof (dict_get_in k v' kvs Hd Hin') as G2. congruence. }
    unfold kept in Hkept. cbn [fst snd] in Hkept.
    destruct Hsens as [Hs | Hs]; rewrite Hs in Hkept;
      [|rewrite orb_true_r in Hkept]; discriminate.
  - intros k v Hin Hk Hv.
    apply dict_get_in; [now apply filter_is_dict|].
    apply in_map_iff. exists (k, v). split; [reflexivity|].
    apply filter_In. split; [assumption|].
    unfold kept. cbn [fst snd]. now rewrite Hk, Hv.
  - intros k. unfold dict_mem.
    destruct (dict_get k (map _ _)) as [w|] eqn:Eg; [intros _|discriminate].
    destruct (dict_get k kvs) eqn:Eg'; [reflexivity|].
    apply dict_get_none_iff in Eg'. exfalso. apply Eg'.
    apply (filter_keys_incl recur).
    apply dict_get_some_in in Eg. apply (in_map fst) in Eg. exact Eg.
Qed.

Lemma filter_data_drops_sensitive_entries_witness :
  is_dict [("api_key", JStr "x"); ("note", JStr "sk-abc123"); ("name", JStr "demo")] /\
  exists out : dict,
    filter_data_default
      (JObj [("api_key", JStr "x"); ("note", JStr "sk-abc123"); ("name", JStr "demo")])
    = JObj out /\
    dict_mem "api_key" out = false /\
    dict_mem "note" out = false /\
    dict_get "name" out = Some (JStr "demo").
Proof.
  assert (Hd : is_dict [("api_key", JStr "x"); ("note", JStr "sk-abc123");
                        ("name", JStr "demo")]) by solve_is_dict.
  split; [exact Hd|].
  destruct (proj1 (filter_data_drops_sensitive_entries _ Hd))
    as (out & Hout & _ & Hdrop & Hkeep & _).
  exists out. split; [exact Hout|]. split; [|split].
  - apply (Hdrop "api_key" (JStr "x")); [cbn; auto | now left].
  - apply (Hdrop "note" (JStr "sk-abc123")); [cbn; auto | now right].
  - apply (Hkeep "name" (JStr "demo")); [cbn; auto | reflexivity | reflexivity].
Defined.

Example filter_data_drops_example :
  filter_data_default
    (JObj [("api_key", JStr "x"); ("note", JStr "sk-abc123"); ("name", JStr "demo");
           ("limits", JObj [("rate", JInt 3); ("user_id", JInt 7)])])
  = JObj [("name", JStr "demo"); ("limits", JObj [("rate", JInt 3)])].
Proof. vm_compute. reflexivity. Qed.

Lemma filter_data_nest (n k : nat) (depth max_depth : Z) (inner : json) :
  depth + Z.of_nat n = max_depth + 1 ->
  filter_data depth max_depth (nest (n + S k) inner) =
  nest_filtered n (nest (S k) inner).
Proof.
  revert depth. induction n as [|n IH]; intros depth Hd.
  - apply filter_data_beyond. lia.
  - change (nest (S n + S k) inner)
      with (JObj [("token", JStr "t"); ("child", nest (n + S k) inner)]).
    rewrite filter_data_within by lia.
    cbn [fold_left filter_item].
    change (is_sensitive_key "token") with true. cbv iota.
    change (is_sensitive_key "child") with false. cbv iota.
    replace (is_sensitive_value (nest (n + S k) inner)) with false
      by (rewrite Nat.add_succ_r; reflexivity).
    rewrite IH by lia. reflexivity.
Qed.

(** C8. Once the depth exceeds [max_depth] the filter returns its input as
    it is, whatever the input holds; the function is total, so nothing is
    raised and nothing is cut.  A mapping nested 25 levels deep, filtered
    with the defaults, loses the secrets of its levels 0 to 20 and keeps the
    subtree below them, secrets included. *)
Theorem filter_data_depth_bounded :
  (forall (depth max_depth : Z) (data : json),
      max_depth < depth -> filter_data depth max_depth data = data) /\
  (forall inner : json,
      filter_data_default (nest 25 inner) = nest_filtered 21 (nest 4 inner)).
Proof.
  split.
  - intros depth max_depth data H. now apply filter_data_beyond.
  - intros inner. apply (filter_data_nest 21 3 0 20 inner). reflexivity.
Qed.

Lemma filter_data_depth_bounded_witness :
  20 < 21 /\
  filter_data 21 20 (JObj [("api_key", JStr "sk-abc123"); ("hook", JArr [JStr "http://x"])])
  = JObj [("api_key", JStr "sk-abc123"); ("hook", JArr [JStr "http://x"])].
Proof.
  split; [lia|].
  apply (proj1 filter_data_depth_bounded). lia.
Defined.

Lemma filter_data_wrap (n : nat) (depth max_depth : Z) (x : json) :
  depth + Z.of_nat n <= max_depth + 1 ->
  filter_data depth max_depth (wrap n x) =
  wrap n (filter_data (depth + Z.of_nat n) max_depth x).
Proof.
  revert depth. induction n as [|n IH]; intros depth Hd.
  - cbn [wrap Z.of_nat]. now rewrite Z.add_0_r.
  - rewrite Nat2Z.inj_succ in *. cbn [wrap].
    rewrite (filter_data_within depth max_depth (JArr [wrap n x])) by lia. cbn [map].
    rewrite (IH (depth + 1)) by lia.
    now replace (depth + Z.succ (Z.of_nat n)) with (depth + 1 + Z.of_nat n) by lia.
Qed.

(** C10, amended. A list goes through the filter element by element: the
    result is a list of the same length whose [i]-th element is the filtered
    [i]-th element, so nothing is dropped or moved, at any depth.  A list
    element that is a sensitive string is replaced by null when the element
    itself lies within the depth bound, that is when the list stands at a
    depth below [max_depth]; this holds at the top level and inside nested
    lists alike (up to 20 lists deep with the defaults).  An element that is
    neither sensitive nor a container is kept. *)
Theorem filter_data_list_preserves_shape (depth max_depth : Z) (xs : list json) :
  (exists ys : list json,
     filter_data depth max_depth (JArr xs) = JArr ys /\
     List.length ys = List.length xs /\
     (forall i x, nth_error xs i = Some x ->
        nth_error ys i =
        Some (if depth >? max_depth then x else filter_data (depth + 1) max_depth x)) /\
     (forall i s, depth < max_depth ->
        nth_error xs i = Some (JStr s) -> is_sensitive_value (JStr s) = true ->
        nth_error ys i = Some JNull) /\
     (forall i x, depth < max_depth ->
        nth_error xs i = Some x -> is_sensitive_value x = false ->
        (forall zs, x <> JArr zs) -> (forall kvs, x <> JObj kvs) ->
        nth_error ys i = Some x)) /\
  (forall (n : nat) (s : string),
     (n <= 20)%nat -> is_sensitive_value (JStr s) = true ->
     filter_data_default (wrap n (JStr s)) = wrap n JNull).
Proof.
  split.
  - rewrite filter_data_unfold.
    destruct (Z.gtb_spec depth max_depth) as [Hgt|Hle].
    + exists xs. repeat split; try lia. intros i x Hx. exact Hx.
    + exists (map (filter_data (depth + 1) max_depth) xs).
      split; [reflexivity|]. split; [apply length_map|].
      split; [|split].
      * intros i x Hx. now rewrite nth_error_map, Hx.
      * intros i s Hlt Hx Hs. rewrite nth_error_map, Hx. cbn [option_map]. f_equal.
        rewrite filter_data_within by lia. now rewrite Hs.
      * intros i x Hlt Hx Hs Harr Hobj. rewrite nth_error_map, Hx. cbn [option_map].
        f_equal. rewrite filter_data_within by lia.
        destruct x; try (now rewrite Hs); [now elim (Harr xs0) | now elim (Hobj kvs)].
  - intros n s Hn Hs. unfold filter_data_default.
    rewrite filter_data_wrap by lia.
    rewrite (filter_data_within (0 + Z.of_nat n) 20 (JStr s)) by lia. now rewrite Hs.
Qed.

Lemma filter_data_list_preserves_shape_witness :
  (20 <= 20)%nat /\ is_sensitive_value (JStr "http://x") = true /\
  filter_data_default (wrap 20 (JStr "http://x")) = wrap 20 JNull.
Proof.
  split; [lia|]. split; [reflexivity|].
  apply (proj2 (filter_data_list_preserves_shape 0 20 [])); [lia | reflexivity].
Defined.

(** C10, as stated, fails at the bound: a list at depth [max_depth] is
    within the bound, yet its elements are one level deeper and come back as
    they are; with the defaults this is the innermost of 21 nested lists. *)
Lemma list_at_bound_keeps_sensitive_element :
  is_sensitive_value (JStr "http://x") = true /\
  filter_data 20 20 (JArr [JStr "http://x"]) = JArr [JStr "http://x"] /\
  filter_data_default (wrap 21 (JStr "http://x")) = wrap 21 (JStr "http://x").
Proof. vm_compute. repeat split. Qed.

Example filter_data_list_example :
  filter_data_default (JArr [JStr "http://x"; JInt 1; JArr [JStr "ok"; JStr "sk-abc123"]])
  = JArr [JNull; JInt 1; JArr [JStr "ok"; JNull]].
Proof. vm_compute. reflexivity. Qed.

End SensitiveFilterClaims.

Module ModelsFacts.
Import Py PyFacts Models.

(** ** The order of strings and of paths *)

Lemma ascii_compare_refl (a : ascii) : Ascii.compare a a = Eq.
Proof. unfold Ascii.compare. apply N.compare_refl. Qed.

Lemma ascii_compare_lt_trans (a b c : ascii) :
  Ascii.compare a b = Lt -> Ascii.compare b c = Lt -> Ascii.compare a c = Lt.
Proof.
  unfold Ascii.compare. rewrite !N.compare_lt_iff. lia.
Qed.

Lemma string_compare_refl (s : string) : String.compare s s = Eq.
Proof.
  induction s as [|a s IH]; cbn [String.compare]; [reflexivity|].
  now rewrite ascii_compare_refl.
Qed.

Lemma string_compare_lt_trans (a b c : string) :
  String.compare a b = Lt -> String.compare b c = Lt -> String.compare a c = Lt.
Proof.
  revert b c. induction a as [|x a IH]; intros [|y b] [|z c]; cbn [String.compare];
    try discriminate; try reflexivity.
  destruct (Ascii.compare x y) eqn:Exy; try discriminate;
    destruct (Ascii.compare y z) eqn:Eyz; try discriminate; intros H1 H2.
  - apply Ascii.compare_eq_iff in Exy, Eyz. subst.
    rewrite ascii_compare_refl. now apply (IH b c).
  - apply Ascii.compare_eq_iff in Exy. subst. now rewrite Eyz.
  - apply Ascii.compare_eq_iff in Eyz. subst. now rewrite Exy.
  - now rewrite (ascii_compare_lt_trans x y z).
Qed.

Lemma string_ltb_irrefl (s : string) : String.ltb s s = false.
Proof. unfold String.ltb. now rewrite string_compare_refl. Qed.

Lemma string_ltb_asym (a b : string) : String.ltb a b = true -> String.ltb b a = false.
Proof.
  unfold String.ltb. rewrite (String.compare_antisym b a).
  destruct (String.compare a b); cbn; congruence.
Qed.

Lemma string_ltb_trans (a b c : string) :
  String.ltb a b = true -> String.ltb b c = true -> String.ltb a c = true.
Proof.
  unfold String.ltb.
  destruct (String.compare a b) eqn:E1; try discriminate.
  destruct (String.compare b c) eqn:E2; try discriminate.
  now rewrite (string_compare_lt_trans a b c).
Qed.

Lemma string_ltb_total (a b : string) :
  String.ltb a b = false -> String.ltb b a = false -> a = b.
Proof.
  unfold String.ltb. rewrite (String.compare_antisym b a).
  destruct (String.compare a b) eqn:E; cbn; try discriminate.
  intros _ _. now apply String.compare_eq_iff.
Qed.

Lemma elem_eqb_eq (a b : path_elem) : elem_eqb a b = true <-> a = b.
Proof.
  destruct a as [x|i], b as [y|j]; cbn [elem_eqb]; split; try discriminate.
  - intros H. apply String.eqb_eq in H. now subst.
  - intros [= ->]. apply String.eqb_refl.
  - intros H. apply Nat.eqb_eq in H. now subst.
  - intros [= ->]. apply Nat.eqb_refl.
Qed.

Lemma elem_eqb_refl (a : path_elem) : elem_eqb a a = true.
Proof. now apply elem_eqb_eq. Qed.

Lemma elem_eqb_sym (a b : path_elem) : elem_eqb a b = elem_eqb b a.
Proof.
  destruct (elem_eqb a b) eqn:E1, (elem_eqb b a) eqn:E2; try reflexivity.
  - apply elem_eqb_eq in E1. subst. now rewrite elem_eqb_refl in E2.
  - apply elem_eqb_eq in E2. subst. now rewrite elem_eqb_refl in E1.
Qed.

Lemma elem_ltb_asym (a b : path_elem) : elem_ltb a b = true -> elem_ltb b a = false.
Proof.
  destruct a as [x|i], b as [y|j]; cbn [elem_ltb]; try discriminate.
  - apply string_ltb_asym.
  - rewrite Nat.ltb_lt, Nat.ltb_ge. lia.
Qed.

Lemma elem_ltb_trans (a b c : path_elem) :
  elem_ltb a b = true -> elem_ltb b c = true -> elem_ltb a c = true.
Proof.
  destruct a as [x|i], b as [y|j], c as [z|k]; cbn [elem_ltb]; try discriminate.
  - apply string_ltb_trans.
  - rewrite !Nat.ltb_lt. lia.
Qed.

Lemma elem_ltb_total (a b : path_elem) :
  same_kind a b = true -> elem_ltb a b = false -> elem_ltb b a = false -> a = b.
Proof.
  destruct a as [x|i], b as [y|j]; cbn [same_kind elem_ltb]; try discriminate.
  - intros _ H1 H2. f_equal. now apply string_ltb_total.
  - rewrite !Nat.ltb_ge. intros _ H1 H2. f_equal. lia.
Qed.

Lemma elem_ltb_neq (a b : path_elem) : elem_ltb a b = true -> elem_eqb a b = false.
Proof.
  intros H. destruct (elem_eqb a b) eqn:E; [|reflexivity].
  apply elem_eqb_eq in E. subst.
  pose proof (elem_ltb_asym b b H). congruence.
Qed.

Lemma path_ltb_asym (p q : list path_elem) :
  path_ltb p q = true -> path_ltb q p = false.
Proof.
  revert q. induction p as [|a p IH]; intros [|b q]; cbn [path_ltb]; try congruence.
  rewrite (elem_eqb_sym b a).
  destruct (elem_eqb a b); [apply IH | apply elem_ltb_asym].
Qed.

Lemma comparable_sym (p q : list path_elem) : comparable p q = comparable q p.
Proof.
  revert q. induction p as [|a p IH]; intros [|b q]; cbn [comparable]; try reflexivity.
  rewrite (elem_eqb_sym b a). destruct (elem_eqb a b); [apply IH|].
  now destruct a, b.
Qed.

(** Among pairwise comparable paths, "may stand before" is transitive. *)
Lemma path_le_trans (p q r : list path_elem) :
  comparable p q = true -> comparable q r = true -> comparable p r = true ->
  le_of path_ltb p q -> le_of path_ltb q r -> le_of path_ltb p r.
Proof.
  unfold le_of. revert q r.
  induction p as [|a p IH]; intros [|b q] [|c r]; cbn [path_ltb comparable];
    try congruence.
  rewrite (elem_eqb_sym b a), (elem_eqb_sym c b), (elem_eqb_sym c a).
  destruct (elem_eqb a b) eqn:Eab.
  - apply elem_eqb_eq in Eab. subst b.
    destruct (elem_eqb a c) eqn:Eac.
    + apply IH.
    + intros _ _ _ _ H. exact H.
  - destruct (elem_eqb b c) eqn:Ebc.
    + apply elem_eqb_eq in Ebc. subst c. rewrite Eab. intros _ _ _ H _. exact H.
    + intros Kab Kbc Kac Hba Hcb.
      assert (Hab : elem_ltb a b = true).
      { destruct (elem_ltb a b) eqn:E; [reflexivity|].
        pose proof (elem_ltb_total a b Kab E Hba) as ->.
        now rewrite elem_eqb_refl in Eab. }
      assert (Hbc : elem_ltb b c = true).
      { destruct (elem_ltb b c) eqn:E; [reflexivity|].
        pose proof (elem_ltb_total b c Kbc E Hcb) as ->.
        now rewrite elem_eqb_refl in Ebc. }
      pose proof (elem_ltb_trans a b c Hab Hbc) as Hac.
      rewrite (elem_ltb_neq a c Hac). now apply elem_ltb_asym.
Qed.

Lemma resolves_comparable (v : json) (p q : list path_elem) :
  resolves p v = true -> resolves q v = true -> comparable p q = true.
Proof.
  revert v q. induction p as [|a p IH]; intros v [|b q]; cbn [comparable];
    try reflexivity.
  destruct a as [x|i], b as [y|j]; cbn [resolves elem_eqb same_kind];
    destruct v; try discriminate.
  - destruct (String.eqb_spec x y) as [->|Hne]; [|reflexivity].
    destruct (dict_get y kvs); [apply IH | discriminate].
  - destruct (Nat.eqb_spec i j) as [->|Hne]; [|reflexivity].
    destruct (nth_error xs j); [apply IH | discriminate].
Qed.

Section RoundTrip.
Variable py_repr : json -> string.

Lemma plugin_from_dict_to_dict (p : CollectionPlugin.t) :
  CollectionPlugin.from_dict py_repr (JObj (CollectionPlugin.to_dict p)) = Return p.
Proof.
  destruct p as [n r v [d|]]; reflexivity.
Qed.

Lemma metadata_from_dict_to_dict (m : CollectionMetadata.t) :
  CollectionMetadata.from_dict py_repr (JObj (CollectionMetadata.to_dict m)) = Return m.
Proof.
  destruct m as [n d a v c av count].
  unfold CollectionMetadata.from_dict, CollectionMetadata.to_dict, get_or, py_or.
  cbn [dict_get String.eqb Ascii.eqb Bool.eqb CollectionMetadata.name
       CollectionMetadata.description CollectionMetadata.author
       CollectionMetadata.version CollectionMetadata.created_at
       CollectionMetadata.astrbot_version CollectionMetadata.plugin_count
       py_str truthy].
  destruct (Z.eqb_spec count 0) as [->|Hne]; reflexivity.
Qed.

Lemma plugins_from_dict_to_dict (ps : list CollectionPlugin.t) :
  map_result (CollectionPlugin.from_dict py_repr)
             (map (fun p => JObj (CollectionPlugin.to_dict p)) ps) = Return ps.
Proof.
  induction ps as [|p ps IH]; [reflexivity|].
  cbn [map map_result]. rewrite plugin_from_dict_to_dict. cbn [bind].
  rewrite IH. reflexivity.
Qed.

(** What [to_dict] stores under each of its five keys. *)
Lemma to_dict_lookup (doc : PluginCollection.t) :
  let data := PluginCollection.to_dict doc in
  dict_get "schema_version" data = Some (JStr (PluginCollection.schema_version doc)) /\
  dict_get "metadata" data =
    Some (JObj (CollectionMetadata.to_dict (PluginCollection.metadata doc))) /\
  dict_get "plugins" data =
    Some (JArr (map (fun p => JObj (CollectionPlugin.to_dict p))
                    (PluginCollection.plugins doc))) /\
  get "plugin_configs" data = PluginCollection.plugin_configs doc /\
  get "handler_priority_overrides" data = PluginCollection.handler_priority_overrides doc.
Proof.
  destruct doc as [sv meta ps pc hpo].
  unfold PluginCollection.to_dict, get, get_or. cbn [PluginCollection.schema_version
    PluginCollection.metadata PluginCollection.plugins PluginCollection.plugin_configs
    PluginCollection.handler_priority_overrides].
  destruct pc, hpo; repeat split; reflexivity.
Qed.

(** Parsing what [to_dict] wrote gives the document back, as soon as the
    validation at the head of [from_dict] lets it through. *)
Lemma from_dict_to_dict (doc : PluginCollection.t) :
  PluginCollection.validate_dict py_repr (JObj (PluginCollection.to_dict doc)) = Return tt ->
  PluginCollection.from_dict py_repr (JObj (PluginCollection.to_dict doc)) = Return doc.
Proof.
  intros Hvalid. unfold PluginCollection.from_dict. rewrite Hvalid. cbn [bind].
  destruct (to_dict_lookup doc) as (Hsv & Hmeta & Hps & Hpc & Hhpo).
  cbv zeta in Hsv, Hmeta, Hps, Hpc, Hhpo.
  rewrite Hmeta, metadata_from_dict_to_dict. cbn [bind].
  unfold get at 1, get_or at 1. rewrite Hps.
  assert (Hplugins :
    match py_or (JArr (map (fun p => JObj (CollectionPlugin.to_dict p))
                           (PluginCollection.plugins doc))) (JArr []) with
    | JArr ps => ps
    | _ => []
    end = map (fun p => JObj (CollectionPlugin.to_dict p)) (PluginCollection.plugins doc)).
  { destruct (PluginCollection.plugins doc); reflexivity. }
  destruct (py_or _ (JArr [])) as [| | | | |ps|] eqn:Eor;
    try (unfold py_or in Eor; destruct (truthy _) in Eor; discriminate).
  subst ps. rewrite plugins_from_dict_to_dict. cbn [bind].
  unfold get_or. rewrite Hsv, Hpc, Hhpo. cbn [py_str].
  destruct doc; reflexivity.
Qed.

End RoundTrip.

(** C9. [to_dict] writes no key for a [plugin_configs] or a
    [handler_priority_overrides] that is [None]: the key is missing from the
    mapping, so it is never there with a null value; a value that is not
    [None] is written as it is.  [schema_version], [metadata] and [plugins]
    are written for every document. *)
Theorem to_dict_omits_absent_fields (doc : PluginCollection.t) :
  let data := PluginCollection.to_dict doc in
  (PluginCollection.plugin_configs doc = JNull ->
     dict_mem "plugin_configs" data = false) /\
  (PluginCollection.handler_priority_overrides doc = JNull ->
     dict_mem "handler_priority_overrides" data = false) /\
  (PluginCollection.plugin_configs doc <> JNull ->
     dict_get "plugin_configs" data = Some (PluginCollection.plugin_configs doc)) /\
  (PluginCollection.handler_priority_overrides doc <> JNull ->
     dict_get "handler_priority_overrides" data =
     Some (PluginCollection.handler_priority_overrides doc)) /\
  (forall k, dict_get k data <> Some JNull) /\
  dict_get "schema_version" data = Some (JStr (PluginCollection.schema_version doc)) /\
  dict_get "metadata" data =
    Some (JObj (CollectionMetadata.to_dict (PluginCollection.metadata doc))) /\
  dict_get "plugins" data =
    Some (JArr (map (fun p => JObj (CollectionPlugin.to_dict p))
                    (PluginCollection.plugins doc))) /\
  is_dict data.
Proof.
  destruct doc as [sv meta ps pc hpo].
  unfold PluginCollection.to_dict. cbn [PluginCollection.schema_version
    PluginCollection.metadata PluginCollection.plugins PluginCollection.plugin_configs
    PluginCollection.handler_priority_overrides].
  assert (Hnull : forall (d : dict) k,
             Forall (fun kv => snd kv <> JNull) d -> dict_get k d <> Some JNull).
  { intros d k Hall Hget. apply dict_get_some_in in Hget.
    rewrite Forall_forall in Hall. now apply (Hall (k, JNull)). }
  destruct pc, hpo; cbv zeta;
    repeat match goal with |- _ /\ _ => split end;
    lazymatch goal with
    | |- _ = JNull -> _ => intros H; first [discriminate H | reflexivity]
    | |- _ <> JNull -> _ => intros H; first [reflexivity | now elim H]
    | |- forall k : string, _ =>
        intros k; apply Hnull; repeat constructor; cbn [snd]; discriminate
    | |- is_dict _ =>
        unfold is_dict, dict_keys; cbn;
        repeat (constructor; [cbn; intuition discriminate|]); constructor
    | |- _ => reflexivity
    end.
Qed.

Section Validity.
Variable py_repr : json -> string.

Lemma validate_dict_ok_iff (data : json) :
  PluginCollection.validate_dict py_repr data = Return tt <->
  iter_errors py_repr PluginCollection.JSON_SCHEMA data = [].
Proof.
  unfold PluginCollection.validate_dict, PluginCollection.sorted_errors.
  split.
  - intros H.
    destruct (sorted_by _ _) as [|e es] eqn:Es; [|discriminate].
    destruct (iter_errors _ _ _) as [|x xs] eqn:Ei; [reflexivity|].
    exfalso.
    assert (Hlen : forall (l acc : list ValidationError),
               (List.length acc <=
                List.length (fold_left (fun acc x =>
                   insert_by PluginCollection.error_ltb x acc) l acc))%nat).
    { induction l as [|y l IH]; intros acc; cbn [fold_left]; [lia|].
      etransitivity; [|apply IH].
      clear. induction acc as [|a acc IHa]; cbn [insert_by]; [cbn; lia|].
      destruct (PluginCollection.error_ltb y a); cbn [List.length]; lia. }
    unfold sorted_by in Es. cbn [fold_left] in Es.
    specialize (Hlen xs (insert_by PluginCollection.error_ltb x [])).
    rewrite Es in Hlen. cbn in Hlen. lia.
  - intros ->. reflexivity.
Qed.

End Validity.

(** ** The errors of the validator *)

(** Induction over a keyword and the schemas below it. *)
Lemma keyword_induction (P : keyword -> Prop) :
  (forall uri, P (KSchemaUri uri)) ->
  (forall types, P (KType types)) ->
  (forall values, P (KEnum values)) ->
  (forall names, P (KRequired names)) ->
  (forall allowed, P (KAdditionalProperties allowed)) ->
  (forall sub, Forall P sub -> P (KAdditionalPropertiesSchema sub)) ->
  (forall props, Forall (fun ps => Forall P (snd ps)) props -> P (KProperties props)) ->
  (forall sub, Forall P sub -> P (KItems sub)) ->
  (forall limit, P (KMaxLength limit)) ->
  (forall bound, P (KMinimum bound)) ->
  (forall fmt, P (KFormat fmt)) ->
  forall kw, P kw.
Proof.
  intros Huri Htype Henum Hreq Hadd Hadds Hprops Hitems Hmax Hmin Hfmt.
  fix IH 1. intros [uri|types|values|names|allowed|sub|props|sub|limit|bound|fmt].
  - apply Huri.
  - apply Htype.
  - apply Henum.
  - apply Hreq.
  - apply Hadd.
  - apply Hadds. induction sub as [|k sub IHsub]; constructor; [apply IH | exact IHsub].
  - apply Hprops. induction props as [|[name sub] props IHprops]; constructor;
      [|exact IHprops].
    cbn [snd]. induction sub as [|k sub IHsub]; constructor; [apply IH | exact IHsub].
  - apply Hitems. induction sub as [|k sub IHsub]; constructor; [apply IH | exact IHsub].
  - apply Hmax.
  - apply Hmin.
  - apply Hfmt.
Qed.

Lemma in_enumerate {A : Type} (xs : list A) (i : nat) (x : A) :
  In (i, x) (enumerate xs) -> nth_error xs i = Some x.
Proof.
  unfold enumerate.
  assert (H : forall s, In (i, x) (combine (List.seq s (List.length xs)) xs) ->
                        (s <= i)%nat /\ nth_error xs (i - s) = Some x).
  { induction xs as [|y xs IH]; intros s; cbn [List.length List.seq combine];
      [intros []|].
    intros [E | Hin].
    - inversion E; subst. rewrite Nat.sub_diag. split; [lia | reflexivity].
    - apply IH in Hin. destruct Hin as [Hle Hnth]. split; [lia|].
      replace (i - s)%nat with (S (i - S s)) by lia. exact Hnth. }
  intros Hin. apply H in Hin. destruct Hin as [_ Hnth].
  now rewrite Nat.sub_0_r in Hnth.
Qed.

Section Located.
Variable py_repr : json -> string.

Ltac here :=
  exists []; rewrite app_nil_r; split; reflexivity.

(** Every error of the validator sits at a location of the validated value. *)
Lemma keyword_errors_located (kw : keyword) :
  forall whole at_path instance e,
    In e (keyword_errors py_repr whole kw at_path instance) ->
    exists suffix, path e = (at_path ++ suffix)%list /\ resolves suffix instance = true.
Proof.
  induction kw using keyword_induction; intros whole at_path instance e Hin;
    cbn [keyword_errors] in Hin.
  - destruct Hin.
  - destruct (existsb _ types); [destruct Hin|].
    destruct Hin as [<-|[]]. here.
  - destruct (existsb _ values); [destruct Hin|].
    destruct Hin as [<-|[]]. here.
  - destruct instance; try destruct Hin.
    apply in_flat_map in Hin. destruct Hin as [property [_ Hin]].
    destruct (dict_mem property kvs); [destruct Hin|].
    destruct Hin as [<-|[]]. here.
  - destruct instance; try destruct Hin.
    destruct (find_additional_properties kvs whole); [destruct Hin|].
    destruct allowed; [destruct Hin|].
    destruct Hin as [<-|[]]. here.
  - destruct instance; try destruct Hin.
    apply in_flat_map in Hin. destruct Hin as [extra [_ Hin]].
    destruct (dict_get extra kvs) as [v|] eqn:Eget; [|destruct Hin].
    apply in_flat_map in Hin. destruct Hin as [k [Hk Hin]].
    rewrite Forall_forall in H. destruct (H k Hk _ _ _ _ Hin) as [suffix [Hp Hr]].
    exists (PKey extra :: suffix). split.
    + rewrite Hp, <- app_assoc. reflexivity.
    + cbn [resolves]. now rewrite Eget.
  - destruct instance; try destruct Hin.
    apply in_flat_map in Hin. destruct Hin as [[name sub] [Hps Hin]]. cbn [fst snd] in Hin.
    destruct (dict_get name kvs) as [v|] eqn:Eget; [|destruct Hin].
    apply in_flat_map in Hin. destruct Hin as [k [Hk Hin]].
    rewrite Forall_forall in H. specialize (H _ Hps). cbn [snd] in H.
    rewrite Forall_forall in H. destruct (H k Hk _ _ _ _ Hin) as [suffix [Hp Hr]].
    exists (PKey name :: suffix). split.
    + rewrite Hp, <- app_assoc. reflexivity.
    + cbn [resolves]. now rewrite Eget.
  - destruct instance; try destruct Hin.
    apply in_flat_map in Hin. destruct Hin as [[i item] [Hix Hin]]. cbn [fst snd] in Hin.
    apply in_enumerate in Hix.
    apply in_flat_map in Hin. destruct Hin as [k [Hk Hin]].
    rewrite Forall_forall in H. destruct (H k Hk _ _ _ _ Hin) as [suffix [Hp Hr]].
    exists (PIdx i :: suffix). split.
    + rewrite Hp, <- app_assoc. reflexivity.
    + cbn [resolves]. now rewrite Hix.
  - destruct instance; try destruct Hin.
    destruct (_ >? _); [|destruct Hin].
    destruct Hin as [<-|[]]. here.
  - destruct (_ && _); [|destruct Hin].
    destruct Hin as [<-|[]]. here.
  - destruct Hin.
Qed.

Lemma iter_errors_located (s : schema) (instance : json) (e : ValidationError) :
  In e (iter_errors py_repr s instance) -> resolves (path e) instance = true.
Proof.
  unfold iter_errors. intros Hin.
  apply in_flat_map in Hin. destruct Hin as [k [_ Hin]].
  apply keyword_errors_located in Hin. destruct Hin as [suffix [Hp Hr]].
  now rewrite Hp.
Qed.

(** The sort key of [validate_dict] never makes [sorted] raise. *)
Lemma iter_errors_comparable (s : schema) (instance : json) (a b : ValidationError) :
  In a (iter_errors py_repr s instance) ->
  In b (iter_errors py_repr s instance) ->
  comparable (path a) (path b) = true.
Proof.
  intros Ha Hb.
  apply (resolves_comparable instance); now apply (iter_errors_located s).
Qed.

End Located.

Lemma two_members {A : Type} (a b : A) (l : list A) :
  In a l -> In b l -> a <> b -> (2 <= List.length l)%nat.
Proof.
  destruct l as [|x [|y l]]; cbn [In List.length]; intros Ha Hb Hne.
  - destruct Ha.
  - destruct Ha as [<-|[]], Hb as [<-|[]]. congruence.
  - lia.
Qed.

Section Completeness.
Variable py_repr : json -> string.

(** The error of the root for the keys the schema does not know. *)
Lemma unknown_key_reported (kvs : dict) (k : string) :
  In k (dict_keys kvs) ->
  ~ In k ["schema_version"; "metadata"; "plugins"; "plugin_configs";
          "handler_priority_overrides"] ->
  exists msg, In {| path := []; message := msg |}
                 (iter_errors py_repr PluginCollection.JSON_SCHEMA (JObj kvs)).
Proof.
  intros Hk Hunknown.
  assert (Hex : In k (find_additional_properties kvs PluginCollection.JSON_SCHEMA)).
  { unfold find_additional_properties. apply filter_In. split; [exact Hk|].
    apply negb_true_iff. apply not_true_is_false. intros Hex.
    apply existsb_exists in Hex. destruct Hex as [name [Hname E]].
    apply String.eqb_eq in E. subst name. apply Hunknown. exact Hname. }
  destruct (find_additional_properties kvs PluginCollection.JSON_SCHEMA)
    as [|x extras] eqn:Eextras; [destruct Hex|].
  eexists. unfold iter_errors. apply in_flat_map.
  exists (KAdditionalProperties false). split.
  - unfold PluginCollection.JSON_SCHEMA. cbn [In]. auto 10.
  - cbn [keyword_errors]. rewrite Eextras. left. reflexivity.
Qed.

(** The error of [metadata] for a required key it lacks. *)
Lemma missing_metadata_key_reported (kvs meta : dict) (name : string) :
  dict_get "metadata" kvs = Some (JObj meta) ->
  In name ["name"; "description"; "author"; "version"; "created_at";
           "astrbot_version"; "plugin_count"] ->
  dict_mem name meta = false ->
  In {| path := [PKey "metadata"];
        message := (py_repr (JStr name) ++ " is a required property")%string |}
     (iter_errors py_repr PluginCollection.JSON_SCHEMA (JObj kvs)).
Proof.
  intros Hmeta Hname Hmissing.
  unfold iter_errors. apply in_flat_map.
  eexists. split.
  - unfold PluginCollection.JSON_SCHEMA. cbn [In]. do 4 right. left. reflexivity.
  - cbn [keyword_errors]. apply in_flat_map.
    eexists. split; [cbn [In]; right; left; reflexivity|].
    cbn [fst snd]. rewrite Hmeta. apply in_flat_map.
    eexists. split; [cbn [In]; right; left; reflexivity|].
    cbn [keyword_errors]. apply in_flat_map.
    exists name. split; [exact Hname|].
    rewrite Hmissing. left. reflexivity.
Qed.

(** C5. [validate_dict] reports all the errors the validator finds, each
    once: the reported list is a permutation of [iter_errors], no two of its
    paths make the sort raise, and it is sorted by path (no error comes
    after one with a greater path).  With no error it returns; otherwise it
    raises [CollectionValidationError] with the parts, each the location
    (when it is not empty) and the message of one error, joined by ["; "].
    A document whose [metadata] lacks [author] and that holds a key the
    schema does not know gives at least two parts. *)
Theorem validate_dict_reports_every_error (data : json) :
  let errors := iter_errors py_repr PluginCollection.JSON_SCHEMA data in
  let reported := PluginCollection.sorted_errors py_repr data in
  Permutation errors reported /\
  (forall a b, In a errors -> In b errors -> comparable (path a) (path b) = true) /\
  StronglySorted (fun a b => path_ltb (path b) (path a) = false) reported /\
  (errors = [] -> PluginCollection.validate_dict py_repr data = Return tt) /\
  (errors <> [] ->
     PluginCollection.validate_dict py_repr data =
     Raise (CollectionValidationError (join "; " (map PluginCollection.part reported)))) /\
  (forall e,
     let loc := join "/" (map str_of_elem (path e)) in
     PluginCollection.part e =
     ((if String.eqb loc "" then "" else loc ++ ": ") ++ message e)%string) /\
  (forall kvs meta k,
     data = JObj kvs ->
     dict_get "metadata" kvs = Some (JObj meta) ->
     dict_mem "author" meta = false ->
     In k (dict_keys kvs) ->
     ~ In k ["schema_version"; "metadata"; "plugins"; "plugin_configs";
             "handler_priority_overrides"] ->
     (2 <= List.length (map PluginCollection.part reported))%nat).
Proof.
  cbv zeta. unfold PluginCollection.sorted_errors.
  set (errors := iter_errors py_repr PluginCollection.JSON_SCHEMA data).
  assert (Hperm : Permutation errors (sorted_by PluginCollection.error_ltb errors))
    by (symmetry; apply sorted_by_perm).
  split; [exact Hperm|].
  split; [intros a b; apply iter_errors_comparable|].
  split; [|split; [|split; [|split; [reflexivity|]]]].
  - apply (sorted_by_sorted PluginCollection.error_ltb (fun e => In e errors)).
    + intros a b _ _. apply path_ltb_asym.
    + intros a b c Ha Hb Hc. unfold le_of, PluginCollection.error_ltb.
      apply path_le_trans;
        now apply (iter_errors_comparable py_repr PluginCollection.JSON_SCHEMA data).
    + apply Forall_forall. auto.
  - intros Hnil. apply validate_dict_ok_iff. exact Hnil.
  - intros Hne. unfold PluginCollection.validate_dict, PluginCollection.sorted_errors.
    fold errors. destruct (sorted_by _ errors) as [|e es] eqn:Es; [|reflexivity].
    apply sorted_by_nil_iff in Es. contradiction.
  - intros kvs meta k -> Hmeta Hauthor Hk Hunknown.
    rewrite length_map, sorted_by_length.
    destruct (unknown_key_reported kvs k Hk Hunknown) as [msg Hroot].
    apply (two_members _ _ _ Hroot
             (missing_metadata_key_reported kvs meta "author" Hmeta
                ltac:(cbn [In]; auto) Hauthor)).
    discriminate.
Qed.

End Completeness.

Lemma flat_map_nil {A B : Type} (f : A -> list B) (l : list A) :
  (forall x, In x l -> f x = []) -> flat_map f l = [].
Proof.
  induction l as [|x l IH]; cbn [flat_map]; intros H; [reflexivity|].
  rewrite (H x) by now left. rewrite IH; [reflexivity|].
  intros y Hy. apply H. now right.
Qed.

Section Serialized.
Variable py_repr : json -> string.

(** The schema has nothing to say against a serialized well-formed document. *)
Lemma serialized_valid (doc : PluginCollection.t) :
  well_formed doc ->
  iter_errors py_repr PluginCollection.JSON_SCHEMA (JObj (PluginCollection.to_dict doc)) = [].
Proof.
  destruct doc as [sv [n de a v c av count] ps pc hpo].
  unfold well_formed. cbn [PluginCollection.schema_version PluginCollection.metadata
    PluginCollection.plugin_configs PluginCollection.handler_priority_overrides
    CollectionMetadata.name CollectionMetadata.description CollectionMetadata.plugin_count].
  intros (-> & Hn & Hd & Hc & Hpc & Hhpo).
  unfold iter_errors, PluginCollection.JSON_SCHEMA, PluginCollection.to_dict.
  cbn [PluginCollection.schema_version PluginCollection.metadata PluginCollection.plugins
    PluginCollection.plugin_configs PluginCollection.handler_priority_overrides].
  assert (Hplugins : forall (f : nat * json -> list ValidationError),
    (forall i p, f (i, JObj (CollectionPlugin.to_dict p)) = []) ->
    flat_map f (enumerate (map (fun p => JObj (CollectionPlugin.to_dict p)) ps)) = []).
  { intros f Hf. apply flat_map_nil. intros [i item] Hin.
    apply in_enumerate, nth_error_In, in_map_iff in Hin.
    destruct Hin as [p [<- _]]. apply Hf. }
  destruct Hpc as [-> | [d ->]], Hhpo as [-> | [o [-> Ho]]];
    cbn -[Z.of_nat String.length Z.gtb Z.ltb enumerate];
    destruct (Z.gtb_spec (Z.of_nat (String.length n)) 100); try lia;
    destruct (Z.gtb_spec (Z.of_nat (String.length de)) 500); try lia;
    destruct (Z.ltb_spec count 0); try lia; cbn [app];
    rewrite ?app_nil_r;
    rewrite Hplugins by (intros i [pn pr pv [pd|]]; reflexivity);
    try (destruct (find_additional_properties d _));
    cbn [app]; try reflexivity.
  all: apply flat_map_nil; intros extra _;
    destruct (dict_get extra o) as [w|] eqn:Eget; [|reflexivity];
    apply dict_get_some_in in Eget; rewrite Forall_forall in Ho;
    apply Ho in Eget; cbn [snd] in Eget; cbn [is_type] in Eget;
    rewrite orb_false_r, app_nil_r; now rewrite Eget.
Qed.

Lemma well_formed_round_trip (doc : PluginCollection.t) :
  well_formed doc ->
  PluginCollection.validate_dict py_repr (JObj (PluginCollection.to_dict doc)) = Return tt /\
  PluginCollection.from_dict py_repr (JObj (PluginCollection.to_dict doc)) = Return doc.
Proof.
  intros Hwf.
  assert (Hvalid : PluginCollection.validate_dict py_repr
                     (JObj (PluginCollection.to_dict doc)) = Return tt)
    by (apply validate_dict_ok_iff; now apply serialized_valid).
  split; [exact Hvalid | now apply from_dict_to_dict].
Qed.

End Serialized.

End ModelsFacts.

Module ExporterFacts.
Import Py PyFacts Models ModelsFacts Exporter.

Section Run.
Variable stars : list Star.t.
Variable Store : Type.
Variable global_get : Store -> string -> json -> result json.
Variable sp : Store.
Variable registry : Compatibility.Registry.
Variable now : string.
Variable VERSION : string.
Variable py_repr : json -> string.

Local Abbreviation export_collection :=
  (export_collection stars Store global_get sp registry now VERSION).
Local Abbreviation export :=
  (export stars Store global_get sp registry now VERSION py_repr).
Local Abbreviation priority_overrides :=
  (Compatibility.get_priority_overrides Store global_get sp registry).

Lemma overrides_json_integers (d : list (string * Z)) :
  exists o, Compatibility.overrides_json d = JObj o /\
            Forall (fun kv => is_type (snd kv) TInteger = true) o.
Proof.
  unfold Compatibility.overrides_json. eexists. split; [reflexivity|].
  apply Forall_forall. intros [k v] Hin. apply in_map_iff in Hin.
  destruct Hin as [[k' z] [E _]]. inversion E; subst. reflexivity.
Qed.

(** What [export] assembles is well formed as soon as the name and the
    description of the request fit the schema. *)
Lemma export_collection_well_formed (options : ExportOptions) (doc : PluginCollection.t) :
  export_collection options = Return doc ->
  Z.of_nat (String.length (name options)) <= 100 ->
  Z.of_nat (String.length (description options)) <= 500 ->
  well_formed doc.
Proof.
  unfold Exporter.export_collection. intros Hdoc Hname Hdesc.
  destruct (fold_left _ stars _) as [plugins pc].
  assert (Hhpo : forall hpo,
    (if include_priority options
     then d <- priority_overrides ;; Return (Compatibility.overrides_json d)
     else Return JNull) = Return hpo ->
    hpo = JNull \/
    exists d, hpo = JObj d /\ Forall (fun kv => is_type (snd kv) TInteger = true) d).
  { intros hpo. destruct (include_priority options).
    - destruct priority_overrides as [d|e]; cbn [bind]; [|discriminate].
      intros [= <-]. right. destruct (overrides_json_integers d) as [o [-> Ho]].
      now exists o.
    - intros [= <-]. now left. }
  destruct (if include_priority options then _ else _) as [hpo|e]; cbn [bind] in Hdoc;
    [|discriminate].
  injection Hdoc as <-. unfold well_formed.
  cbn [PluginCollection.schema_version PluginCollection.metadata
    PluginCollection.plugin_configs PluginCollection.handler_priority_overrides
    CollectionMetadata.name CollectionMetadata.description CollectionMetadata.plugin_count].
  repeat split; try assumption; try lia.
  - destruct pc as [d|]; [right; now exists d | now left].
  - now apply Hhpo.
Qed.

(** [export] returns whenever the name and the description fit and the
    overrides could be read. *)
Lemma export_succeeds (options : ExportOptions) (d : list (string * Z)) :
  priority_overrides = Return d ->
  Z.of_nat (String.length (name options)) <= 100 ->
  Z.of_nat (String.length (description options)) <= 500 ->
  exists payload,
    export options = Return payload.
Proof.
  intros Hpo Hname Hdesc. unfold Exporter.export.
  destruct (export_collection options) as [doc|e] eqn:Edoc.
  - cbn [bind].
    destruct (well_formed_round_trip py_repr doc) as [-> _];
      [now apply (export_collection_well_formed options)|].
    cbn [bind]. now eexists.
  - exfalso. unfold Exporter.export_collection in Edoc.
    destruct (fold_left _ stars _) as [plugins pc]. rewrite Hpo in Edoc.
    destruct (include_priority options); discriminate.
Qed.

(** C1. Whatever the options, when [export] returns a payload, the payload
    is the serialized form of the document [export] assembled, it passes
    [validate_dict], and parsing it gives that document back:
    [from_dict (to_dict doc) = doc]. *)
Theorem export_round_trip (options : ExportOptions) (payload : json) :
  export options = Return payload ->
  exists doc : PluginCollection.t,
    export_collection options = Return doc /\
    payload = JObj (PluginCollection.to_dict doc) /\
    PluginCollection.validate_dict py_repr payload = Return tt /\
    PluginCollection.from_dict py_repr payload = Return doc.
Proof.
  unfold Exporter.export. intros Hexport.
  destruct (export_collection options) as [doc|e];
    cbn [bind] in Hexport; [|discriminate].
  destruct (PluginCollection.validate_dict py_repr (JObj (PluginCollection.to_dict doc)))
    as [[]|e] eqn:Hvalid; cbn [bind] in Hexport; [|discriminate].
  injection Hexport as <-.
  exists doc. repeat split; try assumption.
  now apply from_dict_to_dict.
Qed.

End Run.
End ExporterFacts.

Module CompatibilityFacts.
Import Py PyFacts Compatibility.

Lemma map_result_spec {A B : Type} (f : A -> result B) (xs : list A) (ys : list B) :
  map_result f xs = Return ys -> Forall2 (fun x y => f x = Return y) xs ys.
Proof.
  revert ys. induction xs as [|x xs IH]; cbn [map_result]; intros ys H.
  - injection H as <-. constructor.
  - destruct (f x) as [y|e] eqn:Ef; cbn [bind] in H; [|discriminate].
    destruct (map_result f xs) as [ys'|e]; cbn [bind] in H; [|discriminate].
    injection H as <-. constructor; [exact Ef | now apply IH].
Qed.

Lemma StronglySorted_map {A B : Type} (R : A -> A -> Prop) (R' : B -> B -> Prop)
  (f : A -> B) (l : list A) :
  StronglySorted R l ->
  (forall a b, R a b -> R' (f a) (f b)) ->
  StronglySorted R' (map f l).
Proof.
  intros Hs HR. induction Hs as [|a l Hs IH Hall]; cbn [map]; constructor; [exact IH|].
  rewrite Forall_forall in Hall. apply Forall_forall.
  intros b Hb. apply in_map_iff in Hb. destruct Hb as [a' [<- Ha']].
  apply HR, Hall, Ha'.
Qed.

Lemma set_priority_handlers (ref : nat) (p : Z) (reg : Registry) :
  _handlers (set_priority ref p reg) = _handlers reg /\
  star_handlers_map (set_priority ref p reg) = star_handlers_map reg.
Proof. split; reflexivity. Qed.

Lemma write_priorities_handlers (normalized : list (string * Z)) (reg : Registry) :
  _handlers (write_priorities normalized reg) = _handlers reg /\
  star_handlers_map (write_priorities normalized reg) = star_handlers_map reg.
Proof.
  unfold write_priorities. revert reg.
  induction normalized as [|[name p] rest IH]; intros reg; cbn [fold_left fst snd];
    [split; reflexivity|].
  destruct (dict_get name (star_handlers_map reg)) as [ref|]; [|apply IH].
  destruct (IH (set_priority ref p reg)) as [H1 H2]. rewrite H1, H2. split; reflexivity.
Qed.

(** The keys [sort] computed: one per handler, the opposite of its priority. *)
Lemma sort_keys_spec (reg : Registry) (keys : list (nat * Z)) :
  map_result (fun ref => p <- priority_of (heap reg ref) ;; Return (ref, - p))
             (_handlers reg) = Return keys ->
  map fst keys = _handlers reg /\
  Forall (fun k => priority_of (heap reg (fst k)) = Return (- snd k)) keys.
Proof.
  intros H. apply map_result_spec in H.
  induction H as [|ref k refs keys Hk _ IH]; [split; constructor|].
  destruct IH as [IH1 IH2].
  destruct (priority_of (heap reg ref)) as [p|e] eqn:Ep; cbn [bind] in Hk; [|discriminate].
  injection Hk as <-. cbn [map fst snd]. split; [now rewrite IH1|].
  constructor; [|exact IH2]. cbn [fst snd]. rewrite Ep. f_equal. lia.
Qed.

(** After a sort that succeeded, the dispatch list is the old one reordered,
    every handler has a priority, no priority is below a later one, and the
    handlers of one priority are in the order they had. *)
Lemma sort_handlers_sorted (reg reg' : Registry) :
  sort_handlers reg = Return reg' ->
  heap reg' = heap reg /\
  star_handlers_map reg' = star_handlers_map reg /\
  Permutation (_handlers reg) (_handlers reg') /\
  (exists ps, priorities reg' = map Return ps /\
              StronglySorted (fun a b => b <= a) ps) /\
  (forall p, filter (has_priority reg p) (_handlers reg') =
             filter (has_priority reg p) (_handlers reg)).
Proof.
  unfold sort_handlers. intros H.
  destruct (map_result _ (_handlers reg)) as [keys|e] eqn:Ekeys; cbn [bind] in H;
    [|discriminate].
  injection H as <-. cbn [heap star_handlers_map _handlers].
  destruct (sort_keys_spec reg keys Ekeys) as [Hfst Hprio].
  rewrite Forall_forall in Hprio.
  pose proof (sort_by_key_perm snd keys) as Hperm.
  split; [reflexivity|]. split; [reflexivity|]. split; [|split].
  - rewrite <- Hfst. apply Permutation_map. now symmetry.
  - exists (map (fun k => - snd k) (sort_by_key snd keys)). split.
    + unfold priorities. cbn [heap _handlers]. rewrite !map_map.
      apply map_ext_in. intros k Hk.
      eapply Permutation_in in Hk; [|exact Hperm].
      rewrite (Hprio k Hk). f_equal.
    + apply (StronglySorted_map _ _ _ _ (sort_by_key_sorted snd keys)).
      intros a b. lia.
  - intros p.
    assert (Hswap : forall l : list (nat * Z),
      (forall k, In k l -> In k keys) ->
      filter (has_priority reg p) (map fst l) =
      map fst (filter (fun k => snd k =? - p) l)).
    { intros l Hl. rewrite filter_map_swap. f_equal.
      apply filter_ext_in. intros k Hk. unfold has_priority.
      rewrite (Hprio k (Hl k Hk)).
      destruct (Z.eqb_spec (- snd k) p), (Z.eqb_spec (snd k) (- p)); trivial; lia. }
    rewrite <- Hfst, !Hswap; [|auto|].
    + now rewrite sort_by_key_stable.
    + intros k Hk. eapply Permutation_in; [exact Hperm | exact Hk].
Qed.

Section Fallback.
Variable Store : Type.
Variable global_put : Store -> string -> json -> result Store.

(** [False] is returned only on the fallback path, after a failed sort. *)
Lemma apply_priority_overrides_false_only (overrides : json) (sp : Store) (reg : Registry) :
  fst (fst (apply_priority_overrides Store global_put overrides sp reg)) = Return false ->
  exists normalized e e',
    global_put sp "handler_priority_overrides" (overrides_json normalized) = Raise e /\
    sort_handlers (write_priorities normalized reg) = Raise e'.
Proof.
  unfold apply_priority_overrides.
  destruct (items <- items_of overrides ;; normalize items []) as [normalized|e0];
    [|discriminate].
  destruct (global_put sp _ _) as [sp'|e] eqn:Eput; [discriminate|].
  destruct (is_Exception e); [|discriminate].
  destruct (sort_handlers _) as [reg''|e'] eqn:Esort; [discriminate|].
  intros _. now exists normalized, e, e'.
Qed.

(** C3, amended. When the write to the store raises an [Exception], the
    outcome is that of the fallback: [True] exactly when the re-sort
    succeeds, [False] exactly when it fails.  After [True] the dispatch
    list is the previous one reordered, and it is descending by priority in
    the wide sense: no handler has a lower priority than a later one;
    handlers of equal priority stand side by side, in the order they had. *)
Theorem apply_priority_overrides_fallback
  (overrides : json) (sp : Store) (reg : Registry)
  (normalized : list (string * Z)) (e : exn) :
  (items <- items_of overrides ;; normalize items []) = Return normalized ->
  global_put sp "handler_priority_overrides" (overrides_json normalized) = Raise e ->
  is_Exception e = true ->
  let out := apply_priority_overrides Store global_put overrides sp reg in
  let written := write_priorities normalized reg in
  (forall reg', sort_handlers written = Return reg' ->
     out = (Return true, sp, reg') /\
     Permutation (_handlers reg) (_handlers reg') /\
     (exists ps, priorities reg' = map Return ps /\
                 StronglySorted (fun a b => b <= a) ps) /\
     (forall p, filter (has_priority written p) (_handlers reg') =
                filter (has_priority written p) (_handlers reg))) /\
  (forall e', sort_handlers written = Raise e' -> out = (Return false, sp, written)) /\
  (fst (fst out) = Return true <-> exists reg', sort_handlers written = Return reg') /\
  (fst (fst out) = Return false <-> exists e', sort_handlers written = Raise e').
Proof.
  intros Hnorm Hput Hexc. cbv zeta.
  assert (Hout : apply_priority_overrides Store global_put overrides sp reg =
                 match sort_handlers (write_priorities normalized reg) with
                 | Return reg' => (Return true, sp, reg')
                 | Raise _ => (Return false, sp, write_priorities normalized reg)
                 end).
  { unfold apply_priority_overrides. rewrite Hnorm, Hput, Hexc.
    destruct (sort_handlers _) as [reg'|e'] eqn:Esort; [reflexivity|].
    assert (He' : is_Exception e' = true).
    { unfold sort_handlers in Esort.
      destruct (map_result _ _) as [keys|e''] eqn:Ekeys; cbn [bind] in Esort;
        [discriminate|].
      injection Esort as ->. clear -Ekeys.
      induction (_handlers (write_priorities normalized reg)) as [|ref refs IH];
        cbn [map_result] in Ekeys; [discriminate|].
      destruct (priority_of _) as [p|e0] eqn:Ep; cbn [bind] in Ekeys.
      - destruct (map_result _ refs) as [ks|e0]; cbn [bind] in Ekeys; [discriminate|].
        injection Ekeys as ->. now apply IH.
      - injection Ekeys as ->. unfold priority_of, py_int in Ep.
        destruct (py_or _ _); try discriminate; try (now injection Ep as <-).
        destruct (int_of_str s); [discriminate | now injection Ep as <-]. }
    now rewrite He'. }
  rewrite Hout. split; [|split; [|split]].
  - intros reg' Hsort. rewrite Hsort. split; [reflexivity|].
    destruct (sort_handlers_sorted _ _ Hsort) as (_ & _ & Hperm & Hps & Hstable).
    destruct (write_priorities_handlers normalized reg) as [Hh _].
    rewrite Hh in Hperm. split; [assumption|]. split; [assumption|].
    intros p. rewrite Hstable. now rewrite Hh.
  - intros e' Hsort. now rewrite Hsort.
  - destruct (sort_handlers _) as [reg'|e']; cbn [fst]; split.
    + intros _. now exists reg'.
    + reflexivity.
    + discriminate.
    + intros [reg' H]. discriminate.
  - destruct (sort_handlers _) as [reg'|e']; cbn [fst]; split.
    + discriminate.
    + intros [e' H]. discriminate.
    + intros _. now exists e'.
    + reflexivity.
Qed.

End Fallback.

(** C3, as stated, fails: the write fails, the fallback succeeds and returns
    [True], and the two handlers end with the same priority, so the order is
    not strictly descending. *)
Lemma fallback_order_not_strict :
  let out := apply_priority_overrides unit failing_put
               (JObj [("on_message", JInt 5); ("on_command", JInt 5)]) tt two_handlers in
  fst (fst out) = Return true /\
  priorities (snd out) = map Return [5; 5] /\
  strictly_descending [5; 5] = false /\
  descending [5; 5] = true.
Proof. vm_compute. repeat split. Qed.

End CompatibilityFacts.

Module ImporterFacts.
Import Py PyFacts Models Importer.

Section Host.
Variable World : Type.
Variable get_all_stars : World -> list Star.t.
Variable get_registered_star : World -> string -> option Star.t.
Variable detect_conflicts : option (World -> list string -> result json).
Variable uninstall_plugin : World -> string -> result unit * World.
Variable install_plugin : World -> string -> string -> result unit * World.
Variable save_config : World -> string -> dict -> result unit * World.
Variable reload : World -> string -> result unit * World.
Variable apply_priority_overrides : World -> json -> result bool * World.

Local Abbreviation M := (M World).
Local Abbreviation import_collection :=
  (import_collection World get_all_stars get_registered_star detect_conflicts
     uninstall_plugin install_plugin save_config reload apply_priority_overrides).

(** ** The log *)

Lemma emits_ret {A : Type} (P : event -> Prop) (a : A) : emits World P (ret World a).
Proof. intros w tr. exists []. cbn. now rewrite app_nil_r. Qed.

Lemma emits_raise {A : Type} (P : event -> Prop) (e : exn) :
  emits World P (raise World (A := A) e).
Proof. intros w tr. exists []. cbn. now rewrite app_nil_r. Qed.

Lemma emits_read {A : Type} (P : event -> Prop) (f : World -> A) :
  emits World P (read World f).
Proof. intros w tr. exists []. cbn. now rewrite app_nil_r. Qed.

Lemma emits_call {A : Type} (P : event -> Prop) (ev : event)
  (op : World -> result A * World) :
  P ev -> emits World P (call World ev op).
Proof.
  intros Hev w tr. exists [ev]. unfold call. destruct (op w) as [r w']. cbn.
  split; [reflexivity | now constructor].
Qed.

Lemma emits_bind {A B : Type} (P : event -> Prop) (m : M A) (k : A -> M B) :
  emits World P m -> (forall a, emits World P (k a)) -> emits World P (bindM World m k).
Proof.
  intros Hm Hk w tr. unfold bindM.
  destruct (Hm w tr) as [evs [Htr Hevs]].
  destruct (m w tr) as [[[a|e] w'] tr']; cbn [snd] in Htr; subst tr'.
  - destruct (Hk a w' (tr ++ evs)) as [evs' [Htr' Hevs']].
    exists (evs ++ evs'). rewrite Htr', app_assoc. split; [reflexivity|].
    apply Forall_app. now split.
  - exists evs. now split.
Qed.

Lemma emits_try {A : Type} (P : event -> Prop) (m : M A) :
  emits World P m -> emits World P (try_except World m).
Proof.
  intros Hm w tr. unfold try_except.
  destruct (Hm w tr) as [evs [Htr Hevs]].
  destruct (m w tr) as [[[a|e] w'] tr']; cbn [snd] in Htr; subst tr'.
  - now exists evs.
  - destruct (is_Exception e); now exists evs.
Qed.

Lemma emits_gathered (P : event -> Prop) (m : M (result json)) :
  emits World P m -> emits World P (gathered World m).
Proof.
  intros Hm w tr. unfold gathered.
  destruct (Hm w tr) as [evs [Htr Hevs]].
  destruct (m w tr) as [[[a|e] w'] tr']; cbn [snd] in Htr; subst tr'; now exists evs.
Qed.

Lemma emits_for_each {A B : Type} (P : event -> Prop) (xs : list A)
  (body : B -> A -> M B) :
  (forall acc x, In x xs -> emits World P (body acc x)) ->
  forall acc, emits World P (for_each World xs acc body).
Proof.
  induction xs as [|x xs IH]; intros Hbody acc; cbn [for_each].
  - apply emits_ret.
  - apply emits_bind; [apply Hbody; now left|].
    intros acc'. apply IH. intros acc'' y Hy. apply Hbody. now right.
Qed.

Lemma not_Exception_cancelled (e : exn) : is_Exception e = false -> e = CancelledError.
Proof. destruct e; cbn; congruence. Qed.

Lemma uninstall_one_step (keep : list string) (acc : list json) (p : Star.t)
  (w : World) (tr : list event) :
  (uninstall_target keep p = false /\
   uninstall_one World uninstall_plugin keep acc p w tr = (Return acc, w, tr)) \/
  (exists s out w',
     Star.name p = Some s /\ uninstall_target keep p = true /\
     uninstall_one World uninstall_plugin keep acc p w tr = (out, w', tr ++ [EvUninstall s]) /\
     (forall e, out = Raise e -> e = CancelledError)).
Proof.
  unfold uninstall_target, uninstall_one.
  destruct (Star.reserved p); [left; now split|].
  destruct (Star.name p) as [s|] eqn:Ename; [|left; now split].
  destruct (Star.falsy (Some s)); [left; now split|].
  destruct (Star.in_names (Some s) keep); [left; now split|].
  right. exists s. unfold bindM, try_except, call, ret.
  destruct (uninstall_plugin w s) as [[[]|e] w'].
  - eexists _, _. repeat split. discriminate.
  - destruct (is_Exception e) eqn:Ee; eexists _, _; repeat split; try discriminate.
    intros e' [= <-]. now apply not_Exception_cancelled.
Qed.

(** The uninstall loop hands over the targets one by one, in order; it goes
    through all of them unless a call is cancelled. *)
Lemma uninstall_loop (keep : list string) (stars : list Star.t) :
  forall acc w tr,
  exists done rest,
    targets_of keep stars = done ++ rest /\
    snd (for_each World stars acc (uninstall_one World uninstall_plugin keep) w tr)
      = tr ++ map EvUninstall done /\
    (forall a, fst (fst (for_each World stars acc (uninstall_one World uninstall_plugin keep) w tr))
               = Return a -> rest = []) /\
    (forall e, fst (fst (for_each World stars acc (uninstall_one World uninstall_plugin keep) w tr))
               = Raise e -> e = CancelledError).
Proof.
  induction stars as [|p stars IH]; intros acc w tr.
  - exists [], []. cbn. rewrite app_nil_r. repeat split. discriminate.
  - cbn [for_each]. unfold targets_of. cbn [filter]. unfold bindM.
    destruct (uninstall_one_step keep acc p w tr)
      as [[Hskip ->] | (s & out & w' & Hname & Htarget & -> & Hcancel)].
    + rewrite Hskip. apply IH.
    + rewrite Htarget. cbn [flat_map]. rewrite Hname. cbn [app].
      destruct out as [acc'|e].
      * destruct (IH acc' w' (tr ++ [EvUninstall s]))
          as (done & rest & Ht & Htr & Hret & Hraise).
        exists (s :: done), rest. fold (targets_of keep stars). rewrite Ht, Htr.
        cbn [map app]. rewrite <- app_assoc. repeat split; assumption.
      * exists [s], (targets_of keep stars). cbn [fst snd]. repeat split.
        -- discriminate.
        -- intros e' [= <-]. now apply Hcancel.
Qed.

(** ** The phases *)

Lemma check_conflicts_emits (P : event -> Prop) (names : list string) :
  P (EvConflictCheck names) ->
  emits World P (check_conflicts World detect_conflicts names).
Proof.
  intros HP. unfold check_conflicts. destruct detect_conflicts as [detect|].
  - apply emits_bind; [apply emits_try; now apply emits_call|].
    intros [report|e]; apply emits_ret.
  - apply emits_ret.
Qed.

Lemma check_conflicts_raises (names : list string) (w : World) (tr : list event) (e : exn) :
  fst (fst (check_conflicts World detect_conflicts names w tr)) = Raise e ->
  e = CancelledError.
Proof.
  unfold check_conflicts. destruct detect_conflicts as [detect|]; [|discriminate].
  unfold bindM, try_except, call, ret.
  destruct (detect w names) as [report|e']; [discriminate|].
  destruct (is_Exception e') eqn:Ee; [discriminate|].
  cbn [fst]. intros [= <-]. now apply not_Exception_cancelled.
Qed.

Lemma check_conflicts_read_only (names : list string) :
  read_only World (check_conflicts World detect_conflicts names).
Proof.
  intros w tr. unfold check_conflicts. destruct detect_conflicts as [detect|];
    [|reflexivity].
  unfold bindM, try_except, call, ret.
  destruct (detect w names) as [report|e]; [reflexivity|].
  destruct (is_Exception e); reflexivity.
Qed.

Lemma install_phase_emits (P : event -> Prop) (collection : PluginCollection.t)
  (options : ImportOptions) (installed_before : list (option string)) :
  (forall repo, P (EvInstall repo (proxy options))) ->
  emits World P (install_phase World install_plugin collection options installed_before).
Proof.
  intros HP. unfold install_phase.
  destruct (plan_installs _ _ _) as [skipped tasks].
  apply emits_bind.
  - apply emits_for_each. intros raw t _.
    apply emits_bind; [|intros r; apply emits_ret].
    apply emits_gathered. unfold _install_one.
    apply emits_bind; [apply emits_try; now apply emits_call|].
    intros [u|e]; apply emits_ret.
  - intros raw. destruct (sort_results raw [] []) as [[installed failed]|e];
      [apply emits_ret | apply emits_raise].
Qed.

Lemma uninstall_phase_emits (P : event -> Prop) (collection : PluginCollection.t)
  (options : ImportOptions) :
  (forall name, P (EvUninstall name)) ->
  emits World P (uninstall_phase World get_all_stars uninstall_plugin collection options).
Proof.
  intros HP. unfold uninstall_phase.
  destruct (String.eqb _ "clean"); [|apply emits_ret].
  apply emits_bind; [apply emits_read|]. intros stars.
  apply emits_for_each. intros acc p _. unfold uninstall_one.
  destruct (Star.reserved p); [apply emits_ret|].
  destruct (Star.falsy _); [apply emits_ret|].
  destruct (Star.in_names _ _); [apply emits_ret|].
  apply emits_bind; [apply emits_try; now apply emits_call|].
  intros [u|e]; apply emits_ret.
Qed.

Lemma priority_phase_emits (P : event -> Prop) (collection : PluginCollection.t)
  (options : ImportOptions) :
  (forall overrides, P (EvApplyPriority overrides)) ->
  emits World P (priority_phase World apply_priority_overrides collection options).
Proof.
  intros HP. unfold priority_phase.
  destruct (apply_priority options); [|apply emits_ret].
  destruct (PluginCollection.handler_priority_overrides collection); try apply emits_ret.
  now apply emits_call.
Qed.

(** The config-merge phase writes and reloads only for the names of
    [plugin_configs] that [skip] does not hold back. *)
Lemma apply_config_emits (P : event -> Prop) (options : ImportOptions)
  (installed_before : list (option string)) (configs_applied : Z) (item : string * json) :
  ((String.eqb (import_mode options) "add" &&
    Star.in_opt_names (fst item) installed_before &&
    negb (overwrite_existing_configs options)) = false ->
   (forall cfg, P (EvSaveConfig (fst item) cfg)) /\ P (EvReload (fst item))) ->
  emits World P (apply_config World get_registered_star save_config reload
                   options installed_before configs_applied item).
Proof.
  destruct item as [plugin_name cfg]. cbn [fst]. intros HP. unfold apply_config.
  destruct cfg; try apply emits_ret.
  apply emits_bind; [apply emits_read|]. intros [md|]; [|apply emits_ret].
  destruct (Star.config md) as [[|entry current]|]; try apply emits_ret.
  destruct (_ && _ && _); [apply emits_ret|].
  destruct HP as [Hsave Hreload]; [reflexivity|].
  apply emits_bind; [apply emits_try; now apply emits_call|].
  intros [u|e]; [|apply emits_ret].
  apply emits_bind; [apply emits_try; now apply emits_call|].
  intros r. apply emits_ret.
Qed.


Lemma uninstall_calls_app (a b : list event) :
  uninstall_calls (a ++ b) = uninstall_calls a ++ uninstall_calls b.
Proof. unfold uninstall_calls. apply flat_map_app. Qed.

Lemma uninstall_calls_uninstalls (names : list string) :
  uninstall_calls (map EvUninstall names) = names.
Proof.
  induction names as [|n names IH]; [reflexivity|].
  cbn [map]. change (uninstall_calls (EvUninstall n :: map EvUninstall names))
    with (n :: uninstall_calls (map EvUninstall names)). now rewrite IH.
Qed.

Lemma uninstall_calls_none (evs : list event) :
  Forall (fun ev => is_uninstall ev = false) evs -> uninstall_calls evs = [].
Proof.
  induction 1 as [|ev evs Hev _ IH]; [reflexivity|].
  destruct ev; try discriminate; exact IH.
Qed.

Lemma in_targets_of (keep : list string) (stars : list Star.t) (n : string) :
  In n (targets_of keep stars) ->
  exists p, In p stars /\ Star.name p = Some n /\ Star.reserved p = false /\
            n <> "" /\ ~ In n keep.
Proof.
  unfold targets_of. intros Hin. apply in_flat_map in Hin.
  destruct Hin as [p [Hp Hn]]. apply filter_In in Hp. destruct Hp as [Hp Htarget].
  destruct (Star.name p) as [s|] eqn:Ename; [|destruct Hn].
  destruct Hn as [<-|[]]. exists p. split; [exact Hp|]. split; [exact Ename|].
  unfold uninstall_target in Htarget. rewrite Ename in Htarget.
  apply andb_prop in Htarget. destruct Htarget as [Htarget Hkeep].
  apply andb_prop in Htarget. destruct Htarget as [Hres Hfalsy].
  split; [now destruct (Star.reserved p)|]. split.
  - intros ->. discriminate.
  - intros Hin. apply negb_true_iff in Hkeep. cbn [Star.in_names] in Hkeep.
    assert (existsb (String.eqb s) keep = true); [|congruence].
    apply existsb_exists. exists s. split; [exact Hin | apply String.eqb_refl].
Qed.

(** C6. With an [import_mode] that is neither ["add"] nor ["clean"],
    [import_collection] raises [ValueError] at once: the world it returns is
    the world it was given and the log of calls is the log it was given, so
    no conflict check, uninstall, install, config write, reload or priority
    write has taken place. *)
Theorem import_collection_rejects_unknown_mode
  (collection : PluginCollection.t) (options : ImportOptions)
  (w : World) (tr : list event) :
  import_mode options <> "add" -> import_mode options <> "clean" ->
  import_collection collection options w tr =
  (Raise (ValueError "import_mode must be 'add' or 'clean'"), w, tr).
Proof.
  intros Hadd Hclean. unfold Importer.import_collection.
  apply String.eqb_neq in Hadd, Hclean. rewrite Hadd, Hclean. reflexivity.
Qed.

(** What runs after the uninstall phase hands nothing to [uninstall_plugin]. *)
Lemma after_uninstall_emits (collection : PluginCollection.t) (options : ImportOptions)
  (installed_before : list (option string)) (conflict_report : json)
  (uninstalled : list json) (P : event -> Prop) :
  (forall repo, P (EvInstall repo (proxy options))) ->
  (forall overrides, P (EvApplyPriority overrides)) ->
  (forall item, In item (match PluginCollection.plugin_configs collection with
                         | JObj items => items | _ => [] end) ->
     (String.eqb (import_mode options) "add" &&
      Star.in_opt_names (fst item) installed_before &&
      negb (overwrite_existing_configs options)) = false ->
     (forall cfg, P (EvSaveConfig (fst item) cfg)) /\ P (EvReload (fst item))) ->
  emits World P
    (bindM World (install_phase World install_plugin collection options installed_before)
       (fun results =>
        bindM World (config_phase World get_registered_star save_config reload
                       collection options installed_before)
          (fun configs_applied =>
           bindM World (priority_phase World apply_priority_overrides collection options)
             (fun priority_applied =>
              let result := [ ("installed", JArr (fst (fst results)));
                              ("failed", JArr (snd (fst results)));
                              ("skipped", JArr (snd results));
                              ("uninstalled", JArr uninstalled);
                              ("configs_applied", JInt configs_applied);
                              ("priority_applied", JBool priority_applied) ] in
              match conflict_report with
              | JNull => ret World result
              | report => ret World (dict_set "conflicts" report result)
              end)))).
Proof.
  intros Hinstall Hprio Hcfg.
  apply emits_bind; [now apply install_phase_emits|]. intros results.
  apply emits_bind.
  { unfold config_phase. destruct (apply_configs options); [|apply emits_ret].
    destruct (PluginCollection.plugin_configs collection); try apply emits_ret.
    apply emits_for_each. intros acc item Hitem. apply apply_config_emits.
    now apply Hcfg. }
  intros configs_applied.
  apply emits_bind; [now apply priority_phase_emits|]. intros priority_applied.
  cbv zeta. destruct conflict_report; apply emits_ret.
Qed.


Lemma bindM_run {A B : Type} (m : M A) (k : A -> M B) (w : World) (tr : list event) :
  bindM World m k w tr =
  match m w tr with
  | (Return a, w', tr') => k a w' tr'
  | (Raise e, w', tr') => (Raise e, w', tr')
  end.
Proof. reflexivity. Qed.

(** C4. With [import_mode = "clean"], the names handed to
    [uninstall_plugin] during an import are, in order, those of the installed
    stars that are not reserved, have a name, and whose name the document
    does not hold: the whole list unless the run is cancelled (a failed
    uninstall does not stop the next one), and a prefix of it even then.  A
    name that is handed over belongs to a star that is not reserved. *)
Theorem import_clean_uninstalls (collection : PluginCollection.t)
  (options : ImportOptions) (w : World) :
  import_mode options = "clean" ->
  let out := import_collection collection options w [] in
  let calls := uninstall_calls (snd out) in
  let targets := uninstall_targets World get_all_stars collection w in
  (exists rest, targets = calls ++ rest) /\
  (fst (fst out) <> Raise CancelledError -> calls = targets) /\
  (forall n, In n calls ->
     exists p, In p (get_all_stars w) /\ Star.name p = Some n /\
               Star.reserved p = false /\ n <> "" /\
               ~ In n (names_of (PluginCollection.plugins collection))).
Proof.
  intros Hmode. cbv zeta.
  assert (Hmain :
    (exists rest, uninstall_targets World get_all_stars collection w =
                  uninstall_calls (snd (import_collection collection options w [])) ++ rest) /\
    (fst (fst (import_collection collection options w [])) <> Raise CancelledError ->
       uninstall_calls (snd (import_collection collection options w [])) =
       uninstall_targets World get_all_stars collection w)).
  { remember (import_collection collection options w []) as out eqn:Eout.
    unfold Importer.import_collection in Eout. rewrite Hmode in Eout.
    cbn [String.eqb Ascii.eqb Bool.eqb orb negb] in Eout.
    rewrite bindM_run in Eout. cbn [read] in Eout. rewrite bindM_run in Eout.
    pose proof (check_conflicts_read_only
                  (names_of (PluginCollection.plugins collection)) w []) as Hw.
    pose proof (check_conflicts_raises
                  (names_of (PluginCollection.plugins collection)) w []) as Hc1.
    destruct (check_conflicts_emits (fun ev => is_uninstall ev = false)
                (names_of (PluginCollection.plugins collection)) eq_refl w [])
      as [evs1 [Htr1 Hevs1]].
    destruct (check_conflicts World detect_conflicts _ w []) as [[r1 w1] tr1].
    cbn [fst snd] in Hw, Htr1, Hc1. subst w1 tr1. cbn [app] in Eout.
    destruct r1 as [conflict_report|e1].
    2:{ subst out. cbn [fst snd]. rewrite (uninstall_calls_none evs1 Hevs1). split.
        - now eexists.
        - intros H. elim H. now rewrite (Hc1 e1 eq_refl). }
    rewrite bindM_run in Eout. unfold uninstall_phase in Eout.
    rewrite Hmode, String.eqb_refl in Eout.
    rewrite bindM_run in Eout. cbn [read] in Eout. unfold uninstall_targets.
    destruct (uninstall_loop (names_of (PluginCollection.plugins collection))
                (get_all_stars w) [] w evs1)
      as (done & rest & Htargets & Htr2 & Hret & Hc2).
    destruct (for_each World (get_all_stars w) [] _ w evs1) as [[r2 w2] tr2].
    cbn [fst snd] in Htr2, Hret, Hc2. subst tr2. rewrite Htargets.
    destruct r2 as [uninstalled|e2].
    2:{ subst out. cbn [fst snd].
        rewrite uninstall_calls_app, (uninstall_calls_none evs1 Hevs1),
          uninstall_calls_uninstalls. cbn [app]. split.
        - now exists rest.
        - intros H. elim H. now rewrite (Hc2 e2 eq_refl). }
    specialize (Hret uninstalled eq_refl). subst rest. rewrite app_nil_r.
    destruct (after_uninstall_emits collection options
                (star_names (get_all_stars w)) conflict_report uninstalled
                (fun ev => is_uninstall ev = false)
                ltac:(reflexivity) ltac:(reflexivity)
                ltac:(intros; split; reflexivity)
                w2 (evs1 ++ map EvUninstall done)) as [evs3 [Htr3 Hevs3]].
    cbv zeta in Htr3. rewrite <- Eout in Htr3. clear Eout.
    destruct out as [[r3 w3] tr3]. cbn [fst snd] in Htr3 |- *. subst tr3.
    rewrite !uninstall_calls_app, (uninstall_calls_none evs1 Hevs1),
      (uninstall_calls_none evs3 Hevs3), uninstall_calls_uninstalls, app_nil_r.
    cbn [app]. split.
    - exists []. now rewrite app_nil_r.
    - reflexivity. }
  destruct Hmain as [[rest Hprefix] Hexact]. split; [now exists rest|].
  split; [exact Hexact|].
  intros n Hn. apply (in_targets_of (names_of (PluginCollection.plugins collection))).
  fold (uninstall_targets World get_all_stars collection w).
  rewrite Hprefix. apply in_or_app. now left.
Qed.


Lemma apply_config_frame (p : string) (options : ImportOptions)
  (installed_before : list (option string)) :
  import_mode options = "add" ->
  overwrite_existing_configs options = false ->
  Star.in_opt_names p installed_before = true ->
  (forall w q cfg, q <> p ->
     get_registered_star (snd (save_config w q cfg)) p = get_registered_star w p) ->
  (forall w q, q <> p ->
     get_registered_star (snd (reload w q)) p = get_registered_star w p) ->
  forall configs_applied item w tr,
    get_registered_star
      (snd (fst (apply_config World get_registered_star save_config reload
                   options installed_before configs_applied item w tr))) p
    = get_registered_star w p.
Proof.
  intros Hmode Hover Hin Hsave Hreload configs_applied [plugin_name cfg] w tr.
  unfold apply_config. destruct cfg; try reflexivity.
  rewrite bindM_run. cbn [read].
  destruct (get_registered_star w plugin_name) as [md|]; [|reflexivity].
  destruct (Star.config md) as [[|entry current]|]; try reflexivity.
  rewrite Hmode, Hover. cbn [String.eqb Ascii.eqb Bool.eqb negb andb].
  rewrite andb_true_r.
  destruct (Star.in_opt_names plugin_name installed_before) eqn:Ein; [reflexivity|].
  assert (Hne : plugin_name <> p) by (intros ->; congruence).
  rewrite bindM_run. unfold try_except at 1, call at 1.
  pose proof (Hsave w plugin_name (dict_merge (entry :: current) kvs) Hne) as Hs.
  destruct (save_config w plugin_name _) as [[u|e] w1]; cbn [snd] in Hs.
  - rewrite bindM_run. unfold try_except, call.
    pose proof (Hreload w1 plugin_name Hne) as Hr.
    destruct (reload w1 plugin_name) as [[u'|e'] w2]; cbn [snd] in Hr.
    + cbn. congruence.
    + destruct (is_Exception e'); cbn; congruence.
  - destruct (is_Exception e); cbn; congruence.
Qed.

Lemma for_each_frame {A B O : Type} (obs : World -> O) (xs : list A)
  (body : B -> A -> M B) :
  (forall acc x w tr, obs (snd (fst (body acc x w tr))) = obs w) ->
  forall acc w tr, obs (snd (fst (for_each World xs acc body w tr))) = obs w.
Proof.
  intros Hbody. induction xs as [|x xs IH]; intros acc w tr; cbn [for_each];
    [reflexivity|].
  rewrite bindM_run. specialize (Hbody acc x w tr).
  destruct (body acc x w tr) as [[[acc'|e] w'] tr']; cbn [fst snd] in Hbody.
  - now rewrite IH.
  - exact Hbody.
Qed.

(** C7. Let [p] be installed before the run, [import_mode = "add"] and
    [overwrite_existing_configs] false.  The config-merge phase logs no
    [save_config] and no [reload] for [p], whatever the document holds under
    its name; when a write or a reload for another plugin leaves the
    registration of [p] alone, the phase ends with [p] registered as it was,
    configuration included; and the whole import logs no config write and no
    reload for [p] either. *)
Theorem config_phase_keeps_existing (p : string) (collection : PluginCollection.t)
  (options : ImportOptions) (installed_before : list (option string)) :
  import_mode options = "add" ->
  overwrite_existing_configs options = false ->
  Star.in_opt_names p installed_before = true ->
  emits World (fun ev => touches_config p ev = false)
    (config_phase World get_registered_star save_config reload
       collection options installed_before) /\
  ((forall w q cfg, q <> p ->
      get_registered_star (snd (save_config w q cfg)) p = get_registered_star w p) ->
   (forall w q, q <> p ->
      get_registered_star (snd (reload w q)) p = get_registered_star w p) ->
   forall w tr,
     get_registered_star
       (snd (fst (config_phase World get_registered_star save_config reload
                    collection options installed_before w tr))) p
     = get_registered_star w p) /\
  (forall w, installed_before = star_names (get_all_stars w) ->
     Forall (fun ev => touches_config p ev = false)
            (snd (import_collection collection options w []))).
Proof.
  intros Hmode Hover Hin.
  assert (Hitems : forall item : string * json,
    (String.eqb (import_mode options) "add" &&
     Star.in_opt_names (fst item) installed_before &&
     negb (overwrite_existing_configs options)) = false ->
    (forall cfg, touches_config p (EvSaveConfig (fst item) cfg) = false) /\
    touches_config p (EvReload (fst item)) = false).
  { intros [plugin_name cfg]. cbn [fst touches_config].
    rewrite Hmode, Hover. cbn [String.eqb Ascii.eqb Bool.eqb negb andb].
    rewrite andb_true_r. intros Hnot.
    assert (Hne : String.eqb plugin_name p = false).
    { apply String.eqb_neq. intros ->. congruence. }
    now split. }
  split; [|split].
  - unfold config_phase. destruct (apply_configs options); [|apply emits_ret].
    destruct (PluginCollection.plugin_configs collection); try apply emits_ret.
    apply emits_for_each. intros acc item _. apply apply_config_emits. apply Hitems.
  - intros Hsave Hreload w tr. unfold config_phase.
    destruct (apply_configs options); [|reflexivity].
    destruct (PluginCollection.plugin_configs collection); try reflexivity.
    apply (for_each_frame (fun w => get_registered_star w p)).
    intros acc item w' tr'. now apply apply_config_frame.
  - intros w ->. unfold Importer.import_collection.
    rewrite Hmode. cbn [String.eqb Ascii.eqb Bool.eqb orb negb].
    rewrite bindM_run. cbn [read].
    match goal with
    | |- Forall _ (snd (?m w [])) =>
        assert (Hemits : emits World (fun ev => touches_config p ev = false) m)
    end.
    { apply emits_bind; [now apply check_conflicts_emits|]. intros conflict_report.
      apply emits_bind; [now apply uninstall_phase_emits|]. intros uninstalled.
      apply after_uninstall_emits; try reflexivity. intros item _. apply Hitems. }
    destruct (Hemits w []) as [evs [Htr Hevs]].
    exact (eq_ind_r (fun l => Forall _ l) Hevs Htr).
Qed.

End Host.
End ImporterFacts.

(** ** The demo host *)

Module DemoFacts.
Import Py PyFacts Models Importer.

Lemma export_round_trip_witness :
  DemoHost.run_export (Exporter.default_ExportOptions "demo") = Return DemoHost.payload /\
  exists doc : PluginCollection.t,
    Exporter.export_collection (DemoHost.stars DemoHost.installed) unit
      DemoHost.failing_get tt (DemoHost.registry DemoHost.installed)
      "2026-01-01T00:00:00+00:00" "4.0.0" (Exporter.default_ExportOptions "demo")
    = Return doc /\
    DemoHost.payload = JObj (PluginCollection.to_dict doc) /\
    PluginCollection.validate_dict demo_repr DemoHost.payload = Return tt /\
    PluginCollection.from_dict demo_repr DemoHost.payload = Return doc.
Proof.
  split; [vm_compute; reflexivity|].
  apply (ExporterFacts.export_round_trip (DemoHost.stars DemoHost.installed) unit
           DemoHost.failing_get tt (DemoHost.registry DemoHost.installed)
           "2026-01-01T00:00:00+00:00" "4.0.0" demo_repr
           (Exporter.default_ExportOptions "demo") DemoHost.payload).
  vm_compute. reflexivity.
Defined.

Lemma validate_dict_reports_every_error_witness :
  JObj DemoHost.broken_payload = JObj DemoHost.broken_payload /\
  dict_get "metadata" DemoHost.broken_payload = Some (JObj DemoHost.broken_metadata) /\
  dict_mem "author" DemoHost.broken_metadata = false /\
  In "license" (dict_keys DemoHost.broken_payload) /\
  ~ In "license" ["schema_version"; "metadata"; "plugins"; "plugin_configs";
                  "handler_priority_overrides"] /\
  (2 <= List.length
          (map PluginCollection.part
               (PluginCollection.sorted_errors demo_repr (JObj DemoHost.broken_payload))))%nat.
Proof.
  assert (Hin : In "license" (dict_keys DemoHost.broken_payload))
    by (cbn; auto).
  assert (Hout : ~ In "license" ["schema_version"; "metadata"; "plugins"; "plugin_configs";
                                 "handler_priority_overrides"])
    by (cbn; intuition discriminate).
  repeat split; try assumption.
  exact (proj2 (proj2 (proj2 (proj2 (proj2 (proj2
           (ModelsFacts.validate_dict_reports_every_error demo_repr
              (JObj DemoHost.broken_payload)))))))
           DemoHost.broken_payload DemoHost.broken_metadata "license"
           eq_refl eq_refl eq_refl Hin Hout).
Defined.

Example validate_dict_broken_payload :
  PluginCollection.validate_dict demo_repr (JObj DemoHost.broken_payload) =
  Raise (CollectionValidationError
           "Additional properties are not allowed ('license' was unexpected); metadata: 'author' is a required property").
Proof. vm_compute. reflexivity. Qed.

Lemma to_dict_omits_absent_fields_witness :
  PluginCollection.handler_priority_overrides DemoHost.plain_document = JNull /\
  dict_mem "handler_priority_overrides"
    (PluginCollection.to_dict DemoHost.plain_document) = false.
Proof.
  split; [reflexivity|].
  exact (proj1 (proj2 (ModelsFacts.to_dict_omits_absent_fields DemoHost.plain_document))
           eq_refl).
Defined.

Lemma apply_priority_overrides_fallback_witness :
  let overrides := JObj [("on_message", JInt 5); ("on_command", JInt 7)] in
  let normalized := [("on_message", 5); ("on_command", 7)] in
  (items <- Compatibility.items_of overrides ;; Compatibility.normalize items [])
    = Return normalized /\
  Compatibility.failing_put tt "handler_priority_overrides"
    (Compatibility.overrides_json normalized) = Raise (Exception "store unavailable") /\
  is_Exception (Exception "store unavailable") = true /\
  fst (fst (Compatibility.apply_priority_overrides unit Compatibility.failing_put
              overrides tt Compatibility.two_handlers)) = Return true.
Proof.
  cbv zeta. split; [reflexivity|]. split; [reflexivity|]. split; [reflexivity|].
  apply (proj1 (proj2 (proj2
           (CompatibilityFacts.apply_priority_overrides_fallback
              unit Compatibility.failing_put
              (JObj [("on_message", JInt 5); ("on_command", JInt 7)])
              tt Compatibility.two_handlers
              [("on_message", 5); ("on_command", 7)]
              (Exception "store unavailable")
              eq_refl eq_refl eq_refl)))).
  eexists. vm_compute. reflexivity.
Defined.

Lemma import_collection_rejects_unknown_mode_witness :
  import_mode (DemoHost.with_mode "replace") <> "add" /\
  import_mode (DemoHost.with_mode "replace") <> "clean" /\
  DemoHost.run_import DemoHost.document (DemoHost.with_mode "replace")
    DemoHost.installed []
  = (Raise (ValueError "import_mode must be 'add' or 'clean'"), DemoHost.installed, []).
Proof.
  split; [discriminate|]. split; [discriminate|].
  apply ImporterFacts.import_collection_rejects_unknown_mode; discriminate.
Defined.

Lemma import_clean_uninstalls_witness :
  import_mode (DemoHost.with_mode "clean") = "clean" /\
  uninstall_calls
    (snd (DemoHost.run_import DemoHost.document (DemoHost.with_mode "clean")
            DemoHost.installed []))
  = uninstall_targets DemoHost.World DemoHost.get_all_stars DemoHost.document
      DemoHost.installed.
Proof.
  split; [reflexivity|].
  apply (proj1 (proj2
           (ImporterFacts.import_clean_uninstalls DemoHost.World DemoHost.get_all_stars
              DemoHost.get_registered_star DemoHost.detect_conflicts
              DemoHost.uninstall_plugin DemoHost.install_plugin DemoHost.save_config
              DemoHost.reload DemoHost.apply_priority_overrides
              DemoHost.document (DemoHost.with_mode "clean") DemoHost.installed eq_refl))
           ltac:(vm_compute; discriminate)).
Defined.

(** Installed A, B and the reserved C, a document that holds A: exactly B
    is uninstalled. *)
Example import_clean_uninstalls_B :
  uninstall_calls
    (snd (DemoHost.run_import DemoHost.document (DemoHost.with_mode "clean")
            DemoHost.installed [])) = ["B"] /\
  uninstall_targets DemoHost.World DemoHost.get_all_stars DemoHost.document
    DemoHost.installed = ["B"].
Proof. vm_compute. split; reflexivity. Qed.

Lemma config_phase_keeps_existing_witness :
  import_mode (DemoHost.with_mode "add") = "add" /\
  overwrite_existing_configs (DemoHost.with_mode "add") = false /\
  Star.in_opt_names "A" (star_names (DemoHost.get_all_stars DemoHost.installed)) = true /\
  Forall (fun ev => touches_config "A" ev = false)
         (snd (DemoHost.run_import DemoHost.document (DemoHost.with_mode "add")
                 DemoHost.installed [])).
Proof.
  split; [reflexivity|]. split; [reflexivity|]. split; [reflexivity|].
  apply (proj2 (proj2
           (ImporterFacts.config_phase_keeps_existing DemoHost.World DemoHost.get_all_stars
              DemoHost.get_registered_star DemoHost.detect_conflicts
              DemoHost.uninstall_plugin DemoHost.install_plugin DemoHost.save_config
              DemoHost.reload DemoHost.apply_priority_overrides
              "A" DemoHost.document (DemoHost.with_mode "add")
              (star_names (DemoHost.get_all_stars DemoHost.installed))
              eq_refl eq_refl eq_refl))).
  reflexivity.
Defined.

(** In "add" mode the configuration of the installed A stays as it was; in
    "clean" mode the document's value for ["mode"] replaces the old one and
    the other keys of A stay. *)
Example import_add_keeps_config_of_A :
  option_map Star.config
    (DemoHost.get_registered_star
       (snd (fst (DemoHost.run_import DemoHost.document (DemoHost.with_mode "add")
                    DemoHost.installed []))) "A")
  = Some (Some [("mode", JStr "quiet"); ("api_key", JStr "sk-abc123")]) /\
  option_map Star.config
    (DemoHost.get_registered_star
       (snd (fst (DemoHost.run_import DemoHost.document (DemoHost.with_mode "clean")
                    DemoHost.installed []))) "A")
  = Some (Some [("mode", JStr "loud"); ("api_key", JStr "sk-abc123")]).
Proof. vm_compute. split; reflexivity. Qed.

(** A failed uninstall is recorded and the next one is still attempted. *)
Example import_continues_after_failed_uninstall :
  let out := DemoHost.run_import DemoHost.plain_document (DemoHost.with_mode "clean")
               DemoHost.installed_stuck [] in
  uninstall_calls (snd out) = ["stuck"; "B"] /\
  option_map (get "uninstalled") (match fst (fst out) with
                                  | Return report => Some report
                                  | Raise _ => None
                                  end)
  = Some (JArr [ JObj [("name", JStr "stuck"); ("status", JStr "error");
                       ("message", JStr "plugin is in use")];
                 JObj [("name", JStr "B"); ("status", JStr "ok")] ]).
Proof. vm_compute. split; reflexivity. Qed.

(** The overrides of the document reach the registry through the fallback:
    [on_command], now of priority 7, moves before [on_message]. *)
Example import_applies_priority_through_registry :
  let out := DemoHost.run_import DemoHost.document (DemoHost.with_mode "add")
               DemoHost.installed [] in
  Compatibility._handlers (DemoHost.registry (snd (fst out))) = [1%nat; 0%nat] /\
  Compatibility.priorities (DemoHost.registry (snd (fst out))) = [Return 7; Return 5] /\
  snd out = [EvApplyPriority (JObj [("on_command", JInt 7)])].
Proof. vm_compute. repeat split. Qed.

End DemoFacts.

(* ================================================================== *)
(** * Part III: further properties of the code                         *)
(* ================================================================== *)

(** ** [sensitive_filter.py]: what the filter leaves, and what counts as
    sensitive *)
Module SensitiveFilterProperties.
Import Py PyFacts SensitiveFilter SensitiveFilterFacts.

Lemma json_induction (P : json -> Prop) :
  P JNull -> (forall b, P (JBool b)) -> (forall n, P (JInt n)) ->
  (forall m e, P (JFloat m e)) -> (forall s, P (JStr s)) ->
  (forall xs, Forall P xs -> P (JArr xs)) ->
  (forall kvs, Forall (fun kv => P (snd kv)) kvs -> P (JObj kvs)) ->
  forall v, P v.
Proof.
  intros Hnull Hbool Hint Hfloat Hstr Harr Hobj.
  fix IH 1. intros [|b|n|m e|s|xs|kvs];
    [apply Hnull | apply Hbool | apply Hint | apply Hfloat | apply Hstr | |].
  - apply Harr. induction xs as [|x xs IHxs]; constructor; [apply IH | exact IHxs].
  - apply Hobj. induction kvs as [|[k v] kvs IHkvs]; constructor; [apply IH | exact IHkvs].
Qed.

Lemma is_value_arr (xs : list json) : is_value (JArr xs) <-> Forall is_value xs.
Proof.
  cbn [is_value]. induction xs as [|x xs IH]; cbn [fold_right].
  - split; [constructor | trivial].
  - rewrite IH. split; [intros [H1 H2]; now constructor | intros H; now inversion H].
Qed.

Lemma is_value_obj (kvs : dict) :
  is_value (JObj kvs) <-> is_dict kvs /\ Forall (fun kv => is_value (snd kv)) kvs.
Proof.
  cbn [is_value]. apply and_iff_compat_l.
  induction kvs as [|kv kvs IH]; cbn [fold_right].
  - split; [constructor | trivial].
  - rewrite IH. split; [intros [H1 H2]; now constructor | intros H; now inversion H].
Qed.

Lemma dict_set_in {V : Type} (k k' : string) (v w : V) (d : list (string * V)) :
  In (k', w) (dict_set k v d) -> (k' = k /\ w = v) \/ In (k', w) d.
Proof.
  induction d as [|[k0 v0] d IH]; cbn [dict_set].
  - intros [[= <- <-]|[]]. now left.
  - destruct (String.eqb k k0) eqn:E.
    + intros [[= <- <-]|H]; [now left | right; now right].
    + intros [H|H]; [right; now left|].
      destruct (IH H) as [H'|H']; [now left | right; now right].
Qed.

Lemma dict_set_keys {V : Type} (k : string) (v : V) (d : list (string * V)) (k' : string) :
  In k' (dict_keys (dict_set k v d)) <-> k' = k \/ In k' (dict_keys d).
Proof.
  unfold dict_keys. induction d as [|[k0 v0] d IH]; cbn [dict_set map In fst].
  - intuition.
  - destruct (String.eqb_spec k k0) as [->|Hne]; cbn [map In fst].
    + intuition.
    + rewrite IH. intuition.
Qed.

Lemma dict_set_is_dict {V : Type} (k : string) (v : V) (d : list (string * V)) :
  is_dict d -> is_dict (dict_set k v d).
Proof.
  unfold is_dict. induction d as [|[k0 v0] d IH]; cbn [dict_set]; intros Hnd.
  - unfold dict_keys. cbn. constructor; [intros [] | constructor].
  - inversion Hnd as [|? ? Hnotin Hnd']; subst.
    destruct (String.eqb_spec k k0) as [->|Hne].
    + unfold dict_keys in *. cbn [map fst] in *. now constructor.
    + change (dict_keys ((k0, v0) :: dict_set k v d)) with (k0 :: dict_keys (dict_set k v d)).
      constructor; [|now apply IH].
      rewrite dict_set_keys. intros [E|H]; [congruence | contradiction].
Qed.

Lemma filter_item_is_dict (recur : json -> json) (acc : dict) (kv : string * json) :
  is_dict acc -> is_dict (filter_item recur acc kv).
Proof.
  destruct kv as [k v]. unfold filter_item.
  destruct (is_sensitive_key k); [trivial|].
  destruct (is_sensitive_value v); [trivial|].
  apply dict_set_is_dict.
Qed.

Lemma fold_filter_is_dict (recur : json -> json) (kvs acc : dict) :
  is_dict acc -> is_dict (fold_left (filter_item recur) kvs acc).
Proof.
  revert acc. induction kvs as [|kv kvs IH]; cbn [fold_left]; intros acc H; [exact H|].
  apply IH. now apply filter_item_is_dict.
Qed.

(** Every entry the loop leaves in [filtered] comes from an entry of the
    input that it did not skip. *)
Lemma fold_filter_entries (recur : json -> json) (kvs acc : dict) (k : string) (w : json) :
  In (k, w) (fold_left (filter_item recur) kvs acc) ->
  In (k, w) acc \/
  exists v, In (k, v) kvs /\ is_sensitive_key k = false /\
            is_sensitive_value v = false /\ w = recur v.
Proof.
  revert acc. induction kvs as [|[k0 v0] kvs IH]; cbn [fold_left]; intros acc H;
    [now left|].
  apply IH in H. destruct H as [H | (v & Hin & Hk & Hv & ->)].
  - unfold filter_item in H.
    destruct (is_sensitive_key k0) eqn:Ek; [now left|].
    destruct (is_sensitive_value v0) eqn:Ev; [now left|].
    apply dict_set_in in H. destruct H as [[-> ->]|H]; [|now left].
    right. exists v0. repeat split; trivial. now left.
  - right. exists v. repeat split; trivial. now right.
Qed.

Lemma scrubbed_unfold (depth max_depth : Z) (data : json) :
  scrubbed depth max_depth data =
  if depth >? max_depth then true
  else
    match data with
    | JObj kvs =>
        forallb (fun kv : string * json =>
                   negb (is_sensitive_key (fst kv)) && negb (is_sensitive_value (snd kv)) &&
                   scrubbed (depth + 1) max_depth (snd kv)) kvs
    | JArr xs => forallb (scrubbed (depth + 1) max_depth) xs
    | _ => negb (is_sensitive_value data)
    end.
Proof. destruct data; reflexivity. Qed.

(** The filter never turns a value into a sensitive string. *)
Lemma filter_data_not_sensitive (depth max_depth : Z) (v : json) :
  is_sensitive_value v = false ->
  is_sensitive_value (filter_data depth max_depth v) = false.
Proof.
  intros Hv. rewrite filter_data_unfold.
  destruct (depth >? max_depth); [exact Hv|].
  destruct v; try reflexivity; now rewrite Hv.
Qed.

Lemma filter_data_scrubbed (data : json) :
  forall depth max_depth, scrubbed depth max_depth (filter_data depth max_depth data) = true.
Proof.
  induction data as [|b|n|m e|s|xs IH|kvs IH] using json_induction;
    intros depth max_depth;
    rewrite filter_data_unfold;
    destruct (depth >? max_depth) eqn:Ed;
    try (rewrite scrubbed_unfold, Ed; reflexivity).
  - destruct (is_sensitive_value (JStr s)) eqn:Es; rewrite scrubbed_unfold, Ed;
      [reflexivity | now rewrite Es].
  - rewrite scrubbed_unfold, Ed. apply forallb_forall. intros y Hy.
    apply in_map_iff in Hy. destruct Hy as [x [<- Hx]].
    rewrite Forall_forall in IH. now apply IH.
  - rewrite scrubbed_unfold, Ed. apply forallb_forall. intros [k w] Hin.
    apply fold_filter_entries in Hin. destruct Hin as [[] | (v & Hin & Hk & Hv & ->)].
    cbn [fst snd]. rewrite Hk, filter_data_not_sensitive by exact Hv.
    rewrite Forall_forall in IH. now rewrite (IH (k, v) Hin).
Qed.

Lemma map_id_in {A : Type} (f : A -> A) (l : list A) :
  (forall x, In x l -> f x = x) -> map f l = l.
Proof.
  induction l as [|x l IH]; cbn [map]; intros H; [reflexivity|].
  rewrite H by now left. rewrite IH; [reflexivity|]. intros y Hy. apply H. now right.
Qed.

Lemma filter_all {A : Type} (f : A -> bool) (l : list A) :
  (forall x, In x l -> f x = true) -> filter f l = l.
Proof.
  induction l as [|x l IH]; cbn [filter]; intros H; [reflexivity|].
  rewrite H by now left. rewrite IH; [reflexivity|]. intros y Hy. apply H. now right.
Qed.

(** X2. Filtering twice is filtering once: [filter_data] gives back
    unchanged what it has already returned. *)
Theorem filter_data_idempotent (data : json) :
  forall depth max_depth,
    filter_data depth max_depth (filter_data depth max_depth data) =
    filter_data depth max_depth data.
Proof.
  assert (Hscalar : forall v depth max_depth,
            (depth >? max_depth) = false ->
            (forall xs, v <> JArr xs) -> (forall kvs, v <> JObj kvs) ->
            filter_data depth max_depth (filter_data depth max_depth v) =
            filter_data depth max_depth v).
  { intros v depth max_depth Ed Harr Hobj.
    assert (E : filter_data depth max_depth v = if is_sensitive_value v then JNull else v).
    { rewrite filter_data_unfold, Ed.
      destruct v; try reflexivity; [now elim (Harr xs) | now elim (Hobj kvs)]. }
    rewrite E. destruct (is_sensitive_value v) eqn:Es.
    - rewrite filter_data_unfold, Ed. reflexivity.
    - exact E. }
  induction data as [|b|n|m e|s|xs IH|kvs IH] using json_induction;
    intros depth max_depth;
    destruct (depth >? max_depth) eqn:Ed;
    try (rewrite !(filter_data_beyond depth max_depth) by (apply Z.gtb_lt in Ed; lia);
         reflexivity);
    try (apply Hscalar; [exact Ed | discriminate | discriminate]).
  - rewrite (filter_data_unfold depth max_depth (JArr xs)), Ed.
    rewrite filter_data_unfold, Ed. f_equal. rewrite map_map. apply map_ext_in.
    intros x Hx. rewrite Forall_forall in IH. now apply IH.
  - rewrite (filter_data_unfold depth max_depth (JObj kvs)), Ed.
    set (recur := filter_data (depth + 1) max_depth).
    set (out := fold_left (filter_item recur) kvs []).
    assert (Hd : is_dict out) by (apply fold_filter_is_dict; constructor).
    assert (Hout : forall k w, In (k, w) out ->
              kept (k, w) = true /\ recur w = w).
    { intros k w Hin. apply fold_filter_entries in Hin.
      destruct Hin as [[] | (v & Hin & Hk & Hv & ->)].
      split.
      - unfold kept. cbn [fst snd]. unfold recur.
        now rewrite Hk, filter_data_not_sensitive.
      - rewrite Forall_forall in IH. apply (IH (k, v) Hin). }
    rewrite filter_data_unfold, Ed. f_equal. fold recur.
    rewrite fold_filter_item; [|exact Hd|intros k _ []]. cbn [app].
    rewrite filter_all by (intros [k w] Hin; now apply Hout).
    apply map_id_in. intros [k w] Hin. cbn [fst snd]. f_equal. now apply (Hout k w).
Qed.

(** X3. A value that holds nothing sensitive down to the depth bound comes
    back as it went in: the filter drops no entry, renames no key and
    reorders nothing. *)
Theorem filter_data_keeps_clean (data : json) :
  forall depth max_depth,
    is_value data -> scrubbed depth max_depth data = true ->
    filter_data depth max_depth data = data.
Proof.
  induction data as [|b|n|m e|s|xs IH|kvs IH] using json_induction;
    intros depth max_depth Hval;
    rewrite scrubbed_unfold, filter_data_unfold;
    destruct (depth >? max_depth) eqn:Ed; try reflexivity; intros Hs.
  - apply negb_true_iff in Hs. now rewrite Hs.
  - f_equal. apply map_id_in. intros x Hx.
    rewrite Forall_forall in IH. apply is_value_arr in Hval.
    rewrite Forall_forall in Hval. rewrite forallb_forall in Hs. now apply IH; auto.
  - apply is_value_obj in Hval. destruct Hval as [Hd Hvals].
    rewrite Forall_forall in IH, Hvals. rewrite forallb_forall in Hs.
    f_equal. rewrite fold_filter_item; [|exact Hd|intros k _ []]. cbn [app].
    rewrite filter_all.
    + apply map_id_in. intros [k v] Hin. cbn [fst snd]. f_equal.
      specialize (Hs _ Hin). cbn [fst snd] in Hs.
      apply andb_true_iff in Hs. destruct Hs as [_ Hs].
      apply (IH (k, v) Hin); [apply (Hvals (k, v) Hin) | exact Hs].
    + intros [k v] Hin. specialize (Hs _ Hin). cbn [fst snd] in Hs.
      apply andb_true_iff in Hs. destruct Hs as [Hs _].
      apply andb_true_iff in Hs. destruct Hs as [Hk Hv].
      unfold kept. cbn [fst snd].
      apply negb_true_iff in Hk, Hv. now rewrite Hk, Hv.
Qed.

(** X1. Whatever value goes in, what [filter_data] returns holds nothing
    sensitive down to the depth bound: no mapping has an entry with a
    sensitive key or a sensitive value, and no list and no result is a
    sensitive string; this holds for every start depth and every bound. *)
Theorem filter_data_scrubs (data : json) (depth max_depth : Z) :
  scrubbed depth max_depth (filter_data depth max_depth data) = true.
Proof. apply filter_data_scrubbed. Qed.

Lemma filter_data_keeps_clean_witness :
  let cfg := JObj [("mode", JStr "quiet"); ("levels", JArr [JInt 1; JStr "two"]);
                   ("nested", JObj [("enabled", JBool true)])] in
  is_value cfg /\ scrubbed 0 20 cfg = true /\ filter_data 0 20 cfg = cfg.
Proof.
  cbv zeta.
  assert (Hval : is_value (JObj [("mode", JStr "quiet");
                                 ("levels", JArr [JInt 1; JStr "two"]);
                                 ("nested", JObj [("enabled", JBool true)])])).
  { cbn [is_value fold_right snd]. unfold is_dict, dict_keys. cbn [map fst].
    repeat split;
      repeat (constructor; [cbn [In]; intuition discriminate|]); constructor. }
  split; [exact Hval|]. split; [vm_compute; reflexivity|].
  apply (filter_data_keeps_clean _ 0 20 Hval). vm_compute. reflexivity.
Defined.

Section Strings.
Local Open Scope string_scope.

Lemma append_assoc (a b c : string) : (a ++ b) ++ c = a ++ (b ++ c).
Proof. induction a as [|x a IH]; cbn; [reflexivity | now rewrite IH]. Qed.

Lemma append_nil_r (a : string) : a ++ "" = a.
Proof. induction a as [|x a IH]; cbn; [reflexivity | now rewrite IH]. Qed.

Lemma lower_app (a b : string) : lower (a ++ b) = lower a ++ lower b.
Proof. induction a as [|x a IH]; cbn; [reflexivity | now rewrite IH]. Qed.

Lemma lower_ascii_idem (c : ascii) : lower_ascii (lower_ascii c) = lower_ascii c.
Proof.
  destruct c as [[] [] [] [] [] [] [] []]; reflexivity.
Qed.

Lemma lower_idem (s : string) : lower (lower s) = lower s.
Proof.
  induction s as [|c s IH]; cbn [lower]; [reflexivity|].
  now rewrite lower_ascii_idem, IH.
Qed.

Lemma prefix_spec (n h : string) : String.prefix n h = true <-> exists b, h = n ++ b.
Proof.
  revert h. induction n as [|c n IH]; intros h.
  - split; [intros _; now exists h | intros _; destruct h; reflexivity].
  - destruct h as [|d h]; cbn [String.prefix].
    + split; [discriminate | intros [b Hb]; discriminate].
    + destruct (Ascii.ascii_dec c d) as [->|Hne].
      * rewrite IH. split; intros [b Hb]; exists b; cbn in *; congruence.
      * split; [discriminate | intros [b Hb]; cbn in Hb; congruence].
Qed.

Lemma contains_spec (n h : string) :
  contains n h = true <-> exists a b, h = a ++ n ++ b.
Proof.
  induction h as [|d h IH]; cbn [contains].
  - destruct (String.prefix n "") eqn:Ep.
    + split; [intros _ | reflexivity].
      apply prefix_spec in Ep. destruct Ep as [b Hb]. now exists "", b.
    + split; [discriminate|]. intros (a & b & H).
      destruct a; [|discriminate]. cbn in H.
      assert (String.prefix n "" = true) by (apply prefix_spec; now exists b).
      congruence.
  - destruct (String.prefix n (String d h)) eqn:Ep.
    + split; [intros _ | reflexivity].
      apply prefix_spec in Ep. destruct Ep as [b Hb]. now exists "", b.
    + rewrite IH. split.
      * intros (a & b & ->). now exists (String d a), b.
      * intros (a & b & H). destruct a as [|x a].
        -- cbn in H. assert (String.prefix n (String d h) = true)
             by (apply prefix_spec; now exists b). congruence.
        -- cbn in H. injection H as -> ->. now exists a, b.
Qed.

Lemma contains_app (n a h b : string) :
  contains n h = true -> contains n (a ++ h ++ b) = true.
Proof.
  rewrite !contains_spec. intros (x & y & ->).
  exists (a ++ x), (y ++ b). now rewrite !append_assoc.
Qed.

Lemma lang_lit_i (t p : string) : lang (lit_i t) p <-> lower p = lower t.
Proof.
  revert p. induction t as [|c t IH]; intros p; cbn [lit_i lower].
  - split.
    + intros H. inversion H. reflexivity.
    + destruct p; [constructor | discriminate].
  - split.
    + intros H. inversion H as [| |? ? s1 s2 H1 H2| | | |]; subst.
      inversion H1 as [|? x Hx| | | | |]; subst. cbn [append lower].
      apply Ascii.eqb_eq in Hx. rewrite Hx. f_equal. now apply IH.
    + destruct p as [|x p]; [discriminate|]. cbn [lower]. intros [= Hx Hp].
      change (String x p) with (String x "" ++ p). constructor; [|now apply IH].
      constructor. now apply Ascii.eqb_eq.
Qed.

Lemma lower_app_inv (p a b : string) :
  lower p = a ++ b -> exists p1 p2, p = p1 ++ p2 /\ lower p1 = a /\ lower p2 = b.
Proof.
  revert p. induction a as [|c a IH]; intros p H.
  - now exists "", p.
  - destruct p as [|x p]; [discriminate|]. cbn in H. injection H as Hx Hp.
    destruct (IH p Hp) as (p1 & p2 & -> & H1 & H2).
    exists (String x p1), p2. cbn. now rewrite Hx, H1.
Qed.

Lemma lang_star_class (f : ascii -> bool) (s : string) :
  lang (Star (Class f)) s <-> all_of f s = true.
Proof.
  split.
  - intros H. remember (Star (Class f)) as r eqn:Er.
    induction H as [| | | | | |r0 s1 s2 H1 _ H2 IH2]; try discriminate; [reflexivity|].
    injection Er as ->. inversion H1; subst. cbn [append all_of].
    rewrite IH2 by reflexivity. now rewrite andb_true_r.
  - induction s as [|c s IH]; cbn [all_of]; intros H; [constructor|].
    apply andb_true_iff in H. destruct H as [Hc Hs].
    change (String c s) with (String c "" ++ s).
    constructor; [now constructor | now apply IH].
Qed.

Lemma lang_plus_class (f : ascii -> bool) (s : string) :
  lang (plus (Class f)) s <-> s <> "" /\ all_of f s = true.
Proof.
  unfold plus. split.
  - intros H. inversion H as [| |? ? s1 s2 H1 H2| | | |]; subst.
    inversion H1; subst. apply lang_star_class in H2. cbn [append all_of].
    split; [discriminate|]. now rewrite H2, andb_true_r.
  - intros [Hne H]. destruct s as [|c s]; [congruence|]. cbn [all_of] in H.
    apply andb_true_iff in H. destruct H as [Hc Hs].
    change (String c s) with (String c "" ++ s).
    constructor; [now constructor | now apply lang_star_class].
Qed.

Lemma lang_opt (r : regex) (s : string) : lang (opt r) s <-> lang r s \/ s = "".
Proof.
  unfold opt. split.
  - intros H. inversion H; subst; [now left|].
    match goal with H : lang Eps _ |- _ => inversion H end. now right.
  - intros [H| ->]; [now apply LAltL | apply LAltR; constructor].
Qed.

Lemma lang_seq_inv (r1 r2 : regex) (s : string) :
  lang (Seq r1 r2) s <-> exists s1 s2, s = s1 ++ s2 /\ lang r1 s1 /\ lang r2 s2.
Proof.
  split.
  - intros H. inversion H; subst. eauto.
  - intros (s1 & s2 & -> & H1 & H2). now constructor.
Qed.

Lemma lang_eps (s : string) : lang Eps s <-> s = "".
Proof. split; [intros H; now inversion H | intros ->; constructor]. Qed.

End Strings.

(** A key that one of the suffix patterns matches ends with the suffix. *)
Lemma ends_with_inv (suffix : regex) (key : string) :
  fullmatch (ends_with suffix) key = true ->
  exists pre t, key = (pre ++ t)%string /\ lang suffix t.
Proof.
  intros H. apply fullmatch_spec in H. unfold ends_with, eol in H.
  apply lang_seq_inv in H. destruct H as (pre & rest & -> & _ & H).
  apply lang_seq_inv in H. destruct H as (t & e & -> & Ht & He).
  apply lang_eps in He. subst e. rewrite append_nil_r. eauto.
Qed.

Lemma suffix_literal (kw a key : string) :
  contains kw (lower a) = true ->
  fullmatch (ends_with (lit_i a)) key = true ->
  contains kw (lower key) = true.
Proof.
  intros Hkw H. apply ends_with_inv in H. destruct H as (pre & t & -> & Ht).
  apply lang_lit_i in Ht. rewrite lower_app, Ht.
  rewrite <- (append_nil_r (lower a)). now apply contains_app.
Qed.

Lemma suffix_literal_opt (kw a b key : string) :
  contains kw (lower a) = true ->
  fullmatch (ends_with (Seq (lit_i a) (opt (lit_i b)))) key = true ->
  contains kw (lower key) = true.
Proof.
  intros Hkw H. apply ends_with_inv in H. destruct H as (pre & t & -> & Ht).
  apply lang_seq_inv in Ht. destruct Ht as (t1 & t2 & -> & H1 & _).
  apply lang_lit_i in H1. rewrite !lower_app, H1. now apply contains_app.
Qed.

Ltac in_keywords :=
  unfold SENSITIVE_KEYWORDS; cbn [In]; repeat (first [left; reflexivity | right]).

Ltac by_keyword Hkw Hp kw :=
  apply (Hkw kw);
  [ in_keywords
  | first [eapply suffix_literal; [|exact Hp] | eapply suffix_literal_opt; [|exact Hp]];
    reflexivity ].

Lemma is_sensitive_key_by_keyword (key : string) :
  is_sensitive_key key =
  existsb (fun k => contains k (lower key)) SENSITIVE_KEYWORDS.
Proof.
  unfold is_sensitive_key.
  destruct (existsb (fun k => contains k (lower key)) SENSITIVE_KEYWORDS) eqn:Ek;
    [reflexivity|].
  apply not_true_is_false. intros Hp. apply not_true_iff_false in Ek. apply Ek. clear Ek.
  assert (Hkw : forall kw, In kw SENSITIVE_KEYWORDS -> contains kw (lower key) = true ->
                existsb (fun k => contains k (lower key)) SENSITIVE_KEYWORDS = true).
  { intros kw Hin Hc. apply existsb_exists. now exists kw. }
  unfold SENSITIVE_KEY_PATTERNS in Hp. cbn [existsb] in Hp.
  repeat match type of Hp with
         | (_ || _) = true => apply orb_true_iff in Hp; destruct Hp as [Hp|Hp]
         end.
  all: try discriminate Hp.
  all: first [ by_keyword Hkw Hp "key"
          | by_keyword Hkw Hp "secret"
          | by_keyword Hkw Hp "token"
          | by_keyword Hkw Hp "password"
          | by_keyword Hkw Hp "credential"
          | by_keyword Hkw Hp "group"
          | by_keyword Hkw Hp "guild"
          | by_keyword Hkw Hp "channel"
          | by_keyword Hkw Hp "user"
          | by_keyword Hkw Hp "qq"
          | by_keyword Hkw Hp "uin"
          | by_keyword Hkw Hp "openid"
          | by_keyword Hkw Hp "endpoint"
          | by_keyword Hkw Hp "api_base"
          | by_keyword Hkw Hp "url"
          | by_keyword Hkw Hp "uri"
          | by_keyword Hkw Hp "webhook"
          | by_keyword Hkw Hp "callback"
          | by_keyword Hkw Hp "host"
          | by_keyword Hkw Hp "domain" ].
Qed.

Lemma is_sensitive_key_lower (k1 k2 : string) :
  lower k1 = lower k2 -> is_sensitive_key k1 = is_sensitive_key k2.
Proof. intros H. now rewrite !is_sensitive_key_by_keyword, H. Qed.

Lemma is_sensitive_key_embedded (a k b : string) :
  is_sensitive_key k = true -> is_sensitive_key (a ++ k ++ b)%string = true.
Proof.
  rewrite !is_sensitive_key_by_keyword, !existsb_exists.
  intros [kw [Hin Hc]]. exists kw. split; [exact Hin|].
  rewrite !lower_app. now apply contains_app.
Qed.

(** X4. A key is sensitive exactly when its lower-case form contains one of
    the keywords: the suffix patterns add nothing to the keyword search.
    So the test does not see the case of the key, and a key stays sensitive
    whatever is written before and after it. *)
Theorem is_sensitive_key_is_keyword_search :
  (forall key,
     is_sensitive_key key = true <->
     exists kw a b, In kw SENSITIVE_KEYWORDS /\ lower key = (a ++ kw ++ b)%string) /\
  (forall k1 k2, lower k1 = lower k2 -> is_sensitive_key k1 = is_sensitive_key k2) /\
  (forall a k b,
     is_sensitive_key k = true -> is_sensitive_key (a ++ k ++ b)%string = true).
Proof.
  split; [|split].
  - intros key. rewrite is_sensitive_key_by_keyword, existsb_exists. split.
    + intros (kw & Hin & Hc). apply contains_spec in Hc.
      destruct Hc as (a & b & Hc). now exists kw, a, b.
    + intros (kw & a & b & Hin & Hc). exists kw. split; [exact Hin|].
      apply contains_spec. now exists a, b.
  - apply is_sensitive_key_lower.
  - apply is_sensitive_key_embedded.
Qed.

Lemma is_sensitive_key_is_keyword_search_witness :
  lower "OpenAI_API_Key" = ("openai_api_" ++ "key" ++ "")%string /\
  is_sensitive_key "OpenAI_API_Key" = true /\
  is_sensitive_key "monkeys" = true.
Proof.
  split; [reflexivity|]. split.
  - apply (proj1 is_sensitive_key_is_keyword_search "OpenAI_API_Key").
    exists "key", "openai_api_", "". split; [in_keywords | reflexivity].
  - apply (proj2 (proj2 is_sensitive_key_is_keyword_search) "mon" "key" "s").
    vm_compute. reflexivity.
Defined.

Section Values.
Local Open Scope string_scope.

Lemma lang_scheme (scheme s1 : string) :
  lang (Seq bol (Seq (lit_i scheme)
          (Seq (opt (lit_i "s")) (Seq (lit_i "://") (plus dot))))) s1 <->
  exists p ds, s1 = p ++ ds /\
    (lower p = lower scheme ++ "://" \/ lower p = lower scheme ++ "s://") /\
    ds <> "" /\ all_of (fun x => negb (Ascii.eqb x newline)) ds = true.
Proof.
  unfold bol, dot. split.
  - intros H.
    apply lang_seq_inv in H. destruct H as (e & r1 & -> & He & H).
    apply lang_eps in He. subst e.
    apply lang_seq_inv in H. destruct H as (h & r2 & -> & Hh & H).
    apply lang_seq_inv in H. destruct H as (o & r3 & -> & Ho & H).
    apply lang_seq_inv in H. destruct H as (sl & ds & -> & Hsl & Hds).
    apply lang_lit_i in Hh, Hsl. apply lang_opt in Ho. apply lang_plus_class in Hds.
    exists (h ++ o ++ sl), ds. split; [cbn [append]; now rewrite !append_assoc|].
    split; [|exact Hds].
    rewrite !lower_app, Hh, Hsl.
    destruct Ho as [Ho| ->]; [apply lang_lit_i in Ho; rewrite Ho; now right | now left].
  - intros (p & ds & -> & Hp & Hds).
    apply lang_plus_class in Hds.
    change (p ++ ds) with ("" ++ (p ++ ds)). apply LSeq; [apply LEps|].
    destruct Hp as [Hp|Hp].
    + apply lower_app_inv in Hp. destruct Hp as (h & sl & -> & Hh & Hsl).
      rewrite append_assoc. apply LSeq; [now apply lang_lit_i|].
      change (sl ++ ds) with ("" ++ (sl ++ ds)).
      apply LSeq; [apply lang_opt; now right|].
      apply LSeq; [now apply lang_lit_i | exact Hds].
    + apply lower_app_inv in Hp. destruct Hp as (h & t & -> & Hh & Ht).
      change "s://" with ("s" ++ "://") in Ht.
      apply lower_app_inv in Ht. destruct Ht as (o & sl & -> & Ho & Hsl).
      rewrite !append_assoc. apply LSeq; [now apply lang_lit_i|].
      apply LSeq; [apply lang_opt; left; now apply lang_lit_i|].
      apply LSeq; [now apply lang_lit_i | exact Hds].
Qed.

Lemma all_of_cons_inv (f : ascii -> bool) (ds : string) :
  ds <> "" -> all_of f ds = true -> exists c rest, ds = String c rest /\ f c = true.
Proof.
  destruct ds as [|c rest]; [congruence|]. cbn [all_of]. intros _ H.
  apply andb_true_iff in H. destruct H as [Hc _]. now exists c, rest.
Qed.

Lemma not_newline (c : ascii) : negb (Ascii.eqb c newline) = true <-> c <> newline.
Proof.
  rewrite negb_true_iff. split.
  - intros H ->. now rewrite Ascii.eqb_refl in H.
  - intros H. now apply Ascii.eqb_neq.
Qed.

Lemma rmatch_scheme (scheme s : string) :
  rmatch (Seq bol (Seq (lit_i scheme)
            (Seq (opt (lit_i "s")) (Seq (lit_i "://") (plus dot))))) s = true <->
  exists p c rest, s = p ++ String c rest /\
    (lower p = lower scheme ++ "://" \/ lower p = lower scheme ++ "s://") /\
    c <> newline.
Proof.
  rewrite rmatch_spec. split.
  - intros (s1 & s2 & -> & H). apply lang_scheme in H.
    destruct H as (p & ds & -> & Hp & Hne & Hds).
    destruct (all_of_cons_inv _ _ Hne Hds) as (c & rest & -> & Hc).
    exists p, c, (rest ++ s2). split; [now rewrite append_assoc|].
    split; [exact Hp | now apply not_newline].
  - intros (p & c & rest & -> & Hp & Hc).
    exists (p ++ String c ""), rest. split; [now rewrite append_assoc|].
    apply lang_scheme. exists p, (String c ""). split; [reflexivity|].
    split; [exact Hp|]. split; [discriminate|].
    cbn [all_of]. rewrite andb_true_r. now apply not_newline.
Qed.

Lemma rmatch_sk (s : string) :
  rmatch (Seq bol (Seq (lit_i "sk-") (Star dot))) s = true <->
  exists p rest, s = p ++ rest /\ lower p = "sk-".
Proof.
  rewrite rmatch_spec. unfold bol. split.
  - intros (s1 & s2 & -> & H).
    apply lang_seq_inv in H. destruct H as (e & r1 & -> & He & H).
    apply lang_eps in He. subst e.
    apply lang_seq_inv in H. destruct H as (p & ds & -> & Hp & _).
    apply lang_lit_i in Hp. exists p, (ds ++ s2). cbn [append].
    split; [now rewrite append_assoc | exact Hp].
  - intros (p & rest & -> & Hp). exists p, rest. split; [reflexivity|].
    change p with ("" ++ p). apply LSeq; [apply LEps|].
    rewrite <- (append_nil_r p). apply LSeq; [now apply lang_lit_i | apply LStarNil].
Qed.

Lemma rmatch_bearer (s : string) :
  rmatch (Seq bol (Seq (lit_i "bearer") (Seq (plus space) (plus dot)))) s = true <->
  exists p ws c rest, s = p ++ ws ++ String c rest /\ lower p = "bearer" /\
    ws <> "" /\ all_of is_space ws = true /\ c <> newline.
Proof.
  rewrite rmatch_spec. unfold bol, space, dot. split.
  - intros (s1 & s2 & -> & H).
    apply lang_seq_inv in H. destruct H as (e & r1 & -> & He & H).
    apply lang_eps in He. subst e.
    apply lang_seq_inv in H. destruct H as (p & r2 & -> & Hp & H).
    apply lang_seq_inv in H. destruct H as (ws & ds & -> & Hws & Hds).
    apply lang_lit_i in Hp. apply lang_plus_class in Hws, Hds.
    destruct Hws as [Hne Hws]. destruct Hds as [Hne' Hds].
    destruct (all_of_cons_inv _ _ Hne' Hds) as (c & rest & -> & Hc).
    exists p, ws, c, (rest ++ s2). cbn [append].
    split; [now rewrite !append_assoc|].
    repeat split; trivial. now apply (not_newline c).
  - intros (p & ws & c & rest & -> & Hp & Hne & Hws & Hc).
    exists (p ++ ws ++ String c ""), rest.
    split; [now rewrite !append_assoc|].
    change (p ++ ws ++ String c "") with ("" ++ (p ++ ws ++ String c "")).
    apply LSeq; [apply LEps|].
    apply LSeq; [now apply lang_lit_i|].
    apply LSeq; [now apply lang_plus_class|].
    apply lang_plus_class. split; [discriminate|]. cbn [all_of].
    rewrite andb_true_r. now apply (not_newline c).
Qed.

Lemma is_sensitive_string_shape (v : string) :
  is_sensitive_value (JStr v) = true <->
  (exists p rest, strip v = p ++ rest /\ lower p = "sk-") \/
  (exists p ws c rest, strip v = p ++ ws ++ String c rest /\ lower p = "bearer" /\
     ws <> "" /\ all_of is_space ws = true /\ c <> newline) \/
  (exists p c rest, strip v = p ++ String c rest /\
     In (lower p) ["http://"; "https://"; "ws://"; "wss://"] /\ c <> newline).
Proof.
  unfold is_sensitive_value, SENSITIVE_VALUE_PATTERNS. cbn [existsb].
  rewrite orb_false_r, !orb_true_iff, rmatch_sk, rmatch_bearer, !rmatch_scheme.
  cbn [lower lower_ascii append In]. 
  split.
  - intros [H|[H|[H|H]]]; [now left | right; now left | right; right | right; right];
      destruct H as (p & c & rest & Hs & Hp & Hc); exists p, c, rest;
      (split; [exact Hs|]); (split; [|exact Hc]);
      destruct Hp as [Hp|Hp]; rewrite Hp; cbn; tauto.
  - intros [H|[H|H]]; [now left | right; now left|].
    destruct H as (p & c & rest & Hs & Hp & Hc).
    destruct Hp as [Hp|[Hp|[Hp|[Hp|[]]]]]; symmetry in Hp.
    + right; right; left. exists p, c, rest. repeat split; trivial. now left.
    + right; right; left. exists p, c, rest. repeat split; trivial. now right.
    + right; right; right. exists p, c, rest. repeat split; trivial. now left.
    + right; right; right. exists p, c, rest. repeat split; trivial. now right.
Qed.

(** X5. A value is sensitive exactly when it is a string that, once
    stripped, starts with [sk-], or with [bearer], white space and one more
    character, or with [http://], [https://], [ws://] or [wss://] and one
    more character; the prefix in any case, the character after it no line
    feed.  Anything that is not a string is never sensitive. *)
Theorem is_sensitive_value_shape (value : json) :
  is_sensitive_value value = true <->
  exists v, value = JStr v /\
    ((exists p rest, strip v = p ++ rest /\ lower p = "sk-") \/
     (exists p ws c rest, strip v = p ++ ws ++ String c rest /\ lower p = "bearer" /\
        ws <> "" /\ all_of is_space ws = true /\ c <> newline) \/
     (exists p c rest, strip v = p ++ String c rest /\
        In (lower p) ["http://"; "https://"; "ws://"; "wss://"] /\ c <> newline)).
Proof.
  split.
  - destruct value as [| | | |v| |]; try discriminate.
    intros H. exists v. split; [reflexivity|]. now apply is_sensitive_string_shape.
  - intros (v & -> & H). now apply is_sensitive_string_shape.
Qed.

Lemma is_sensitive_value_shape_witness :
  strip "  Bearer  abc " = "Bearer" ++ "  " ++ String "a" "bc" /\
  is_sensitive_value (JStr "  Bearer  abc ") = true /\
  is_sensitive_value (JStr "skate") = false.
Proof.
  split; [reflexivity|]. split; [|reflexivity].
  apply (proj2 (is_sensitive_value_shape (JStr "  Bearer  abc "))).
  exists "  Bearer  abc ". split; [reflexivity|]. right. left.
  exists "Bearer", "  ", "a"%char, "bc".
  repeat split; [discriminate | discriminate].
Defined.

End Values.

End SensitiveFilterProperties.

(** ** [models.py]: the payloads the schema accepts, and [from_dict] *)
Module ModelsProperties.
Import SensitiveFilterProperties.
Import Py PyFacts Models ModelsFacts.

Section Passing.
Variable py_repr : json -> string.

Local Abbreviation kerr := (keyword_errors py_repr).
Local Abbreviation passes := (passes py_repr).

Lemma flat_map_nil_inv {A B : Type} (f : A -> list B) (l : list A) :
  flat_map f l = [] -> forall x, In x l -> f x = [].
Proof.
  induction l as [|a l IH]; cbn [flat_map]; intros H x Hx; [destruct Hx|].
  apply app_eq_nil in H. destruct H as [Ha Hl].
  destruct Hx as [<-|Hx]; [exact Ha | now apply IH].
Qed.

Lemma passes_iff (s : schema) (at_path : list path_elem) (v : json) :
  flat_map (fun k => kerr s k at_path v) s = [] <-> passes s at_path v.
Proof.
  split; [intros H k Hk; exact (flat_map_nil_inv _ _ H k Hk) | apply flat_map_nil].
Qed.

Lemma passes_type (s : schema) (p : list path_elem) (v : json) (ts : list jtype) :
  passes s p v -> In (KType ts) s -> existsb (is_type v) ts = true.
Proof.
  intros H Hin. specialize (H _ Hin). cbn [keyword_errors] in H.
  destruct (existsb (is_type v) ts); [reflexivity | discriminate].
Qed.

Lemma passes_required (s : schema) (p : list path_elem) (d : dict) (names : list string)
  (n : string) :
  passes s p (JObj d) -> In (KRequired names) s -> In n names -> dict_mem n d = true.
Proof.
  intros H Hin Hn. specialize (H _ Hin). cbn [keyword_errors] in H.
  pose proof (flat_map_nil_inv _ _ H n Hn) as E. cbn beta in E.
  destruct (dict_mem n d); [reflexivity | discriminate].
Qed.

Lemma passes_closed (s : schema) (p : list path_elem) (d : dict) (k : string) :
  passes s p (JObj d) -> In (KAdditionalProperties false) s ->
  In k (dict_keys d) -> In k (schema_properties s).
Proof.
  intros H Hin Hk. specialize (H _ Hin). cbn [keyword_errors] in H.
  destruct (find_additional_properties d s) as [|x extras] eqn:Ex; [|discriminate].
  destruct (existsb (String.eqb k) (schema_properties s)) eqn:Eb.
  - apply existsb_exists in Eb. destruct Eb as [n [Hn E]].
    apply String.eqb_eq in E. now subst n.
  - assert (Hf : In k (find_additional_properties d s)).
    { unfold find_additional_properties. apply filter_In. split; [exact Hk|].
      now rewrite Eb. }
    rewrite Ex in Hf. destruct Hf.
Qed.

Lemma passes_property (s : schema) (p : list path_elem) (d : dict)
  (props : list (string * list keyword)) (name : string) (sub : schema) (v : json) :
  passes s p (JObj d) -> In (KProperties props) s -> In (name, sub) props ->
  dict_get name d = Some v -> passes sub (p ++ [PKey name]) v.
Proof.
  intros H Hin Hp Hv. specialize (H _ Hin). cbn [keyword_errors] in H.
  pose proof (flat_map_nil_inv _ _ H (name, sub) Hp) as E. cbn [fst snd] in E.
  rewrite Hv in E. now apply passes_iff.
Qed.

Lemma enumerate_in {A : Type} (xs : list A) (x : A) :
  In x xs -> exists i, In (i, x) (enumerate xs).
Proof.
  unfold enumerate. generalize 0%nat.
  induction xs as [|y xs IH]; intros s; cbn [List.length List.seq combine];
    [intros []|].
  intros [->|Hin]; [exists s; now left|].
  destruct (IH (S s) Hin) as [i Hi]. exists i. now right.
Qed.

Lemma passes_items (s : schema) (p : list path_elem) (xs : list json) (sub : schema)
  (x : json) :
  passes s p (JArr xs) -> In (KItems sub) s -> In x xs ->
  exists i, passes sub (p ++ [PIdx i]) x.
Proof.
  intros H Hin Hx. specialize (H _ Hin). cbn [keyword_errors] in H.
  destruct (enumerate_in xs x Hx) as [i Hix]. exists i.
  pose proof (flat_map_nil_inv _ _ H (i, x) Hix) as E. cbn [fst snd] in E.
  now apply passes_iff.
Qed.

Lemma passes_extra (s : schema) (p : list path_elem) (d : dict) (sub : schema)
  (k : string) (v : json) :
  passes s p (JObj d) -> In (KAdditionalPropertiesSchema sub) s ->
  schema_properties s = [] -> dict_get k d = Some v ->
  passes sub (p ++ [PKey k]) v.
Proof.
  intros H Hin Hnone Hv. specialize (H _ Hin). cbn [keyword_errors] in H.
  assert (Hk : In k (find_additional_properties d s)).
  { unfold find_additional_properties. rewrite Hnone. cbn [existsb negb].
    apply filter_In. split; [|reflexivity].
    apply dict_get_some_in in Hv. apply (in_map fst) in Hv. exact Hv. }
  pose proof (flat_map_nil_inv _ _ H k Hk) as E. cbn beta in E.
  rewrite Hv in E. now apply passes_iff.
Qed.

Lemma passes_max_length (s : schema) (p : list path_elem) (v : string) (limit : Z) :
  passes s p (JStr v) -> In (KMaxLength limit) s -> Z.of_nat (String.length v) <= limit.
Proof.
  intros H Hin. specialize (H _ Hin). cbn [keyword_errors] in H.
  destruct (Z.gtb_spec (Z.of_nat (String.length v)) limit); [discriminate | lia].
Qed.

Lemma passes_enum (s : schema) (p : list path_elem) (v : json) (values : list json) :
  passes s p v -> In (KEnum values) s -> existsb (json_eqb v) values = true.
Proof.
  intros H Hin. specialize (H _ Hin). cbn [keyword_errors] in H.
  destruct (existsb (json_eqb v) values); [reflexivity | discriminate].
Qed.

Lemma passes_minimum (s : schema) (p : list path_elem) (v : json) (bound : Z) :
  passes s p v -> In (KMinimum bound) s ->
  is_type v TNumber && number_ltb v bound = false.
Proof.
  intros H Hin. specialize (H _ Hin). cbn [keyword_errors] in H.
  destruct (is_type v TNumber && number_ltb v bound); [discriminate | reflexivity].
Qed.

End Passing.

Section Sound.
Variable py_repr : json -> string.

Local Abbreviation passes := (passes py_repr).

Ltac member := cbn [In]; repeat (first [left; reflexivity | right]).

Lemma dict_mem_get {V : Type} (k : string) (d : list (string * V)) :
  dict_mem k d = true -> exists v, dict_get k d = Some v.
Proof. unfold dict_mem. destruct (dict_get k d) as [v|]; [now exists v | discriminate]. Qed.

Lemma type_string (v : json) :
  existsb (is_type v) [TString] = true -> exists s, v = JStr s.
Proof. destruct v; try discriminate. intros _. now exists s. Qed.

Lemma type_object (v : json) :
  existsb (is_type v) [TObject] = true -> exists d, v = JObj d.
Proof. destruct v; try discriminate. intros _. now exists kvs. Qed.

Lemma type_array (v : json) :
  existsb (is_type v) [TArray] = true -> exists xs, v = JArr xs.
Proof. destruct v; try discriminate. intros _. now exists xs. Qed.

Lemma type_object_or_null (v : json) :
  existsb (is_type v) [TObject; TNull] = true -> v = JNull \/ exists d, v = JObj d.
Proof. destruct v; try discriminate; intros _; [now left | right; now exists kvs]. Qed.

Lemma type_string_or_null (v : json) :
  existsb (is_type v) [TString; TNull] = true -> v = JNull \/ exists s, v = JStr s.
Proof. destruct v; try discriminate; intros _; [now left | right; now exists s]. Qed.

(** A required string property. *)
Lemma passes_string (s sub : schema) (p : list path_elem) (d : dict)
  (names : list string) (props : list (string * list keyword)) (name : string) :
  passes s p (JObj d) ->
  In (KRequired names) s -> In name names ->
  In (KProperties props) s -> In (name, sub) props -> In (KType [TString]) sub ->
  exists v, dict_get name d = Some (JStr v) /\ passes sub (p ++ [PKey name]) (JStr v).
Proof.
  intros H Hreq Hname Hprops Hsub Htype.
  destruct (dict_mem_get name d (passes_required _ _ _ _ _ _ H Hreq Hname)) as [v Hv].
  pose proof (passes_property _ _ _ _ _ _ _ _ H Hprops Hsub Hv) as Hp.
  destruct (type_string v (passes_type _ _ _ _ _ Hp Htype)) as [x ->].
  now exists x.
Qed.

Lemma accepted_sound (data : json) :
  passes PluginCollection.JSON_SCHEMA [] data -> accepted data.
Proof.
  intros H.
  destruct (type_object data (passes_type _ _ _ _ _ H ltac:(member))) as [d ->].
  exists d. split; [reflexivity|].
  assert (Hreq : In (KRequired ["schema_version"; "metadata"; "plugins"])
                    PluginCollection.JSON_SCHEMA) by member.
  pose (props := schema_properties PluginCollection.JSON_SCHEMA).
  split; [|split; [|split; [|split; [|split]]]].
  - destruct (passes_string _ _ _ _ _ _ "schema_version" H Hreq ltac:(member)
                ltac:(member) ltac:(member) ltac:(member)) as (v & Hv & Hp).
    rewrite Hv. do 2 f_equal.
    pose proof (passes_enum _ _ _ _ _ Hp ltac:(member)) as He.
    cbn [existsb json_eqb] in He. rewrite orb_false_r in He.
    now apply String.eqb_eq in He.
  - destruct (dict_mem_get "metadata" d
                (passes_required _ _ _ _ _ "metadata" H Hreq ltac:(member))) as [v Hv].
    pose proof (passes_property _ _ _ _ _ "metadata" _ _ H ltac:(member) ltac:(member) Hv) as Hp.
    destruct (type_object v (passes_type _ _ _ _ _ Hp ltac:(member))) as [m ->].
    exists m. split; [exact Hv|].
    assert (Hstr : forall name sub,
              In name ["name"; "description"; "author"; "version"; "created_at";
                       "astrbot_version"; "plugin_count"] ->
              In (name, sub)
                 [ ("name", [KType [TString]; KMaxLength 100]);
                   ("description", [KType [TString]; KMaxLength 500]);
                   ("author", [KType [TString]]);
                   ("version", [KType [TString]]);
                   ("created_at", [KType [TString]; KFormat "date-time"]);
                   ("astrbot_version", [KType [TString]]);
                   ("plugin_count", [KType [TInteger]; KMinimum 0]) ] ->
              In (KType [TString]) sub ->
              exists x, dict_get name m = Some (JStr x) /\
                        passes sub ([] ++ [PKey "metadata"] ++ [PKey name]) (JStr x)).
    { intros name sub Hname Hsub Htype.
      destruct (passes_string _ sub _ _ _ _ name Hp ltac:(member) Hname
                  ltac:(member) Hsub Htype) as (x & Hx & Hpx).
      exists x. split; [exact Hx|]. now rewrite app_assoc. }
    unfold accepted_metadata, has_short_string, has_string.
    repeat split.
    + destruct (Hstr "name" _ ltac:(member) ltac:(member) ltac:(member)) as (x & Hx & Hpx).
      exists x. split; [exact Hx|]. apply (passes_max_length _ _ _ _ _ Hpx). member.
    + destruct (Hstr "description" _ ltac:(member) ltac:(member) ltac:(member))
        as (x & Hx & Hpx).
      exists x. split; [exact Hx|]. apply (passes_max_length _ _ _ _ _ Hpx). member.
    + destruct (Hstr "author" _ ltac:(member) ltac:(member) ltac:(member)) as (x & Hx & _).
      now exists x.
    + destruct (Hstr "version" _ ltac:(member) ltac:(member) ltac:(member)) as (x & Hx & _).
      now exists x.
    + destruct (Hstr "created_at" _ ltac:(member) ltac:(member) ltac:(member))
        as (x & Hx & _).
      now exists x.
    + destruct (Hstr "astrbot_version" _ ltac:(member) ltac:(member) ltac:(member))
        as (x & Hx & _).
      now exists x.
    + destruct (dict_mem_get "plugin_count" m
                  (passes_required _ _ _ _ _ "plugin_count" Hp ltac:(member) ltac:(member))) as [c Hc].
      pose proof (passes_property _ _ _ _ _ "plugin_count" _ _ Hp ltac:(member) ltac:(member) Hc) as Hpc.
      exists c. split; [exact Hc|].
      pose proof (passes_type _ _ _ _ _ Hpc ltac:(member)) as Ht.
      cbn [existsb] in Ht. rewrite orb_false_r in Ht. split; [exact Ht|].
      pose proof (passes_minimum _ _ _ _ _ Hpc ltac:(member)) as Hm.
      apply andb_false_iff in Hm. destruct Hm as [Hm|Hm]; [|exact Hm].
      destruct c; try discriminate; cbn [is_type] in Hm; discriminate.
    + intros k Hk. apply (passes_closed _ _ _ _ k Hp); [member | exact Hk].
  - destruct (dict_mem_get "plugins" d
                (passes_required _ _ _ _ _ "plugins" H Hreq ltac:(member))) as [v Hv].
    pose proof (passes_property _ _ _ _ _ "plugins" _ _ H ltac:(member) ltac:(member) Hv) as Hp.
    destruct (type_array v (passes_type _ _ _ _ _ Hp ltac:(member))) as [ps ->].
    exists ps. split; [exact Hv|].
    apply Forall_forall. intros x Hx.
    destruct (passes_items _ _ _ _ _ x Hp ltac:(member) Hx) as [i Hi].
    destruct (type_object x (passes_type _ _ _ _ _ Hi ltac:(member))) as [pd ->].
    exists pd. split; [reflexivity|].
    assert (Hstr : forall name, In name ["name"; "repo"; "version"] ->
              In (name, [KType [TString]])
                 [ ("name", [KType [TString]]); ("repo", [KType [TString]]);
                   ("version", [KType [TString]]);
                   ("display_name", [KType [TString; TNull]]) ] ->
              has_string name pd).
    { intros name Hname Hsub.
      destruct (passes_string _ _ _ _ _ _ name Hi ltac:(member) Hname
                  ltac:(member) Hsub ltac:(member)) as (y & Hy & _).
      now exists y. }
    repeat split; try (apply Hstr; member).
    + intros w Hw.
      pose proof (passes_property _ _ _ _ _ "display_name" _ _ Hi ltac:(member) ltac:(member) Hw) as Hpw.
      apply type_string_or_null. apply (passes_type _ _ _ _ _ Hpw). member.
    + intros k Hk. apply (passes_closed _ _ _ _ k Hi); [member | exact Hk].
  - intros v Hv.
    pose proof (passes_property _ _ _ _ _ "plugin_configs" _ _ H ltac:(member) ltac:(member) Hv) as Hp.
    apply type_object_or_null. apply (passes_type _ _ _ _ _ Hp). member.
  - intros v Hv.
    pose proof (passes_property _ _ _ _ _ "handler_priority_overrides" _ _ H ltac:(member) ltac:(member) Hv) as Hp.
    destruct (type_object_or_null v (passes_type _ _ _ _ _ Hp ltac:(member)))
      as [-> | [o ->]]; [now left | right].
    exists o. split; [reflexivity|]. intros k w Hw.
    pose proof (passes_extra _ _ _ _ _ k w Hp ltac:(member) eq_refl Hw) as Hpw.
    pose proof (passes_type _ _ _ _ _ Hpw ltac:(member)) as Ht.
    cbn [existsb] in Ht. now rewrite orb_false_r in Ht.
  - intros k Hk. apply (passes_closed _ _ _ _ k H); [member | exact Hk].
Qed.

End Sound.

Section Complete.
Variable py_repr : json -> string.
Local Abbreviation kerr := (keyword_errors py_repr).
Local Abbreviation passes := (passes py_repr).

Lemma closed_no_extras (d : dict) (s : schema) :
  (forall k, In k (dict_keys d) -> In k (schema_properties s)) ->
  find_additional_properties d s = [].
Proof.
  intros H. unfold find_additional_properties.
  induction (dict_keys d) as [|k ks IH]; cbn [filter]; [reflexivity|].
  assert (E : existsb (String.eqb k) (schema_properties s) = true).
  { apply existsb_exists. exists k. split; [apply H; now left | apply String.eqb_refl]. }
  rewrite E. cbn [negb]. apply IH. intros k' Hk'. apply H. now right.
Qed.

Ltac cases Hk :=
  cbn [In] in Hk;
  repeat match type of Hk with
         | _ \/ _ => destruct Hk as [Hk|Hk]
         end;
  [ .. | destruct Hk ].

Lemma string_passes (p : list path_elem) (x : string) :
  passes [KType [TString]] p (JStr x).
Proof. intros k Hk. cases Hk. subst k. reflexivity. Qed.

Lemma short_string_passes (p : list path_elem) (x : string) (limit : Z) :
  Z.of_nat (String.length x) <= limit ->
  passes [KType [TString]; KMaxLength limit] p (JStr x).
Proof.
  intros Hlen k Hk. cases Hk; subst k; [reflexivity|].
  cbn [keyword_errors].
  destruct (Z.gtb_spec (Z.of_nat (String.length x)) limit); [lia | reflexivity].
Qed.

Lemma metadata_passes (p : list path_elem) (m : dict) (s : schema) :
  s = [ KType [TObject];
        KRequired [ "name"; "description"; "author"; "version";
                    "created_at"; "astrbot_version"; "plugin_count" ];
        KAdditionalProperties false;
        KProperties
          [ ("name", [KType [TString]; KMaxLength 100]);
            ("description", [KType [TString]; KMaxLength 500]);
            ("author", [KType [TString]]);
            ("version", [KType [TString]]);
            ("created_at", [KType [TString]; KFormat "date-time"]);
            ("astrbot_version", [KType [TString]]);
            ("plugin_count", [KType [TInteger]; KMinimum 0]) ] ] ->
  accepted_metadata m -> passes s p (JObj m).
Proof.
  intros -> ((n & Hn & Hnlen) & (de & Hde & Hdlen) & [a Ha] & [v Hv] & [c Hc] & [av Hav] &
             (count & Hcount & Hint & Hmin) & Hkeys).
  intros k Hk. cases Hk; subst k; cbn [keyword_errors].
  - reflexivity.
  - cbn [flat_map]. unfold dict_mem. now rewrite Hn, Hde, Ha, Hv, Hc, Hav, Hcount.
  - now rewrite closed_no_extras.
  - apply flat_map_nil. intros [name sub] Hin. cases Hin; inversion Hin; subst;
      cbn [fst snd].
    + rewrite Hn. apply passes_iff. now apply short_string_passes.
    + rewrite Hde. apply passes_iff. now apply short_string_passes.
    + rewrite Ha. apply passes_iff. apply string_passes.
    + rewrite Hv. apply passes_iff. apply string_passes.
    + rewrite Hc. reflexivity.
    + rewrite Hav. apply passes_iff. apply string_passes.
    + rewrite Hcount. cbn [flat_map keyword_errors existsb].
      rewrite Hint, Hmin, andb_false_r. reflexivity.
Qed.

Lemma plugin_passes (p : list path_elem) (x : json) (s : schema) :
  s = [ KType [TObject];
        KRequired ["name"; "repo"; "version"];
        KAdditionalProperties false;
        KProperties
          [ ("name", [KType [TString]]);
            ("repo", [KType [TString]]);
            ("version", [KType [TString]]);
            ("display_name", [KType [TString; TNull]]) ] ] ->
  accepted_plugin x -> passes s p x.
Proof.
  intros -> (pd & -> & [n Hn] & [r Hr] & [v Hv] & Hdn & Hkeys).
  intros k Hk. cases Hk; subst k; cbn [keyword_errors].
  - reflexivity.
  - cbn [flat_map]. unfold dict_mem. now rewrite Hn, Hr, Hv.
  - now rewrite closed_no_extras.
  - apply flat_map_nil. intros [name sub] Hin. cases Hin; inversion Hin; subst;
      cbn [fst snd].
    + rewrite Hn. reflexivity.
    + rewrite Hr. reflexivity.
    + rewrite Hv. reflexivity.
    + destruct (dict_get "display_name" pd) as [w|] eqn:Ew; [|reflexivity].
      destruct (Hdn w eq_refl) as [-> | [x ->]]; reflexivity.
Qed.

Lemma plugins_passes (p : list path_elem) (ps : list json) (s : schema) :
  s = [ KType [TArray];
        KItems
          [ KType [TObject];
            KRequired ["name"; "repo"; "version"];
            KAdditionalProperties false;
            KProperties
              [ ("name", [KType [TString]]);
                ("repo", [KType [TString]]);
                ("version", [KType [TString]]);
                ("display_name", [KType [TString; TNull]]) ] ] ] ->
  Forall accepted_plugin ps -> passes s p (JArr ps).
Proof.
  intros -> Hall k Hk. cases Hk; subst k; cbn [keyword_errors]; [reflexivity|].
  apply flat_map_nil. intros [i x] Hix. cbn [fst snd].
  apply passes_iff. apply plugin_passes; [reflexivity|].
  rewrite Forall_forall in Hall. apply Hall.
  apply in_enumerate in Hix. now apply nth_error_In in Hix.
Qed.

Lemma overrides_passes (p : list path_elem) (o : dict) (s : schema) :
  s = [ KType [TObject; TNull]; KAdditionalPropertiesSchema [KType [TInteger]] ] ->
  (forall k w, dict_get k o = Some w -> is_type w TInteger = true) ->
  passes s p (JObj o).
Proof.
  intros -> Ho k Hk. cases Hk; subst k; cbn [keyword_errors]; [reflexivity|].
  apply flat_map_nil. intros extra _.
  destruct (dict_get extra o) as [w|] eqn:Ew; [|reflexivity].
  cbn [flat_map keyword_errors existsb]. now rewrite (Ho extra w Ew).
Qed.

Lemma accepted_complete (data : json) :
  accepted data -> passes PluginCollection.JSON_SCHEMA [] data.
Proof.
  intros (d & -> & Hsv & (m & Hm & Hmeta) & (ps & Hps & Hall) & Hpc & Hhpo & Hkeys).
  intros k Hk. unfold PluginCollection.JSON_SCHEMA in Hk. cases Hk; subst k;
    cbn [keyword_errors].
  - reflexivity.
  - reflexivity.
  - cbn [flat_map]. unfold dict_mem. now rewrite Hsv, Hm, Hps.
  - now rewrite closed_no_extras.
  - apply flat_map_nil. intros [name sub] Hin. cases Hin; inversion Hin; subst;
      cbn [fst snd].
    + rewrite Hsv. reflexivity.
    + rewrite Hm. apply passes_iff. now apply metadata_passes.
    + rewrite Hps. apply passes_iff. now apply plugins_passes.
    + destruct (dict_get "plugin_configs" d) as [v|] eqn:Ev; [|reflexivity].
      destruct (Hpc v eq_refl) as [-> | [c ->]]; [reflexivity|].
      cbn [flat_map keyword_errors existsb is_type orb app].
      now destruct (find_additional_properties c _).
    + destruct (dict_get "handler_priority_overrides" d) as [v|] eqn:Ev; [|reflexivity].
      destruct (Hhpo v eq_refl) as [-> | (o & -> & Ho)]; [reflexivity|].
      apply passes_iff. now apply overrides_passes.
Qed.

(** [validate_dict] returns exactly on the payloads of the accepted shape. *)
Lemma validate_dict_accepted (data : json) :
  PluginCollection.validate_dict py_repr data = Return tt <-> accepted data.
Proof.
  rewrite validate_dict_ok_iff. unfold iter_errors. rewrite (passes_iff py_repr).
  split; [apply accepted_sound | apply accepted_complete].
Qed.

End Complete.

Section Parse.
Variable py_repr : json -> string.

(** [int(c or 0)] of a value the schema takes for an integer. *)
Lemma py_int_integer (c : json) :
  is_type c TInteger = true ->
  exists n, py_int (py_or c (JInt 0)) = Return n /\ (number_ltb c 0 = false -> 0 <= n).
Proof.
  destruct c as [| |n|m e| | |]; try discriminate; intros _; unfold py_or; cbn [truthy].
  - destruct (Z.eqb_spec n 0) as [->|Hne]; cbn [negb py_int].
    + exists 0. split; [reflexivity | lia].
    + exists n. split; [reflexivity|]. cbn [number_ltb]. intros H.
      apply Z.ltb_ge in H. lia.
  - destruct (Z.eqb_spec m 0) as [->|Hne]; cbn [negb py_int].
    + exists 0. split; [reflexivity | lia].
    + exists (float_trunc m e). split; [reflexivity|].
      cbn [number_ltb]. unfold float_ltb_int, float_trunc.
      destruct (Z.leb_spec 0 e); intros Hlt; apply Z.ltb_ge in Hlt; [lia|].
      apply Z.quot_pos; [lia|]. apply Z.pow_pos_nonneg; lia.
Qed.

Lemma plugin_from_dict_returns (ps : list json) :
  Forall accepted_plugin ps ->
  exists plugins, map_result (CollectionPlugin.from_dict py_repr) ps = Return plugins.
Proof.
  induction 1 as [|x ps (pd & -> & _) _ [plugins IH]]; [now exists []|].
  cbn [map_result CollectionPlugin.from_dict bind]. rewrite IH. cbn [bind]. eauto.
Qed.

(** What [from_dict] returns on an accepted payload. *)
Lemma from_dict_accepted (data : json) :
  accepted data ->
  exists d m ps count plugins,
    data = JObj d /\
    dict_get "metadata" d = Some (JObj m) /\
    dict_get "plugins" d = Some (JArr ps) /\
    accepted_metadata m /\
    0 <= count /\
    map_result (CollectionPlugin.from_dict py_repr) ps = Return plugins /\
    PluginCollection.from_dict py_repr data =
    Return {| PluginCollection.schema_version := "1.0";
              PluginCollection.metadata :=
                {| CollectionMetadata.name := py_str py_repr (get_or "name" (JStr "") m);
                   CollectionMetadata.description :=
                     py_str py_repr (get_or "description" (JStr "") m);
                   CollectionMetadata.author := py_str py_repr (get_or "author" (JStr "") m);
                   CollectionMetadata.version := py_str py_repr (get_or "version" (JStr "") m);
                   CollectionMetadata.created_at :=
                     py_str py_repr (get_or "created_at" (JStr "") m);
                   CollectionMetadata.astrbot_version :=
                     py_str py_repr (get_or "astrbot_version" (JStr "") m);
                   CollectionMetadata.plugin_count := count |};
              PluginCollection.plugins := plugins;
              PluginCollection.plugin_configs := get "plugin_configs" d;
              PluginCollection.handler_priority_overrides :=
                get "handler_priority_overrides" d |}.
Proof.
  intros Hacc. pose proof (proj2 (validate_dict_accepted py_repr data) Hacc) as Hvalid.
  destruct Hacc as (d & -> & Hsv & (m & Hm & Hmeta) & (ps & Hps & Hall) & _).
  pose proof Hmeta as Hmeta'.
  destruct Hmeta' as (_ & _ & _ & _ & _ & _ & (c & Hc & Hint & Hmin) & _).
  destruct (py_int_integer c Hint) as (count & Hcount & Hpos).
  destruct (plugin_from_dict_returns ps Hall) as [plugins Hplugins].
  exists d, m, ps, count, plugins.
  repeat (split; [first [reflexivity | assumption | now apply Hpos]|]).
  unfold PluginCollection.from_dict. rewrite Hvalid. cbn [bind]. rewrite Hm.
  unfold CollectionMetadata.from_dict. unfold get_or at 1. rewrite Hc, Hcount. cbn [bind].
  unfold get at 1, get_or at 1. rewrite Hps.
  assert (Hor : py_or (JArr ps) (JArr []) = JArr ps)
    by (unfold py_or; destruct ps; reflexivity).
  rewrite Hor, Hplugins. cbn [bind].
  unfold get_or at 1. rewrite Hsv. reflexivity.
Qed.

(** [from_dict] returns or raises [CollectionValidationError]; nothing else. *)
Lemma from_dict_total (data : json) :
  (exists doc, PluginCollection.from_dict py_repr data = Return doc /\
               PluginCollection.validate_dict py_repr data = Return tt) \/
  (exists msg, PluginCollection.from_dict py_repr data =
               Raise (CollectionValidationError msg) /\
               PluginCollection.validate_dict py_repr data =
               Raise (CollectionValidationError msg)).
Proof.
  destruct (PluginCollection.validate_dict py_repr data) as [[]|e] eqn:Ev.
  - left. destruct (from_dict_accepted data) as (d & m & ps & count & plugins & H);
      [now apply (validate_dict_accepted py_repr)|].
    destruct H as (_ & _ & _ & _ & _ & _ & ->). eauto.
  - right. unfold PluginCollection.from_dict. rewrite Ev. cbn [bind].
    unfold PluginCollection.validate_dict in Ev.
    destruct (PluginCollection.sorted_errors py_repr data); [discriminate|].
    injection Ev as <-. eauto.
Qed.

Lemma get_short_string (key : string) (limit : Z) (m : dict) :
  has_short_string key limit m ->
  Z.of_nat (String.length (py_str py_repr (get_or key (JStr "") m))) <= limit.
Proof. intros (s & Hs & Hlen). unfold get_or. now rewrite Hs. Qed.

(** A document [from_dict] returns is well formed. *)
Lemma from_dict_well_formed (data : json) (doc : PluginCollection.t) :
  PluginCollection.from_dict py_repr data = Return doc ->
  is_value data -> well_formed doc.
Proof.
  intros Hdoc Hval.
  assert (Hacc : accepted data).
  { apply (validate_dict_accepted py_repr). unfold PluginCollection.from_dict in Hdoc.
    destruct (PluginCollection.validate_dict py_repr data) as [[]|e];
      [reflexivity | discriminate]. }
  destruct (from_dict_accepted data Hacc)
    as (d & m & ps & count & plugins & -> & Hm & Hps & Hmeta & Hcount & Hplugins & E).
  rewrite E in Hdoc. injection Hdoc as <-.
  destruct Hacc as (d' & [= <-] & _ & _ & _ & Hpc & Hhpo & _).
  destruct Hmeta as (Hname & Hdesc & _).
  unfold well_formed.
  cbn [PluginCollection.schema_version PluginCollection.metadata
       PluginCollection.plugin_configs PluginCollection.handler_priority_overrides
       CollectionMetadata.name CollectionMetadata.description
       CollectionMetadata.plugin_count].
  split; [reflexivity|]. split; [now apply get_short_string|].
  split; [now apply get_short_string|]. split; [exact Hcount|]. split.
  - unfold get, get_or. destruct (dict_get "plugin_configs" d) as [v|] eqn:Ev;
      [now apply Hpc | now left].
  - unfold get, get_or.
    destruct (dict_get "handler_priority_overrides" d) as [v|] eqn:Ev; [|now left].
    destruct (Hhpo v eq_refl) as [-> | (o & -> & Ho)]; [now left | right].
    exists o. split; [reflexivity|].
    apply is_value_obj in Hval. destruct Hval as [_ Hvals].
    rewrite Forall_forall in Hvals. apply dict_get_some_in in Ev.
    specialize (Hvals _ Ev). cbn [snd] in Hvals.
    apply is_value_obj in Hvals. destruct Hvals as [Hd _].
    apply Forall_forall. intros [k w] Hin. cbn [snd].
    apply (Ho k). now apply dict_get_in.
Qed.

(** X6. [validate_dict] returns exactly on the payloads of the accepted
    shape: a mapping with [schema_version] ["1.0"], a [metadata] mapping
    whose seven fields are all there and of their types (the name at most
    100 and the description at most 500 characters, [plugin_count] an
    integer that is not negative), a list [plugins] of mappings with the
    strings [name], [repo] and [version] and an optional [display_name]
    that is a string or null, optional [plugin_configs] and
    [handler_priority_overrides] that are mappings or null (the overrides
    with integer values), and no other key at any of these levels.  On
    every other payload it raises. *)
Theorem validate_dict_accepts_exactly (data : json) :
  PluginCollection.validate_dict py_repr data = Return tt <-> accepted data.
Proof. apply validate_dict_accepted. Qed.

(** X7. [from_dict] returns a document or raises
    [CollectionValidationError], nothing else: it returns exactly when
    [validate_dict] does, and otherwise raises what [validate_dict] raised.
    No field it reads after the validation can fail. *)
Theorem from_dict_raises_only_validation_errors (data : json) :
  (exists doc, PluginCollection.from_dict py_repr data = Return doc /\
               PluginCollection.validate_dict py_repr data = Return tt) \/
  (exists msg, PluginCollection.from_dict py_repr data =
               Raise (CollectionValidationError msg) /\
               PluginCollection.validate_dict py_repr data =
               Raise (CollectionValidationError msg)).
Proof. apply from_dict_total. Qed.

(** X8. What [from_dict] has parsed can be written and parsed again: the
    payload [to_dict] makes of the document passes [validate_dict], and
    [from_dict] turns it into the same document. *)
Theorem from_dict_reserializes (data : json) (doc : PluginCollection.t) :
  is_value data ->
  PluginCollection.from_dict py_repr data = Return doc ->
  PluginCollection.validate_dict py_repr (JObj (PluginCollection.to_dict doc)) = Return tt /\
  PluginCollection.from_dict py_repr (JObj (PluginCollection.to_dict doc)) = Return doc.
Proof.
  intros Hval Hdoc. apply well_formed_round_trip.
  now apply (from_dict_well_formed data).
Qed.

End Parse.

(** The payload of the demo host is a value: no mapping in it has a key
    twice. *)
Lemma payload_is_value : is_value DemoHost.payload.
Proof.
  unfold DemoHost.payload. cbn [is_value fold_right snd].
  unfold is_dict, dict_keys. cbn [map fst].
  repeat split;
    repeat (constructor; [cbn [In]; intuition discriminate|]); constructor.
Qed.

Lemma validate_dict_accepts_exactly_witness :
  PluginCollection.validate_dict demo_repr DemoHost.payload = Return tt /\
  accepted DemoHost.payload.
Proof.
  split; [vm_compute; reflexivity|].
  apply (proj1 (validate_dict_accepts_exactly demo_repr DemoHost.payload)).
  vm_compute. reflexivity.
Defined.

Lemma from_dict_reserializes_witness :
  exists doc,
    PluginCollection.from_dict demo_repr DemoHost.payload = Return doc /\
    PluginCollection.from_dict demo_repr (JObj (PluginCollection.to_dict doc)) = Return doc.
Proof.
  eexists. split; [vm_compute; reflexivity|].
  apply (from_dict_reserializes demo_repr DemoHost.payload _ payload_is_value).
  vm_compute. reflexivity.
Defined.

End ModelsProperties.

(** ** [compatibility.py]: reading the overrides back *)
Module CompatibilityProperties.
Import SensitiveFilterProperties.
Import Py PyFacts Compatibility CompatibilityFacts.


Lemma dict_get_set_same {V : Type} (k : string) (v : V) (d : list (string * V)) :
  dict_get k (dict_set k v d) = Some v.
Proof.
  induction d as [|[k0 v0] d IH]; cbn [dict_set dict_get].
  - now rewrite String.eqb_refl.
  - destruct (String.eqb k k0) eqn:E; cbn [dict_get]; rewrite ?String.eqb_refl, ?E; auto.
Qed.

Lemma dict_get_set_other {V : Type} (k k' : string) (v : V) (d : list (string * V)) :
  k' <> k -> dict_get k' (dict_set k v d) = dict_get k' d.
Proof.
  intros Hne. induction d as [|[k0 v0] d IH]; cbn [dict_set dict_get].
  - apply String.eqb_neq in Hne. now rewrite Hne.
  - destruct (String.eqb_spec k k0) as [->|Hk]; cbn [dict_get].
    + apply String.eqb_neq in Hne. now rewrite Hne.
    + destruct (String.eqb k' k0); [reflexivity | exact IH].
Qed.

(** ** [normalize] *)

Lemma normalize_is_dict (items : dict) :
  forall acc d, normalize items acc = Return d -> is_dict acc -> is_dict d.
Proof.
  induction items as [|[k v] items IH]; cbn [normalize]; intros acc d H Hacc.
  - now injection H as <-.
  - destruct (py_int v) as [n|e]; cbn [bind] in H; [|discriminate].
    apply (IH _ _ H). now apply dict_set_is_dict.
Qed.

(** Stored overrides read back as they are. *)
Lemma normalize_integers (d : list (string * Z)) :
  forall acc, is_dict (acc ++ d) ->
  normalize (map (fun kv => (fst kv, JInt (snd kv))) d) acc = Return (acc ++ d).
Proof.
  induction d as [|[k n] d IH]; intros acc Hd; cbn [map normalize fst snd py_int bind].
  - now rewrite app_nil_r.
  - assert (Hfresh : ~ In k (dict_keys acc)).
    { unfold is_dict, dict_keys in *. rewrite map_app in Hd.
      apply NoDup_remove_2 in Hd. intros Hin. apply Hd.
      apply in_or_app. now left. }
    rewrite dict_set_fresh by exact Hfresh.
    rewrite IH; rewrite <- app_assoc; [reflexivity | exact Hd].
Qed.

(** One value [int] rejects makes [normalize] raise. *)
Lemma normalize_raises (items : dict) (k : string) (v : json) (e : exn) :
  In (k, v) items -> py_int v = Raise e ->
  forall acc, exists e', normalize items acc = Raise e'.
Proof.
  intros Hin Hv. induction items as [|[k0 v0] items IH]; [destruct Hin|].
  intros acc. cbn [normalize].
  destruct (py_int v0) as [n|e0] eqn:E0; cbn [bind]; [|now exists e0].
  destruct Hin as [[= -> ->]|Hin]; [congruence|]. now apply IH.
Qed.

Lemma normalize_returns (items : dict) :
  (forall k v, In (k, v) items -> exists n, py_int v = Return n) ->
  forall acc, exists d, normalize items acc = Return d.
Proof.
  induction items as [|[k0 v0] items IH]; intros H acc; cbn [normalize]; [eauto|].
  destruct (H k0 v0 ltac:(now left)) as [n ->]. cbn [bind].
  apply IH. intros k v Hin. apply (H k v). now right.
Qed.

(** ** The registry *)

Lemma priority_of_set (h : Handler) (p : Z) :
  priority_of {| handler_full_name := handler_full_name h;
                 extras_configs := dict_set "priority" (JInt p) (extras_configs h) |}
  = Return p.
Proof.
  unfold priority_of, get_or. cbn [extras_configs]. rewrite dict_get_set_same.
  unfold py_or. cbn [truthy]. destruct (Z.eqb_spec p 0) as [->|Hne]; reflexivity.
Qed.

Lemma write_priorities_map (normalized : list (string * Z)) (reg : Registry) :
  star_handlers_map (write_priorities normalized reg) = star_handlers_map reg.
Proof. apply write_priorities_handlers. Qed.

Lemma write_priorities_cons (name : string) (p : Z) (rest : list (string * Z))
  (reg : Registry) :
  write_priorities ((name, p) :: rest) reg =
  write_priorities rest
    (match dict_get name (star_handlers_map reg) with
     | None => reg
     | Some ref => set_priority ref p reg
     end).
Proof. reflexivity. Qed.

(** A handler no override names is left as it is. *)
Lemma write_priorities_other (normalized : list (string * Z)) (r : nat) :
  forall reg,
    (forall name p, In (name, p) normalized ->
       dict_get name (star_handlers_map reg) <> Some r) ->
    heap (write_priorities normalized reg) r = heap reg r.
Proof.
  induction normalized as [|[name p] rest IH]; intros reg H; [reflexivity|].
  rewrite write_priorities_cons.
  pose proof (H name p ltac:(now left)) as Hname.
  destruct (dict_get name (star_handlers_map reg)) as [ref|] eqn:Eref.
  - rewrite IH.
    + cbn [set_priority heap]. destruct (Nat.eqb_spec r ref) as [->|Hne]; [congruence|].
      reflexivity.
    + intros n' p' Hin. cbn [set_priority star_handlers_map]. apply (H n' p'). now right.
  - apply IH. intros n' p' Hin. apply (H n' p'). now right.
Qed.

Lemma snd_injective {A : Type} (m : list (string * A)) (n1 n2 : string) (r : A) :
  NoDup (map snd m) -> In (n1, r) m -> In (n2, r) m -> n1 = n2.
Proof.
  induction m as [|[n0 r0] m IH]; cbn [map snd]; intros Hnd H1 H2; [destruct H1|].
  inversion Hnd as [|? ? Hnotin Hnd']; subst.
  destruct H1 as [E1|H1], H2 as [E2|H2].
  - congruence.
  - injection E1 as -> ->. exfalso. apply Hnotin. now apply (in_map snd) in H2.
  - injection E2 as -> ->. exfalso. apply Hnotin. now apply (in_map snd) in H1.
  - now apply IH.
Qed.

Lemma distinct_refs (reg : Registry) (n1 n2 : string) (r : nat) :
  distinct_handlers reg ->
  dict_get n1 (star_handlers_map reg) = Some r ->
  dict_get n2 (star_handlers_map reg) = Some r -> n1 = n2.
Proof.
  intros [_ Hnd] H1 H2. apply dict_get_some_in in H1, H2.
  now apply (snd_injective _ _ _ _ Hnd H1 H2).
Qed.

(** The handler an override names carries the priority of the override. *)
Lemma write_priorities_hit (normalized : list (string * Z)) (name : string) (p : Z)
  (r : nat) :
  is_dict normalized -> dict_get name normalized = Some p ->
  forall reg,
    distinct_handlers reg ->
    dict_get name (star_handlers_map reg) = Some r ->
    priority_of (heap (write_priorities normalized reg) r) = Return p.
Proof.
  induction normalized as [|[n0 p0] rest IH]; intros Hd Hget reg Hdist Hr;
    [discriminate|].
  rewrite write_priorities_cons.
  unfold is_dict, dict_keys in Hd. cbn [map fst] in Hd.
  inversion Hd as [|? ? Hnotin Hd']; subst.
  cbn [dict_get] in Hget. destruct (String.eqb_spec name n0) as [->|Hne].
  - injection Hget as ->. rewrite Hr. rewrite write_priorities_other.
    + cbn [set_priority heap]. rewrite Nat.eqb_refl. apply priority_of_set.
    + intros n' p' Hin Hn'. cbn [set_priority star_handlers_map] in Hn'.
      assert (n' = n0) as -> by (apply (distinct_refs reg _ _ r); assumption).
      apply Hnotin. now apply (in_map fst) in Hin.
  - destruct (dict_get n0 (star_handlers_map reg)) as [ref|] eqn:Eref.
    + assert (Hother : ref <> r).
      { intros ->. apply Hne. symmetry. now apply (distinct_refs reg _ _ r). }
      assert (Hheap : forall reg1,
                star_handlers_map reg1 = star_handlers_map reg -> True) by trivial.
      clear Hheap.
      rewrite (IH Hd' Hget (set_priority ref p0 reg)); [reflexivity| |exact Hr].
      exact Hdist.
    + now apply IH.
Qed.

Lemma write_priorities_miss (normalized : list (string * Z)) (name : string) (r : nat)
  (reg : Registry) :
  distinct_handlers reg ->
  dict_get name normalized = None ->
  dict_get name (star_handlers_map reg) = Some r ->
  heap (write_priorities normalized reg) r = heap reg r.
Proof.
  intros Hdist Hnone Hr. apply write_priorities_other.
  intros n' p' Hin Hn'.
  assert (n' = name) as -> by (apply (distinct_refs reg _ _ r); assumption).
  apply dict_get_none_iff in Hnone. apply Hnone. now apply (in_map fst) in Hin.
Qed.

Lemma registry_overrides_get (reg : Registry) (name : string) :
  is_dict (star_handlers_map reg) ->
  dict_get name (registry_overrides reg) = reported reg name.
Proof.
  unfold registry_overrides, reported.
  set (prio := fun ref => match priority_of (heap reg ref) with
                          | Return p => p
                          | Raise _ => 0
                          end).
  set (step := fun (overrides : list (string * Z)) (kv : string * nat) =>
                 if prio (snd kv) =? 0 then overrides
                 else dict_set (fst kv) (prio (snd kv)) overrides).
  change (fold_left _ (star_handlers_map reg) [])
    with (fold_left step (star_handlers_map reg) []).
  assert (H : forall (entries : list (string * nat)) (acc : list (string * Z)),
    is_dict entries ->
    (forall k, In k (dict_keys entries) -> dict_get k acc = None) ->
    dict_get name (fold_left step entries acc) =
    match dict_get name entries with
    | Some ref => if prio ref =? 0 then None else Some (prio ref)
    | None => dict_get name acc
    end).
  { induction entries as [|[k ref] entries IH]; intros acc Hd Hfresh;
      cbn [fold_left dict_get]; [reflexivity|].
    unfold is_dict, dict_keys in Hd. cbn [map fst] in Hd.
    inversion Hd as [|? ? Hnotin Hd']; subst.
    assert (Hfresh' : forall k', In k' (dict_keys entries) ->
                                 dict_get k' (step acc (k, ref)) = None).
    { intros k' Hk'. unfold step. cbn [fst snd]. destruct (prio ref =? 0).
      - apply Hfresh. now right.
      - rewrite dict_get_set_other; [apply Hfresh; now right|].
        intros ->. contradiction. }
    rewrite (IH _ Hd' Hfresh').
    destruct (String.eqb_spec name k) as [->|Hne].
    - assert (Hnone : dict_get k entries = None) by now apply dict_get_none_iff.
      rewrite Hnone. unfold step. cbn [fst snd].
      destruct (prio ref =? 0); [apply Hfresh; now left | apply dict_get_set_same].
    - destruct (dict_get name entries) as [ref'|]; [reflexivity|].
      unfold step. cbn [fst snd]. destruct (prio ref =? 0); [reflexivity|].
      now apply dict_get_set_other. }
  intros Hd. rewrite (H _ [] Hd); [|reflexivity].
  destruct (dict_get name (star_handlers_map reg)) as [ref|]; [|reflexivity].
  unfold prio. destruct (priority_of (heap reg ref)); reflexivity.
Qed.

Lemma py_int_raises (v : json) (e : exn) : py_int v = Raise e -> is_Exception e = true.
Proof.
  unfold py_int. intros Ev.
  destruct v; try discriminate; try (now injection Ev as <-).
  destruct (int_of_str s); [discriminate | now injection Ev as <-].
Qed.

Lemma normalize_raises_Exception (items : dict) :
  forall acc e, normalize items acc = Raise e -> is_Exception e = true.
Proof.
  induction items as [|[k v] items IH]; cbn [normalize]; intros acc e H; [discriminate|].
  destruct (py_int v) as [n|e0] eqn:Ev; cbn [bind] in H; [now apply (IH _ _ H)|].
  injection H as <-. now apply (py_int_raises v).
Qed.

Lemma sort_handlers_raises (reg : Registry) (e : exn) :
  sort_handlers reg = Raise e -> is_Exception e = true.
Proof.
  unfold sort_handlers. intros H.
  destruct (map_result _ _) as [keys|e0] eqn:Ekeys; cbn [bind] in H; [discriminate|].
  injection H as ->. revert Ekeys.
  induction (_handlers reg) as [|ref refs IH]; cbn [map_result]; [discriminate|].
  destruct (priority_of (heap reg ref)) as [p|e0] eqn:Ep; cbn [bind].
  - destruct (map_result _ refs) as [ks|e0]; cbn [bind]; [discriminate|].
    intros [= ->]. now apply IH.
  - intros [= ->]. now apply (py_int_raises _ _ Ep).
Qed.

Section Overrides.
Variable Store : Type.
Variable global_get : Store -> string -> json -> result json.
Variable global_put : Store -> string -> json -> result Store.

Local Abbreviation get_priority_overrides := (get_priority_overrides Store global_get).
Local Abbreviation apply_priority_overrides := (apply_priority_overrides Store global_put).


(** Reading while the store is out of reach. *)
Lemma get_priority_overrides_unreachable (sp : Store) (reg : Registry) (e : exn) :
  global_get sp "handler_priority_overrides" (JObj []) = Raise e ->
  is_Exception e = true ->
  get_priority_overrides sp reg = Return (registry_overrides reg).
Proof.
  intros Hget He. unfold Compatibility.get_priority_overrides. now rewrite Hget, He.
Qed.

Lemma items_of_overrides_json (normalized : list (string * Z)) :
  normalized <> [] ->
  exists item items,
    map (fun kv => (fst kv, JInt (snd kv))) normalized = item :: items.
Proof. destruct normalized as [|kv rest]; [congruence|]. intros _. cbn. eauto. Qed.

End Overrides.

Lemma reported_nonzero (reg : Registry) (name : string) (p : Z) :
  reported reg name = Some p -> p <> 0.
Proof.
  unfold reported. destruct (dict_get name _) as [ref|]; [|discriminate].
  destruct (priority_of _) as [q|e]; [|discriminate].
  destruct (Z.eqb_spec q 0); [discriminate|]. now intros [= <-].
Qed.

Section Overrides.
Variable Store : Type.
Variable global_get : Store -> string -> json -> result json.
Variable global_put : Store -> string -> json -> result Store.

Local Abbreviation get_priority_overrides := (get_priority_overrides Store global_get).
Local Abbreviation apply_priority_overrides := (apply_priority_overrides Store global_put).

(** X9. When the store read raises an [Exception], [get_priority_overrides]
    answers from the registry: a name is listed exactly when its handler
    carries a priority that [int] reads and that is not 0, and it is listed
    with that priority. *)
Theorem get_priority_overrides_reads_registry (sp : Store) (reg : Registry) (e : exn) :
  global_get sp "handler_priority_overrides" (JObj []) = Raise e ->
  is_Exception e = true ->
  is_dict (star_handlers_map reg) ->
  exists d,
    get_priority_overrides sp reg = Return d /\
    (forall name, dict_get name d = reported reg name) /\
    (forall name p, dict_get name d = Some p ->
       p <> 0 /\
       exists ref, dict_get name (star_handlers_map reg) = Some ref /\
                   priority_of (heap reg ref) = Return p).
Proof.
  intros Hget He Hd. exists (registry_overrides reg).
  split; [now apply (get_priority_overrides_unreachable _ _ _ _ e)|].
  split; [intros name; now apply registry_overrides_get|].
  intros name p Hp. rewrite registry_overrides_get in Hp by exact Hd.
  split; [now apply (reported_nonzero reg name)|].
  unfold reported in Hp. destruct (dict_get name _) as [ref|]; [|discriminate].
  exists ref. split; [reflexivity|].
  destruct (priority_of _) as [q|e']; [|discriminate].
  destruct (q =? 0); [discriminate|]. now injection Hp as ->.
Qed.

(** X10. A store that gives back what was put: after [apply_priority_overrides]
    wrote there, the registry is untouched and [get_priority_overrides]
    returns the overrides that were applied, each as the integer [int] made
    of it; when there was none to apply, it answers from the registry. *)
Theorem overrides_round_trip_through_store
  (overrides : json) (sp sp' : Store) (reg : Registry)
  (normalized : list (string * Z)) :
  (forall s key v s', global_put s key v = Return s' ->
     forall default, global_get s' key default = Return v) ->
  (items <- items_of overrides ;; normalize items []) = Return normalized ->
  global_put sp "handler_priority_overrides" (overrides_json normalized) = Return sp' ->
  apply_priority_overrides overrides sp reg = (Return true, sp', reg) /\
  (normalized <> [] ->
     forall reg1, get_priority_overrides sp' reg1 = Return normalized) /\
  (normalized = [] ->
     forall reg1, get_priority_overrides sp' reg1 = Return (registry_overrides reg1)).
Proof.
  intros Hlaw Hnorm Hput.
  split; [unfold Compatibility.apply_priority_overrides; now rewrite Hnorm, Hput|].
  pose proof (Hlaw _ _ _ _ Hput (JObj [])) as Hget.
  split.
  - intros Hne reg1. unfold Compatibility.get_priority_overrides. rewrite Hget.
    unfold overrides_json.
    destruct (items_of_overrides_json normalized Hne) as (item & items & E).
    rewrite E, <- E.
    assert (Hd : is_dict normalized).
    { destruct (items_of overrides) as [its|e0]; cbn [bind] in Hnorm; [|discriminate].
      apply (normalize_is_dict _ _ _ Hnorm). constructor. }
    now rewrite (normalize_integers normalized []).
  - intros -> reg1. unfold Compatibility.get_priority_overrides. now rewrite Hget.
Qed.

(** X11. The fallback read gives back what the fallback write stored.  With
    the store out of reach for the write and for the read, and every name
    of the registry standing for a handler of its own: after
    [apply_priority_overrides] returned [True], [get_priority_overrides]
    lists a handler named in the overrides with the priority it was given
    (not at all when that priority is 0), a handler the overrides do not
    name as it was listed before, and no name the registry does not
    know. *)
Theorem overrides_round_trip_through_registry
  (overrides : json) (sp : Store) (reg reg' : Registry)
  (normalized : list (string * Z)) (e e2 : exn) :
  (items <- items_of overrides ;; normalize items []) = Return normalized ->
  global_put sp "handler_priority_overrides" (overrides_json normalized) = Raise e ->
  is_Exception e = true ->
  global_get sp "handler_priority_overrides" (JObj []) = Raise e2 ->
  is_Exception e2 = true ->
  distinct_handlers reg ->
  apply_priority_overrides overrides sp reg = (Return true, sp, reg') ->
  exists d,
    get_priority_overrides sp reg' = Return d /\
    (forall name p ref,
       dict_get name normalized = Some p ->
       dict_get name (star_handlers_map reg) = Some ref ->
       dict_get name d = if p =? 0 then None else Some p) /\
    (forall name,
       dict_get name normalized = None -> dict_get name d = reported reg name) /\
    (forall name,
       dict_get name (star_handlers_map reg) = None -> dict_get name d = None).
Proof.
  intros Hnorm Hput He Hget He2 Hdist Happly.
  assert (Hd : is_dict normalized).
  { destruct (items_of overrides) as [its|e0]; cbn [bind] in Hnorm; [|discriminate].
    apply (normalize_is_dict _ _ _ Hnorm). constructor. }
  unfold Compatibility.apply_priority_overrides in Happly.
  rewrite Hnorm, Hput, He in Happly.
  destruct (sort_handlers (write_priorities normalized reg)) as [reg''|e'] eqn:Esort.
  2:{ destruct (is_Exception e'); discriminate. }
  injection Happly as <-.
  destruct (sort_handlers_sorted _ _ Esort) as (Hheap & Hmap & _).
  rewrite write_priorities_map in Hmap.
  exists (registry_overrides reg'').
  split; [now apply (get_priority_overrides_unreachable _ _ _ _ e2)|].
  assert (Hrep : forall name, dict_get name (registry_overrides reg'') = reported reg'' name).
  { intros name. apply registry_overrides_get. rewrite Hmap. apply Hdist. }
  split; [|split].
  - intros name p ref Hp Href. rewrite Hrep. unfold reported.
    rewrite Hmap, Href, Hheap.
    now rewrite (write_priorities_hit normalized name p ref Hd Hp reg Hdist Href).
  - intros name Hnone. rewrite Hrep. unfold reported. rewrite Hmap.
    destruct (dict_get name (star_handlers_map reg)) as [ref|] eqn:Href; [|reflexivity].
    now rewrite Hheap, (write_priorities_miss normalized name ref reg Hdist Hnone Href).
  - intros name Hnone. rewrite Hrep. unfold reported. now rewrite Hmap, Hnone.
Qed.

(** X12. One override value that [int] rejects aborts the whole call: the
    exception of [int] goes to the caller, and neither the store nor the
    registry has been written, the other overrides included. *)
Theorem apply_priority_overrides_rejects_bad_value
  (items : dict) (k : string) (v : json) (e : exn) (sp : Store) (reg : Registry) :
  In (k, v) items -> py_int v = Raise e ->
  exists e', is_Exception e' = true /\
    apply_priority_overrides (JObj items) sp reg = (Raise e', sp, reg).
Proof.
  intros Hin Hv. unfold Compatibility.apply_priority_overrides, items_of, py_or.
  destruct items as [|item items]; [destruct Hin|]. cbn [truthy bind].
  destruct (normalize_raises _ k v e Hin Hv []) as [e' He'].
  exists e'. rewrite He'. split; [|reflexivity].
  now apply (normalize_raises_Exception _ _ _ He').
Qed.

End Overrides.

(** Once [int] has accepted every value, [apply_priority_overrides] raises
    only what the store raised and [except Exception] lets through. *)
Lemma apply_priority_overrides_returns (Store : Type)
  (global_put : Store -> string -> json -> result Store)
  (overrides : json) (sp : Store) (reg : Registry) (normalized : list (string * Z)) :
  (items <- items_of overrides ;; normalize items []) = Return normalized ->
  (forall e, global_put sp "handler_priority_overrides" (overrides_json normalized) = Raise e ->
             is_Exception e = true) ->
  exists b,
    fst (fst (Compatibility.apply_priority_overrides Store global_put overrides sp reg))
    = Return b.
Proof.
  intros Hnorm Hput. unfold Compatibility.apply_priority_overrides. rewrite Hnorm.
  destruct (global_put sp "handler_priority_overrides" (overrides_json normalized))
    as [sp'|e] eqn:Eput; [now exists true|].
  rewrite (Hput e eq_refl). cbv zeta.
  destruct (sort_handlers (write_priorities normalized reg)) as [reg''|e'] eqn:Esort;
    [now exists true|].
  rewrite (sort_handlers_raises _ _ Esort). now exists false.
Qed.

Lemma get_priority_overrides_reads_registry_witness :
  exists d,
    Compatibility.get_priority_overrides unit DemoHost.failing_get tt two_handlers = Return d /\
    (forall name, dict_get name d = reported two_handlers name).
Proof.
  destruct (get_priority_overrides_reads_registry unit DemoHost.failing_get tt two_handlers
              (Exception "store unavailable") eq_refl eq_refl)
    as (d & Hd & Hrep & _).
  - unfold is_dict, dict_keys. cbn.
    repeat (constructor; [cbn; intuition discriminate|]); constructor.
  - exists d. now split.
Defined.

Lemma overrides_round_trip_through_store_witness :
  Compatibility.get_priority_overrides DemoHost.MemoryStore.t
    DemoHost.MemoryStore.global_get
    (dict_set "handler_priority_overrides" (overrides_json [("on_command", 7)]) [])
    two_handlers
  = Return [("on_command", 7)].
Proof.
  refine (proj1 (proj2 (overrides_round_trip_through_store
            DemoHost.MemoryStore.t DemoHost.MemoryStore.global_get DemoHost.MemoryStore.global_put
            (JObj [("on_command", JStr " 7 ")]) [] _ two_handlers [("on_command", 7)]
            _ eq_refl eq_refl)) _ two_handlers).
  - intros s key v s' [= <-] default. unfold DemoHost.MemoryStore.global_get, get_or.
    now rewrite dict_get_set_same.
  - discriminate.
Defined.

Lemma overrides_round_trip_through_registry_witness :
  exists d,
    Compatibility.get_priority_overrides unit DemoHost.failing_get tt
      (snd (Compatibility.apply_priority_overrides unit failing_put
              (JObj [("on_command", JInt 7)]) tt two_handlers)) = Return d /\
    dict_get "on_command" d = Some 7 /\
    dict_get "on_message" d = None.
Proof.
  assert (Hdist : distinct_handlers two_handlers).
  { split; [unfold is_dict, dict_keys|]; cbn;
      repeat (constructor; [cbn; intuition discriminate|]); constructor. }
  destruct (overrides_round_trip_through_registry unit DemoHost.failing_get failing_put
              (JObj [("on_command", JInt 7)]) tt two_handlers
              (snd (Compatibility.apply_priority_overrides unit failing_put
                      (JObj [("on_command", JInt 7)]) tt two_handlers))
              [("on_command", 7)] (Exception "store unavailable")
              (Exception "store unavailable")
              eq_refl eq_refl eq_refl eq_refl eq_refl Hdist eq_refl)
    as (d & Hd & Hhit & Hmiss & _).
  exists d. split; [exact Hd|]. split.
  - exact (Hhit "on_command" 7 1%nat eq_refl eq_refl).
  - rewrite (Hmiss "on_message" eq_refl). reflexivity.
Defined.

Lemma apply_priority_overrides_rejects_bad_value_witness :
  exists e',
    Compatibility.apply_priority_overrides unit failing_put
      (JObj [("on_message", JInt 5); ("on_command", JStr "high")]) tt two_handlers
    = (Raise e', tt, two_handlers).
Proof.
  destruct (apply_priority_overrides_rejects_bad_value unit failing_put
              [("on_message", JInt 5); ("on_command", JStr "high")]
              "on_command" (JStr "high")
              (ValueError "invalid literal for int() with base 10") tt two_handlers
              ltac:(cbn; tauto) eq_refl) as (e' & _ & H).
  now exists e'.
Defined.

End CompatibilityProperties.

(** ** [exporter.py]: what an exported document holds *)
Module ExporterProperties.
Import SensitiveFilterProperties CompatibilityProperties.
Import Py PyFacts Models ModelsFacts Exporter ExporterFacts SensitiveFilter.

Lemma export_star_skip (options : ExportOptions) (exclude : list string)
  (acc : list CollectionPlugin.t * option dict) (plugin : Star.t) :
  exported exclude plugin = false -> export_star options exclude acc plugin = acc.
Proof.
  unfold exported, export_star. destruct acc as [plugins configs].
  destruct (Star.in_names _ _); [reflexivity|].
  destruct (Star.falsy (Star.repo plugin)); [reflexivity|].
  destruct (Star.falsy (Star.name plugin)); [reflexivity | discriminate].
Qed.

Lemma export_star_keep (options : ExportOptions) (exclude : list string)
  (plugins : list CollectionPlugin.t) (configs : option dict) (plugin : Star.t) :
  exported exclude plugin = true ->
  exists p n,
    entry_of plugin p /\ CollectionPlugin.name p = n /\
    export_star options exclude (plugins, configs) plugin =
    (plugins ++ [p],
     match include_configs options, configs, Star.config plugin with
     | true, Some cfgs, Some cfg =>
         Some (dict_set n (filter_data_default (JObj cfg)) cfgs)
     | _, _, _ => configs
     end).
Proof.
  unfold exported, export_star. intros H.
  apply andb_true_iff in H. destruct H as [H Hname].
  apply andb_true_iff in H. destruct H as [Hex Hrepo].
  apply negb_true_iff in Hex, Hrepo, Hname. rewrite Hex, Hrepo, Hname.
  destruct (Star.name plugin) as [n|] eqn:En; [|discriminate].
  destruct (Star.repo plugin) as [r|] eqn:Er; [|discriminate].
  exists {| CollectionPlugin.name := n;
            CollectionPlugin.repo := r;
            CollectionPlugin.version :=
              if Star.falsy (Star.version plugin) then ""
              else match Star.version plugin with Some v => v | None => "" end;
            CollectionPlugin.display_name := Star.display_name plugin |}, n.
  split; [|split; [reflexivity|]].
  2:{ destruct (include_configs options), configs as [cfgs|], (Star.config plugin) as [cfg|];
        reflexivity. }
  unfold entry_of. cbn [CollectionPlugin.name CollectionPlugin.repo
    CollectionPlugin.version CollectionPlugin.display_name].
  rewrite En, Er. repeat split.
  destruct (Star.version plugin) as [v|]; cbn [Star.falsy]; [|reflexivity].
  destruct (String.eqb_spec v ""); [now subst | reflexivity].
Qed.

(** The loop of [export]: one entry per exported star, in order; a stored
    configuration is the filtered configuration of an exported star, stored
    under its name. *)
Lemma export_loop (options : ExportOptions) (exclude : list string) (stars : list Star.t) :
  forall plugins configs,
  exists added configs',
    fold_left (export_star options exclude) stars (plugins, configs) =
      (plugins ++ added, configs') /\
    Forall2 entry_of (filter (exported exclude) stars) added /\
    (configs = None -> configs' = None) /\
    (forall cfgs, configs = Some cfgs ->
       exists cfgs', configs' = Some cfgs' /\
         forall n c, In (n, c) cfgs' ->
           In (n, c) cfgs \/
           exists plugin cfg,
             In plugin stars /\ exported exclude plugin = true /\
             Star.name plugin = Some n /\ Star.config plugin = Some cfg /\
             c = filter_data_default (JObj cfg)).
Proof.
  induction stars as [|plugin stars IH]; intros plugins configs; cbn [fold_left filter].
  - exists [], configs. rewrite app_nil_r. repeat split; [constructor | auto |].
    intros cfgs ->. exists cfgs. split; [reflexivity | auto].
  - destruct (exported exclude plugin) eqn:Ex.
    + destruct (export_star_keep options exclude plugins configs plugin Ex)
        as (p & n & Hentry & Hn & ->).
      destruct (IH (plugins ++ [p])
                  (match include_configs options, configs, Star.config plugin with
                   | true, Some cfgs, Some cfg =>
                       Some (dict_set n (filter_data_default (JObj cfg)) cfgs)
                   | _, _, _ => configs
                   end))
        as (added & configs' & Hfold & Hadded & Hnone & Hsome).
      exists (p :: added), configs'. rewrite <- app_assoc in Hfold.
      split; [exact Hfold|].
      split; [now constructor|]. split.
      * intros ->. apply Hnone.
        destruct (include_configs options); reflexivity.
      * intros cfgs ->.
        destruct (include_configs options) eqn:Einc, (Star.config plugin) as [cfg|] eqn:Ecfg.
        -- destruct (Hsome _ eq_refl) as (cfgs' & -> & Hin). exists cfgs'.
           split; [reflexivity|]. intros n' c Hc.
           destruct (Hin n' c Hc) as [Hold | (pl & cf & Hpl & Hrest)].
           ++ apply dict_set_in in Hold. destruct Hold as [[-> ->]|Hold]; [|now left].
              right. exists plugin, cfg. destruct Hentry as (Hname & _).
              repeat split; trivial; [now left | now rewrite Hname, Hn].
           ++ right. exists pl, cf. split; [now right | exact Hrest].
        -- destruct (Hsome _ eq_refl) as (cfgs' & -> & Hin). exists cfgs'.
           split; [reflexivity|]. intros n' c Hc.
           destruct (Hin n' c Hc) as [Hold | (pl & cf & Hpl & Hrest)]; [now left|].
           right. exists pl, cf. split; [now right | exact Hrest].
        -- destruct (Hsome _ eq_refl) as (cfgs' & -> & Hin). exists cfgs'.
           split; [reflexivity|]. intros n' c Hc.
           destruct (Hin n' c Hc) as [Hold | (pl & cf & Hpl & Hrest)]; [now left|].
           right. exists pl, cf. split; [now right | exact Hrest].
        -- destruct (Hsome _ eq_refl) as (cfgs' & -> & Hin). exists cfgs'.
           split; [reflexivity|]. intros n' c Hc.
           destruct (Hin n' c Hc) as [Hold | (pl & cf & Hpl & Hrest)]; [now left|].
           right. exists pl, cf. split; [now right | exact Hrest].
    + rewrite export_star_skip by exact Ex.
      destruct (IH plugins configs) as (added & configs' & Hfold & Hadded & Hnone & Hsome).
      exists added, configs'. split; [exact Hfold|]. split; [exact Hadded|].
      split; [exact Hnone|]. intros cfgs Hc.
      destruct (Hsome cfgs Hc) as (cfgs' & -> & Hin). exists cfgs'.
      split; [reflexivity|]. intros n' c Hin'.
      destruct (Hin n' c Hin') as [Hold | (pl & cf & Hpl & Hrest)]; [now left|].
      right. exists pl, cf. split; [now right | exact Hrest].
Qed.

Lemma to_dict_mem (doc : PluginCollection.t) :
  dict_mem "plugin_configs" (PluginCollection.to_dict doc) =
    match PluginCollection.plugin_configs doc with JNull => false | _ => true end /\
  dict_mem "handler_priority_overrides" (PluginCollection.to_dict doc) =
    match PluginCollection.handler_priority_overrides doc with JNull => false | _ => true end.
Proof.
  destruct doc as [sv meta ps pc hpo]. unfold PluginCollection.to_dict.
  cbn [PluginCollection.plugin_configs PluginCollection.handler_priority_overrides].
  destruct pc, hpo; split; reflexivity.
Qed.

Section Run.
Variable stars : list Star.t.
Variable Store : Type.
Variable global_get : Store -> string -> json -> result json.
Variable sp : Store.
Variable registry : Compatibility.Registry.
Variable now : string.
Variable VERSION : string.
Variable py_repr : json -> string.

Local Abbreviation export_collection :=
  (export_collection stars Store global_get sp registry now VERSION).
Local Abbreviation export :=
  (export stars Store global_get sp registry now VERSION py_repr).

(** What [export_collection] returns, in terms of the loop. *)
Lemma export_collection_inv (options : ExportOptions) (doc : PluginCollection.t) :
  export_collection options = Return doc ->
  exists configs',
    fold_left (export_star options (excluded options)) stars
      ([], if include_configs options then Some [] else None)
    = (PluginCollection.plugins doc, configs') /\
    PluginCollection.plugin_configs doc = opt_dict_json configs' /\
    CollectionMetadata.plugin_count (PluginCollection.metadata doc) =
      Z.of_nat (List.length (PluginCollection.plugins doc)) /\
    (if include_priority options
     then exists d, PluginCollection.handler_priority_overrides doc =
                    Compatibility.overrides_json d
     else PluginCollection.handler_priority_overrides doc = JNull).
Proof.
  unfold Exporter.export_collection, excluded. intros H.
  destruct (fold_left _ stars _) as [plugins configs'].
  exists configs'.
  destruct (include_priority options).
  - destruct (Compatibility.get_priority_overrides _ _ _ _) as [d|e]; cbn [bind] in H;
      [|discriminate].
    injection H as <-. repeat split. now exists d.
  - cbn [bind] in H. injection H as <-. repeat split.
Qed.

(** X13. The document [export] assembles lists one plugin per installed star
    that is not excluded and has a repo and a name: in the order of
    [get_all_stars], with the star's name, repo, version ([""] for none) and
    display name; [plugin_count] is the number of listed plugins. *)
Theorem export_lists_exported_stars (options : ExportOptions) (doc : PluginCollection.t) :
  export_collection options = Return doc ->
  Forall2 entry_of (filter (exported (excluded options)) stars)
          (PluginCollection.plugins doc) /\
  CollectionMetadata.plugin_count (PluginCollection.metadata doc) =
    Z.of_nat (List.length (filter (exported (excluded options)) stars)).
Proof.
  intros H. destruct (export_collection_inv options doc H) as (configs' & Hfold & _ & Hcount & _).
  destruct (export_loop options (excluded options) stars []
              (if include_configs options then Some [] else None))
    as (added & configs'' & Hloop & Hadded & _).
  pose proof (eq_trans (eq_sym Hloop) Hfold) as E. cbn [app] in E. injection E as E1 _.
  rewrite Hcount, <- E1. split; [exact Hadded|]. f_equal.
  symmetry. apply (Forall2_length Hadded).
Qed.

(** X14. Every configuration in an exported document has gone through the
    filter: it is stored under the name of an exported star and is the
    filtered configuration of such a star, so it holds no sensitive key and
    no sensitive value down to the depth bound. *)
Theorem export_configs_are_filtered
  (options : ExportOptions) (doc : PluginCollection.t) (cfgs : dict) :
  export_collection options = Return doc ->
  PluginCollection.plugin_configs doc = JObj cfgs ->
  forall n c, In (n, c) cfgs ->
    scrubbed 0 20 c = true /\
    exists plugin cfg,
      In plugin stars /\ exported (excluded options) plugin = true /\
      Star.name plugin = Some n /\ Star.config plugin = Some cfg /\
      c = filter_data_default (JObj cfg).
Proof.
  intros H Hcfgs n c Hin.
  destruct (export_collection_inv options doc H) as (configs' & Hfold & Hpc & _).
  destruct (export_loop options (excluded options) stars []
              (if include_configs options then Some [] else None))
    as (added & configs'' & Hloop & _ & Hnone & Hsome).
  pose proof (eq_trans (eq_sym Hloop) Hfold) as E. injection E as _ <-.
  rewrite Hpc in Hcfgs.
  destruct (include_configs options).
  - destruct (Hsome [] eq_refl) as (cfgs' & -> & Hentries).
    cbn [opt_dict_json] in Hcfgs. injection Hcfgs as ->.
    destruct (Hentries n c Hin) as [[] | (plugin & cfg & Hrest)].
    split; [|now exists plugin, cfg].
    destruct Hrest as (_ & _ & _ & _ & ->). apply filter_data_scrubbed.
  - rewrite (Hnone eq_refl) in Hcfgs. discriminate.
Qed.

(** X15. The payload holds the key ["plugin_configs"] exactly when
    [include_configs] is set, and the key ["handler_priority_overrides"]
    exactly when [include_priority] is set: an empty mapping is written, a
    switched-off section is left out. *)
Theorem export_sections_follow_options (options : ExportOptions) (payload : json) :
  export options = Return payload ->
  exists d, payload = JObj d /\
    dict_mem "plugin_configs" d = include_configs options /\
    dict_mem "handler_priority_overrides" d = include_priority options.
Proof.
  unfold Exporter.export. intros H.
  destruct (export_collection options) as [doc|e] eqn:Edoc; cbn [bind] in H; [|discriminate].
  destruct (PluginCollection.validate_dict _ _) as [[]|e]; cbn [bind] in H; [|discriminate].
  injection H as <-. exists (PluginCollection.to_dict doc). split; [reflexivity|].
  destruct (to_dict_mem doc) as [-> ->].
  destruct (export_collection_inv options doc Edoc) as (configs' & Hfold & -> & _ & Hhpo).
  destruct (export_loop options (excluded options) stars []
              (if include_configs options then Some [] else None))
    as (added & configs'' & Hloop & _ & Hnone & Hsome).
  pose proof (eq_trans (eq_sym Hloop) Hfold) as E. injection E as _ <-.
  split.
  - destruct (include_configs options).
    + destruct (Hsome [] eq_refl) as (cfgs' & -> & _). reflexivity.
    + now rewrite (Hnone eq_refl).
  - destruct (include_priority options).
    + destruct Hhpo as [d ->]. reflexivity.
    + now rewrite Hhpo.
Qed.


End Run.

Lemma export_lists_exported_stars_witness :
  exists doc,
    Exporter.export_collection (DemoHost.stars DemoHost.installed) unit
      DemoHost.failing_get tt (DemoHost.registry DemoHost.installed)
      "2026-01-01T00:00:00+00:00" "4.0.0" DemoHost.without_B = Return doc /\
    Forall2 entry_of [DemoHost.star "A" false (Some [("mode", JStr "quiet");
                                                    ("api_key", JStr "sk-abc123")]);
                      DemoHost.star "C" true None]
            (PluginCollection.plugins doc) /\
    CollectionMetadata.plugin_count (PluginCollection.metadata doc) = 2.
Proof.
  eexists. split; [vm_compute; reflexivity|].
  apply (export_lists_exported_stars (DemoHost.stars DemoHost.installed) unit
           DemoHost.failing_get tt (DemoHost.registry DemoHost.installed)
           "2026-01-01T00:00:00+00:00" "4.0.0" DemoHost.without_B).
  vm_compute. reflexivity.
Defined.

Lemma export_configs_are_filtered_witness :
  exists doc c,
    Exporter.export_collection (DemoHost.stars DemoHost.installed) unit
      DemoHost.failing_get tt (DemoHost.registry DemoHost.installed)
      "2026-01-01T00:00:00+00:00" "4.0.0" DemoHost.without_B = Return doc /\
    PluginCollection.plugin_configs doc = JObj [("A", c)] /\
    scrubbed 0 20 c = true.
Proof.
  eexists. eexists. split; [vm_compute; reflexivity|]. split; [reflexivity|].
  refine (proj1 (export_configs_are_filtered (DemoHost.stars DemoHost.installed) unit
           DemoHost.failing_get tt (DemoHost.registry DemoHost.installed)
           "2026-01-01T00:00:00+00:00" "4.0.0" DemoHost.without_B _ _ _ _ "A" _ _)).
  - vm_compute. reflexivity.
  - reflexivity.
  - now left.
Defined.

Lemma export_sections_follow_options_witness :
  exists d,
    Exporter.export (DemoHost.stars DemoHost.installed) unit
      DemoHost.failing_get tt (DemoHost.registry DemoHost.installed)
      "2026-01-01T00:00:00+00:00" "4.0.0" demo_repr DemoHost.plugins_only = Return (JObj d) /\
    dict_mem "plugin_configs" d = false /\
    dict_mem "handler_priority_overrides" d = false.
Proof.
  destruct (export_sections_follow_options (DemoHost.stars DemoHost.installed) unit
              DemoHost.failing_get tt (DemoHost.registry DemoHost.installed)
              "2026-01-01T00:00:00+00:00" "4.0.0" demo_repr DemoHost.plugins_only _ eq_refl)
    as (d & Hd & Hc & Hp).
  exists d. split; [now rewrite <- Hd | now split].
Defined.


End ExporterProperties.

(** ** [importer.py]: the report and the calls of an import *)
Module ImporterProperties.
Import SensitiveFilterProperties CompatibilityProperties.
Import Py PyFacts Models Importer ImporterFacts.

Lemma filter_partition {A : Type} (f : A -> bool) (l : list A) :
  Permutation (filter f l ++ filter (fun x => negb (f x)) l) l.
Proof.
  induction l as [|x l IH]; cbn [filter]; [constructor|].
  destruct (f x); cbn [negb app].
  - now constructor.
  - symmetry. apply Permutation_cons_app. now symmetry.
Qed.

Lemma plan_installs_spec (options : ImportOptions) (installed_before : list (option string))
  (plugins : list CollectionPlugin.t) :
  plan_installs options installed_before plugins =
  (map (fun p => JObj [("name", JStr (CollectionPlugin.name p));
                       ("reason", JStr "already_installed")])
       (filter (already_installed options installed_before) plugins),
   map (fun p => (CollectionPlugin.name p, CollectionPlugin.repo p))
       (filter (fun p => negb (already_installed options installed_before p)) plugins)).
Proof.
  unfold plan_installs.
  set (step := fun (acc : list json * list (string * string)) (p : CollectionPlugin.t) => _).
  assert (H : forall ps skipped tasks,
    fold_left step ps (skipped, tasks) =
    (skipped ++ map (fun p => JObj [("name", JStr (CollectionPlugin.name p));
                                    ("reason", JStr "already_installed")])
                    (filter (already_installed options installed_before) ps),
     tasks ++ map (fun p => (CollectionPlugin.name p, CollectionPlugin.repo p))
                  (filter (fun p => negb (already_installed options installed_before p)) ps))).
  { induction ps as [|p ps IH]; intros skipped tasks; cbn [fold_left filter map].
    - now rewrite !app_nil_r.
    - unfold step at 2. fold (already_installed options installed_before p).
      destruct (already_installed options installed_before p); cbn [negb map];
        rewrite IH, <- app_assoc; reflexivity. }
  apply (H plugins [] []).
Qed.

Section Host.
Variable World : Type.
Variable get_all_stars : World -> list Star.t.
Variable get_registered_star : World -> string -> option Star.t.
Variable detect_conflicts : option (World -> list string -> result json).
Variable uninstall_plugin : World -> string -> result unit * World.
Variable install_plugin : World -> string -> string -> result unit * World.
Variable save_config : World -> string -> dict -> result unit * World.
Variable reload : World -> string -> result unit * World.
Variable apply_priority_overrides : World -> json -> result bool * World.

Local Abbreviation M := (M World).
Local Abbreviation import_collection :=
  (import_collection World get_all_stars get_registered_star detect_conflicts
     uninstall_plugin install_plugin save_config reload apply_priority_overrides).
Local Abbreviation install_phase := (install_phase World install_plugin).
Local Abbreviation config_phase :=
  (config_phase World get_registered_star save_config reload).
Local Abbreviation priority_phase := (priority_phase World apply_priority_overrides).
Local Abbreviation uninstall_phase := (uninstall_phase World get_all_stars uninstall_plugin).
Local Abbreviation check_conflicts := (check_conflicts World detect_conflicts).
Local Abbreviation install_outcome := (install_outcome World install_plugin).
Local Abbreviation returns := (returns World).

Lemma bindM_returns {A B : Type} (m : M A) (k : A -> M B) (w w' : World)
  (tr tr' : list event) (b : B) :
  bindM World m k w tr = (Return b, w', tr') ->
  exists a w1 tr1, m w tr = (Return a, w1, tr1) /\ k a w1 tr1 = (Return b, w', tr').
Proof.
  unfold bindM. destruct (m w tr) as [[[a|e] w1] tr1]; [|discriminate].
  intros H. now exists a, w1, tr1.
Qed.

Lemma install_one_run (options : ImportOptions) (t : string * string)
  (w : World) (tr : list event) :
  exists r w',
    gathered World (_install_one World install_plugin options (fst t) (snd t)) w tr =
      (Return r, w', tr ++ [EvInstall (snd t) (proxy options)]) /\
    install_outcome options t r.
Proof.
  unfold gathered, _install_one, bindM, try_except, call, ret, install_outcome.
  destruct (install_plugin w (snd t) (proxy options)) as [[[]|e] w1] eqn:Einstall.
  - eexists _, _. split; [reflexivity|]. right; eauto.
  - destruct (is_Exception e) eqn:Ee.
    + eexists _, _. split; [reflexivity|]. right; eauto.
    + apply not_Exception_cancelled in Ee. subst e.
      eexists _, _. split; [reflexivity|]. left. split; [reflexivity|].
      exists w. now rewrite Einstall.
Qed.

(** The install loop runs every task. *)
Lemma install_loop (options : ImportOptions) (tasks : list (string * string)) :
  forall raw w tr,
  exists rs w',
    for_each World tasks raw
      (fun raw t =>
         bindM World (gathered World (_install_one World install_plugin options (fst t) (snd t)))
           (fun r => ret World (raw ++ [r]))) w tr
    = (Return (raw ++ rs), w',
       tr ++ map (fun t => EvInstall (snd t) (proxy options)) tasks) /\
    Forall2 (install_outcome options) tasks rs.
Proof.
  induction tasks as [|t tasks IH]; intros raw w tr; cbn [for_each map].
  - exists [], w. rewrite !app_nil_r. split; [reflexivity | constructor].
  - rewrite bindM_run, bindM_run.
    destruct (install_one_run options t w tr) as (r & w1 & -> & Hr).
    cbn [ret].
    destruct (IH (raw ++ [r]) w1 (tr ++ [EvInstall (snd t) (proxy options)]))
      as (rs & w' & -> & Hrs).
    exists (r :: rs), w'. rewrite <- !app_assoc. split; [reflexivity | now constructor].
Qed.

Lemma sort_results_returns (raw : list (result json)) :
  forall installed failed installed' failed',
    sort_results raw installed failed = Return (installed', failed') ->
    (forall options t, Forall2 (install_outcome options) t raw ->
       exists entries,
         raw = map Return entries /\
         installed' = installed ++ filter status_ok entries /\
         failed' = failed ++ filter (fun e => negb (status_ok e)) entries).
Proof.
  induction raw as [|r raw IH]; intros installed failed installed' failed' H options t Ht.
  - cbn in H. injection H as <- <-. exists []. now rewrite !app_nil_r.
  - inversion Ht as [|t0 r0 ts rs Hr Hrest]; subst.
    destruct Hr as [[-> _] | (status & message & ->)]; [discriminate|].
    cbn [sort_results] in H.
    assert (Hok : forall d, d = [("name", JStr (fst t0)); ("status", JStr status);
                                 ("message", JStr message)] ->
                  json_eqb (get "status" d) (JStr "ok") = String.eqb status "ok")
      by (intros d ->; reflexivity).
    rewrite (Hok _ eq_refl) in H.
    assert (Hst : status_ok (JObj [("name", JStr (fst t0)); ("status", JStr status);
                                   ("message", JStr message)]) = String.eqb status "ok")
      by reflexivity.
    destruct (String.eqb status "ok") eqn:Eok;
      destruct (IH _ _ _ _ H options ts Hrest) as (entries & -> & -> & ->);
      eexists (_ :: entries); cbn [map filter]; rewrite Hst; cbn [negb];
      rewrite <- app_assoc; repeat split.
Qed.

(** ** Runs *)

Lemma emits_run {A : Type} (P : event -> Prop) (m : M A) (w w' : World)
  (tr tr' : list event) (r : result A) :
  emits World P m -> m w tr = (r, w', tr') ->
  exists evs, tr' = tr ++ evs /\ Forall P evs.
Proof.
  intros Hm Hrun. destruct (Hm w tr) as [evs [Htr Hevs]].
  rewrite Hrun in Htr. cbn [snd] in Htr. now exists evs.
Qed.

Lemma config_phase_emits (P : event -> Prop) (collection : PluginCollection.t)
  (options : ImportOptions) (installed_before : list (option string)) :
  (apply_configs options = true ->
   forall n, (forall cfg, P (EvSaveConfig n cfg)) /\ P (EvReload n)) ->
  emits World P (config_phase collection options installed_before).
Proof.
  intros HP. unfold Importer.config_phase.
  destruct (apply_configs options); [|apply emits_ret].
  destruct (PluginCollection.plugin_configs collection); try apply emits_ret.
  apply emits_for_each. intros acc item _. apply apply_config_emits.
  intros _. now apply HP.
Qed.

(** The import, for a mode it accepts, phase by phase. *)
Lemma import_collection_phases (collection : PluginCollection.t) (options : ImportOptions) :
  import_mode options = "add" \/ import_mode options = "clean" ->
  import_collection collection options =
  bindM World (read World (fun w => star_names (get_all_stars w)))
    (fun installed_before =>
     bindM World (check_conflicts (names_of (PluginCollection.plugins collection)))
       (fun conflict_report =>
        bindM World (uninstall_phase collection options)
          (fun uninstalled =>
           bindM World (install_phase collection options installed_before)
             (fun results =>
              bindM World (config_phase collection options installed_before)
                (fun configs_applied =>
                 bindM World (priority_phase collection options)
                   (fun priority_applied =>
                    let result := [ ("installed", JArr (fst (fst results)));
                                    ("failed", JArr (snd (fst results)));
                                    ("skipped", JArr (snd results));
                                    ("uninstalled", JArr uninstalled);
                                    ("configs_applied", JInt configs_applied);
                                    ("priority_applied", JBool priority_applied) ] in
                    match conflict_report with
                    | JNull => ret World result
                    | report => ret World (dict_set "conflicts" report result)
                    end)))))).
Proof.
  intros Hmode. unfold Importer.import_collection.
  destruct Hmode as [-> | ->]; reflexivity.
Qed.

Lemma import_collection_returns (collection : PluginCollection.t) (options : ImportOptions)
  (w w' : World) (tr tr' : list event) (result : dict) :
  import_mode options = "add" \/ import_mode options = "clean" ->
  import_collection collection options w tr = (Return result, w', tr') ->
  exists conflict_report uninstalled installed failed skipped configs_applied
         priority_applied w1 w2 w3 w4 tr1 tr2 tr3 tr4,
    check_conflicts (names_of (PluginCollection.plugins collection)) w tr
      = (Return conflict_report, w1, tr1) /\
    uninstall_phase collection options w1 tr1 = (Return uninstalled, w2, tr2) /\
    install_phase collection options (star_names (get_all_stars w)) w2 tr2
      = (Return (installed, failed, skipped), w3, tr3) /\
    config_phase collection options (star_names (get_all_stars w)) w3 tr3
      = (Return configs_applied, w4, tr4) /\
    priority_phase collection options w4 tr4 = (Return priority_applied, w', tr') /\
    result = report_of conflict_report uninstalled installed failed skipped
               configs_applied priority_applied.
Proof.
  intros Hmode H. rewrite (import_collection_phases collection options Hmode) in H.
  apply bindM_returns in H. destruct H as (ib & w0 & tr0 & Hread & H).
  cbn [read] in Hread. injection Hread as <- <- <-.
  apply bindM_returns in H. destruct H as (report & w1 & tr1 & H1 & H).
  apply bindM_returns in H. destruct H as (uninstalled & w2 & tr2 & H2 & H).
  apply bindM_returns in H. destruct H as ([[installed failed] skipped] & w3 & tr3 & H3 & H).
  apply bindM_returns in H. destruct H as (configs_applied & w4 & tr4 & H4 & H).
  apply bindM_returns in H. destruct H as (priority_applied & w5 & tr5 & H5 & H).
  exists report, uninstalled, installed, failed, skipped, configs_applied,
    priority_applied, w1, w2, w3, w4, tr1, tr2, tr3, tr4.
  cbv zeta in H. cbn [fst snd] in H.
  assert (E : (Return result, w', tr') =
              (Return (report_of report uninstalled installed failed skipped
                         configs_applied priority_applied), w5, tr5)).
  { rewrite <- H. unfold report_of. destruct report; reflexivity. }
  injection E as -> -> ->. repeat split; assumption.
Qed.

Lemma install_phase_run (collection : PluginCollection.t) (options : ImportOptions)
  (installed_before : list (option string)) (w : World) (tr : list event) :
  exists rs w',
    Forall2 (install_outcome options)
      (map (fun p => (CollectionPlugin.name p, CollectionPlugin.repo p))
           (filter (fun p => negb (already_installed options installed_before p))
                   (PluginCollection.plugins collection))) rs /\
    install_phase collection options installed_before w tr =
    (match sort_results rs [] [] with
     | Return (installed, failed) =>
         Return (installed, failed,
                 map (fun p => JObj [("name", JStr (CollectionPlugin.name p));
                                     ("reason", JStr "already_installed")])
                     (filter (already_installed options installed_before)
                             (PluginCollection.plugins collection)))
     | Raise e => Raise e
     end,
     w',
     tr ++ map (fun p => EvInstall (CollectionPlugin.repo p) (proxy options))
               (filter (fun p => negb (already_installed options installed_before p))
                       (PluginCollection.plugins collection))).
Proof.
  unfold Importer.install_phase. rewrite plan_installs_spec.
  set (tasks := map (fun p => (CollectionPlugin.name p, CollectionPlugin.repo p)) _).
  rewrite bindM_run.
  destruct (install_loop options tasks [] w tr) as (rs & w' & Hloop & Hrs).
  exists rs, w'. split; [exact Hrs|].
  cbn [app] in Hloop. 
  match goal with |- match ?m w tr with _ => _ end = _ => 
    replace (m w tr) with (Return rs, w', tr ++ map (fun t => EvInstall (snd t) (proxy options)) tasks)
  end.
  unfold tasks. rewrite map_map. cbn [snd].
  destruct (sort_results rs [] []) as [[installed failed]|e]; reflexivity.
Qed.

Lemma dict_get_report (key : string) (conflict_report : json)
  (uninstalled installed failed skipped : list json)
  (configs_applied : Z) (priority_applied : bool) :
  key <> "conflicts" ->
  dict_get key (report_of conflict_report uninstalled installed failed skipped
                  configs_applied priority_applied) =
  dict_get key [ ("installed", JArr installed);
                 ("failed", JArr failed);
                 ("skipped", JArr skipped);
                 ("uninstalled", JArr uninstalled);
                 ("configs_applied", JInt configs_applied);
                 ("priority_applied", JBool priority_applied) ].
Proof.
  intros Hne. unfold report_of.
  destruct conflict_report; try reflexivity; now apply dict_get_set_other.
Qed.

Lemma install_calls_app (a b : list event) :
  install_calls (a ++ b) = install_calls a ++ install_calls b.
Proof. unfold install_calls. apply flat_map_app. Qed.

Lemma install_calls_none (evs : list event) :
  Forall (fun ev => match ev with EvInstall _ _ => False | _ => True end) evs ->
  install_calls evs = [].
Proof.
  induction 1 as [|ev evs Hev _ IH]; [reflexivity|].
  destruct ev; try contradiction; exact IH.
Qed.

Lemma install_calls_installs {A : Type} (f : A -> string) (proxy : string) (l : list A) :
  install_calls (map (fun p => EvInstall (f p) proxy) l) = map (fun p => (f p, proxy)) l.
Proof.
  induction l as [|x l IH]; [reflexivity|]. cbn [map].
  change (install_calls (EvInstall (f x) proxy :: map (fun p => EvInstall (f p) proxy) l))
    with ((f x, proxy) :: install_calls (map (fun p => EvInstall (f p) proxy) l)).
  now rewrite IH.
Qed.

(** Every plugin of the document is reported exactly once by an import
    that returns: under ["installed"], ["failed"] or ["skipped"].  The
    skipped ones are those already installed, in [add] mode; an installed
    entry has the status ["ok"], a failed one has not. *)
Lemma import_report_lists (collection : PluginCollection.t)
  (options : ImportOptions) (w w' : World) (tr tr' : list event) (result : dict) :
  import_mode options = "add" \/ import_mode options = "clean" ->
  import_collection collection options w tr = (Return result, w', tr') ->
  exists installed failed skipped,
    dict_get "installed" result = Some (JArr installed) /\
    dict_get "failed" result = Some (JArr failed) /\
    dict_get "skipped" result = Some (JArr skipped) /\
    (List.length installed + List.length failed + List.length skipped =
     List.length (PluginCollection.plugins collection))%nat /\
    Permutation (map entry_name (installed ++ failed ++ skipped))
                (map JStr (names_of (PluginCollection.plugins collection))) /\
    skipped = map (fun p => JObj [("name", JStr (CollectionPlugin.name p));
                                  ("reason", JStr "already_installed")])
                  (filter (already_installed options (star_names (get_all_stars w)))
                          (PluginCollection.plugins collection)) /\
    Forall (fun entry => status_ok entry = true) installed /\
    Forall (fun entry => status_ok entry = false) failed.
Proof.
  intros Hmode H.
  destruct (import_collection_returns _ _ _ _ _ _ _ Hmode H)
    as (report & uninstalled & installed & failed & skipped & configs_applied &
        priority_applied & w1 & w2 & w3 & w4 & tr1 & tr2 & tr3 & tr4 &
        _ & _ & H3 & _ & _ & ->).
  exists installed, failed, skipped.
  rewrite !dict_get_report by discriminate.
  split; [reflexivity|]. split; [reflexivity|]. split; [reflexivity|].
  set (ib := star_names (get_all_stars w)) in *.
  set (plugins := PluginCollection.plugins collection) in *.
  destruct (install_phase_run collection options ib w2 tr2) as (rs & w3' & Hrs & Hrun).
  fold plugins in Hrs, Hrun.
  rewrite Hrun in H3.
  destruct (sort_results rs [] []) as [[installed0 failed0]|e] eqn:Esort; [|discriminate].
  injection H3 as -> -> <- _ _.
  destruct (sort_results_returns _ _ _ _ _ Esort _ _ Hrs) as (entries & -> & -> & ->).
  cbn [app].
  assert (Hnames : map entry_name entries =
                   map JStr (names_of (filter (fun p => negb (already_installed options ib p))
                                              plugins))).
  { clear -Hrs. unfold names_of. rewrite map_map.
    remember (filter _ plugins) as todo eqn:E. clear E.
    revert entries Hrs. induction todo as [|p todo IH]; intros entries Hrs;
      cbn [map] in Hrs; inversion Hrs as [|t r ts rs' Hr Hrest Et Er]; subst.
    - destruct entries; [reflexivity | discriminate].
    - destruct entries as [|entry entries]; [discriminate|]. cbn [map] in Er.
      injection Er as -> ->. cbn [map]. f_equal; [|now apply IH].
      destruct Hr as [[Hr _] | (status & message & Hr)]; [discriminate|].
      injection Hr as ->. reflexivity. }
  assert (Hperm : Permutation (filter status_ok entries ++
                               filter (fun e => negb (status_ok e)) entries) entries)
    by apply filter_partition.
  split; [|split; [|split; [reflexivity|split]]].
  - assert (L1 : (List.length (filter status_ok entries) +
                  List.length (filter (fun e => negb (status_ok e)) entries))%nat =
                 List.length entries)
      by (rewrite <- length_app; apply Permutation_length, Hperm).
    assert (L2 : List.length entries =
                 List.length (filter (fun p => negb (already_installed options ib p)) plugins)).
    { rewrite <- (length_map entry_name), Hnames. unfold names_of.
      now rewrite !length_map. }
    assert (L3 : (List.length (filter (already_installed options ib) plugins) +
                  List.length (filter (fun p => negb (already_installed options ib p)) plugins))%nat
                 = List.length plugins)
      by (rewrite <- length_app; apply Permutation_length, filter_partition).
    rewrite length_map. lia.
  - rewrite app_assoc, map_app.
    rewrite (Permutation_map entry_name Hperm), Hnames.
    rewrite map_map. cbn [entry_name get get_or dict_get String.eqb Ascii.eqb Bool.eqb].
    unfold names_of. rewrite <- !map_map with (g := JStr) (f := CollectionPlugin.name).
    rewrite <- map_app. apply Permutation_map. rewrite <- map_app. apply Permutation_map.
    rewrite Permutation_app_comm. apply filter_partition.
  - apply Forall_forall. intros entry Hin. apply filter_In in Hin. tauto.
  - apply Forall_forall. intros entry Hin. apply filter_In in Hin.
    destruct Hin as [_ Hin]. now apply negb_true_iff in Hin.
Qed.

(** An import that returns has handed to [install_plugin], in the order
    of the document and each with the proxy of the options, the repo of
    every plugin of the document it did not skip: in [clean] mode that is
    every plugin, the ones already installed included. *)
Lemma import_install_calls (collection : PluginCollection.t)
  (options : ImportOptions) (w w' : World) (tr tr' : list event) (result : dict) :
  import_mode options = "add" \/ import_mode options = "clean" ->
  import_collection collection options w tr = (Return result, w', tr') ->
  install_calls tr' =
    install_calls tr ++
    map (fun p => (CollectionPlugin.repo p, proxy options))
        (filter (fun p => negb (already_installed options (star_names (get_all_stars w)) p))
                (PluginCollection.plugins collection)) /\
  (import_mode options = "clean" ->
   install_calls tr' =
     install_calls tr ++
     map (fun p => (CollectionPlugin.repo p, proxy options))
         (PluginCollection.plugins collection)).
Proof.
  intros Hmode H.
  destruct (import_collection_returns _ _ _ _ _ _ _ Hmode H)
    as (report & uninstalled & installed & failed & skipped & configs_applied &
        priority_applied & w1 & w2 & w3 & w4 & tr1 & tr2 & tr3 & tr4 &
        H1 & H2 & H3 & H4 & H5 & _).
  destruct (emits_run not_install _ _ _ _ _ _
              (check_conflicts_emits World detect_conflicts not_install _ I) H1) as (evs1 & -> & Hevs1).
  destruct (emits_run not_install _ _ _ _ _ _
              (uninstall_phase_emits World get_all_stars uninstall_plugin not_install
                 collection options (fun _ => I)) H2)
    as (evs2 & -> & Hevs2).
  destruct (install_phase_run collection options (star_names (get_all_stars w)) w2
              ((tr ++ evs1) ++ evs2)) as (rs & w3' & _ & Hrun).
  rewrite Hrun in H3. injection H3 as _ _ <-.
  destruct (emits_run not_install _ _ _ _ _ _
              (config_phase_emits not_install collection options _
                 (fun _ n => conj (fun _ => I) I)) H4) as (evs4 & -> & Hevs4).
  destruct (emits_run not_install _ _ _ _ _ _
              (priority_phase_emits World apply_priority_overrides not_install
                 collection options (fun _ => I)) H5)
    as (evs5 & -> & Hevs5).
  assert (Hcalls : install_calls
            (((((tr ++ evs1) ++ evs2) ++
               map (fun p => EvInstall (CollectionPlugin.repo p) (proxy options))
                   (filter (fun p => negb (already_installed options
                                             (star_names (get_all_stars w)) p))
                           (PluginCollection.plugins collection))) ++ evs4) ++ evs5) =
          install_calls tr ++
          map (fun p => (CollectionPlugin.repo p, proxy options))
              (filter (fun p => negb (already_installed options
                                        (star_names (get_all_stars w)) p))
                      (PluginCollection.plugins collection))).
  { rewrite !install_calls_app, (install_calls_none evs1 Hevs1),
      (install_calls_none evs2 Hevs2), (install_calls_none evs4 Hevs4),
      (install_calls_none evs5 Hevs5), install_calls_installs, !app_nil_r.
    reflexivity. }
  split; [exact Hcalls|].
  intros Hclean. rewrite Hcalls. do 2 f_equal.
  apply filter_all. intros p _. unfold already_installed. now rewrite Hclean.
Qed.

Lemma import_add_emits (collection : PluginCollection.t) (options : ImportOptions) :
  import_mode options = "add" ->
  emits World (fun ev => is_uninstall ev = false) (import_collection collection options).
Proof.
  intros Hmode.
  rewrite (import_collection_phases collection options (or_introl Hmode)).
  apply emits_bind; [apply emits_read|]. intros installed_before.
  apply emits_bind; [now apply check_conflicts_emits|]. intros report.
  apply emits_bind.
  { unfold Importer.uninstall_phase. rewrite Hmode. apply emits_ret. }
  intros uninstalled.
  apply after_uninstall_emits; try reflexivity. intros; now split.
Qed.

(** X17. In [add] mode an import uninstalls nothing: no call to
    [uninstall_plugin] is made, whatever is installed, and the report of an
    import that returns lists nothing under ["uninstalled"]. *)
Theorem import_add_uninstalls_nothing (collection : PluginCollection.t)
  (options : ImportOptions) :
  import_mode options = "add" ->
  emits World (fun ev => is_uninstall ev = false) (import_collection collection options) /\
  (forall w w' tr tr' result,
     import_collection collection options w tr = (Return result, w', tr') ->
     dict_get "uninstalled" result = Some (JArr [])).
Proof.
  intros Hmode. split; [now apply import_add_emits|].
  intros w w' tr tr' result H.
    destruct (import_collection_returns _ _ _ _ _ _ _ (or_introl Hmode) H)
      as (report & uninstalled & installed & failed & skipped & configs_applied &
          priority_applied & w1 & w2 & w3 & w4 & tr1 & tr2 & tr3 & tr4 &
          _ & H2 & _ & _ & _ & ->).
    rewrite dict_get_report by discriminate.
    unfold Importer.uninstall_phase in H2. rewrite Hmode in H2.
    cbn in H2. injection H2 as <- _ _. reflexivity.
Qed.

(** ** The phases that can be switched off *)

(** X18. A phase that the options switch off does nothing.  With
    [apply_configs] false the import makes no [save_config] and no [reload]
    call and reports 0 configurations applied; with [apply_priority] false
    it does not apply the priority overrides and reports [False]. *)
Theorem import_skips_switched_off_phases (collection : PluginCollection.t)
  (options : ImportOptions) :
  import_mode options = "add" \/ import_mode options = "clean" ->
  (apply_configs options = false ->
   emits World not_config (import_collection collection options) /\
   forall w w' tr tr' result,
     import_collection collection options w tr = (Return result, w', tr') ->
     dict_get "configs_applied" result = Some (JInt 0)) /\
  (apply_priority options = false ->
   emits World not_priority (import_collection collection options) /\
   forall w w' tr tr' result,
     import_collection collection options w tr = (Return result, w', tr') ->
     dict_get "priority_applied" result = Some (JBool false)).
Proof.
  intros Hmode. split; intros Hoff; split.
  - rewrite (import_collection_phases collection options Hmode).
    apply emits_bind; [apply emits_read|]. intros installed_before.
    apply emits_bind; [now apply check_conflicts_emits|]. intros report.
    apply emits_bind; [now apply uninstall_phase_emits|]. intros uninstalled.
    apply emits_bind; [now apply install_phase_emits|]. intros results.
    apply emits_bind; [apply config_phase_emits; congruence|]. intros configs_applied.
    apply emits_bind; [now apply priority_phase_emits|]. intros priority_applied.
    cbv zeta. destruct report; apply emits_ret.
  - intros w w' tr tr' result H.
    destruct (import_collection_returns _ _ _ _ _ _ _ Hmode H)
      as (report & uninstalled & installed & failed & skipped & configs_applied &
          priority_applied & w1 & w2 & w3 & w4 & tr1 & tr2 & tr3 & tr4 &
          _ & _ & _ & H4 & _ & ->).
    rewrite dict_get_report by discriminate.
    unfold Importer.config_phase in H4. rewrite Hoff in H4.
    cbn in H4. injection H4 as <- _ _. reflexivity.
  - rewrite (import_collection_phases collection options Hmode).
    apply emits_bind; [apply emits_read|]. intros installed_before.
    apply emits_bind; [now apply check_conflicts_emits|]. intros report.
    apply emits_bind; [now apply uninstall_phase_emits|]. intros uninstalled.
    apply emits_bind; [now apply install_phase_emits|]. intros results.
    apply emits_bind; [apply config_phase_emits; intros; now split|].
    intros configs_applied.
    apply emits_bind.
    { unfold Importer.priority_phase. rewrite Hoff. apply emits_ret. }
    intros priority_applied.
    cbv zeta. destruct report; apply emits_ret.
  - intros w w' tr tr' result H.
    destruct (import_collection_returns _ _ _ _ _ _ _ Hmode H)
      as (report & uninstalled & installed & failed & skipped & configs_applied &
          priority_applied & w1 & w2 & w3 & w4 & tr1 & tr2 & tr3 & tr4 &
          _ & _ & _ & _ & H5 & ->).
    rewrite dict_get_report by discriminate.
    unfold Importer.priority_phase in H5. rewrite Hoff in H5.
    cbn in H5. injection H5 as <- _ _. reflexivity.
Qed.

(** ** The conflict report *)

Lemma check_conflicts_run (names : list string) (w w1 : World) (tr tr1 : list event)
  (report : json) :
  check_conflicts names w tr = (Return report, w1, tr1) ->
  w1 = w /\
  report = match detect_conflicts with
           | None => JNull
           | Some detect =>
               match detect w names with
               | Return r => r
               | Raise _ => JNull
               end
           end.
Proof.
  unfold Importer.check_conflicts. destruct detect_conflicts as [detect|].
  - unfold bindM, try_except, call, ret.
    destruct (detect w names) as [r|e].
    + intros [= <- <- _]. now split.
    + destruct (is_Exception e); [|discriminate]. intros [= <- <- _]. now split.
  - intros [= <- <- _]. now split.
Qed.

(** X19. The report of an import holds the key ["conflicts"] exactly when the
    platform has conflict detection and the detection returned something
    other than [None]; a detection that is missing, or that raised an
    [Exception], leaves the key out and does not stop the import. *)
Theorem import_reports_conflicts (collection : PluginCollection.t)
  (options : ImportOptions) (w w' : World) (tr tr' : list event) (result : dict) :
  import_mode options = "add" \/ import_mode options = "clean" ->
  import_collection collection options w tr = (Return result, w', tr') ->
  dict_get "conflicts" result =
  match detect_conflicts with
  | None => None
  | Some detect =>
      match detect w (names_of (PluginCollection.plugins collection)) with
      | Return JNull => None
      | Return report => Some report
      | Raise _ => None
      end
  end.
Proof.
  intros Hmode H.
  destruct (import_collection_returns _ _ _ _ _ _ _ Hmode H)
    as (report & uninstalled & installed & failed & skipped & configs_applied &
        priority_applied & w1 & w2 & w3 & w4 & tr1 & tr2 & tr3 & tr4 &
        H1 & _ & _ & _ & _ & ->).
  apply check_conflicts_run in H1. destruct H1 as [_ Hreport].
  assert (Hget : dict_get "conflicts"
                   (report_of report uninstalled installed failed skipped
                      configs_applied priority_applied) =
                 match report with JNull => None | r => Some r end).
  { unfold report_of. destruct report; try apply dict_get_set_same. reflexivity. }
  rewrite Hget, Hreport.
  destruct detect_conflicts as [detect|]; [|reflexivity].
  destruct (detect w _) as [r|e]; reflexivity.
Qed.

(** ** Counting the applied configurations *)

Lemma reload_calls_app (a b : list event) :
  reload_calls (a ++ b) = reload_calls a ++ reload_calls b.
Proof. unfold reload_calls. apply flat_map_app. Qed.

Lemma save_calls_app (a b : list event) :
  save_calls (a ++ b) = save_calls a ++ save_calls b.
Proof. unfold save_calls. apply flat_map_app. Qed.

Lemma no_config_calls (evs : list event) :
  Forall not_config evs -> reload_calls evs = [] /\ save_calls evs = [].
Proof.
  induction 1 as [|ev evs Hev _ [IH1 IH2]]; [now split|].
  destruct ev; try contradiction; now split.
Qed.

Lemma apply_config_count (options : ImportOptions) (installed_before : list (option string))
  (n : Z) (item : string * json) (w w' : World) (tr tr' : list event) (r : result Z) :
  apply_config World get_registered_star save_config reload options installed_before
    n item w tr = (r, w', tr') ->
  exists evs,
    tr' = tr ++ evs /\
    (forall n', r = Return n' -> n' = n + Z.of_nat (List.length (reload_calls evs))) /\
    (List.length (reload_calls evs) <= List.length (save_calls evs) <= 1)%nat.
Proof.
  destruct item as [plugin_name cfg]. unfold apply_config.
  assert (Hnone : (Return n, w, tr) = (r, w', tr') ->
            exists evs, tr' = tr ++ evs /\
              (forall n', r = Return n' ->
                 n' = n + Z.of_nat (List.length (reload_calls evs))) /\
              (List.length (reload_calls evs) <= List.length (save_calls evs) <= 1)%nat).
  { intros [= <- <- <-]. exists []. rewrite app_nil_r. cbn. repeat split; try lia.
    intros n' [= <-]. lia. }
  destruct cfg; try exact Hnone.
  rewrite bindM_run. cbn [read].
  destruct (get_registered_star w plugin_name) as [md|]; [|exact Hnone].
  destruct (Star.config md) as [[|entry current]|]; try exact Hnone.
  destruct (_ && _ && _); [exact Hnone|].
  rewrite bindM_run. unfold try_except at 1, call at 1.
  destruct (save_config w plugin_name _) as [[u|e] w1].
  - rewrite bindM_run. unfold try_except, call.
    destruct (reload w1 plugin_name) as [[u'|e'] w2].
    + cbn [ret]. intros [= <- <- <-]. eexists [_; _]. rewrite <- app_assoc.
      split; [reflexivity|]. cbn. split; [|lia]. intros n' [= <-]. lia.
    + destruct (is_Exception e'); cbn [ret]; intros [= <- <- <-]; eexists [_; _];
        rewrite <- app_assoc; (split; [reflexivity|]); cbn; (split; [|lia]).
      * intros n' [= <-]. lia.
      * discriminate.
  - destruct (is_Exception e); cbn [ret]; intros [= <- <- <-]; eexists [_];
      (split; [reflexivity|]); cbn; (split; [|lia]).
    + intros n' [= <-]. lia.
    + discriminate.
Qed.

Lemma config_loop_count (options : ImportOptions) (installed_before : list (option string))
  (items : dict) :
  forall n w w' tr tr' n',
    for_each World items n
      (apply_config World get_registered_star save_config reload options installed_before)
      w tr = (Return n', w', tr') ->
    exists evs,
      tr' = tr ++ evs /\
      n' = n + Z.of_nat (List.length (reload_calls evs)) /\
      (List.length (reload_calls evs) <= List.length (save_calls evs)
       <= List.length items)%nat.
Proof.
  induction items as [|item items IH]; intros n w w' tr tr' n'; cbn [for_each].
  - intros [= <- <- <-]. exists []. rewrite app_nil_r. cbn. repeat split; lia.
  - intros H. apply bindM_returns in H. destruct H as (n1 & w1 & tr1 & Hstep & Hrest).
    destruct (apply_config_count _ _ _ _ _ _ _ _ _ Hstep) as (evs1 & -> & Hn1 & Hle1).
    destruct (IH _ _ _ _ _ _ Hrest) as (evs2 & -> & -> & Hle2).
    exists (evs1 ++ evs2). rewrite app_assoc. split; [reflexivity|].
    rewrite reload_calls_app, save_calls_app, !length_app.
    rewrite (Hn1 n1 eq_refl). cbn [List.length]. split; lia.
Qed.

(** X20. [configs_applied] counts the reloads: a configuration is counted
    once [save_config] has returned, which is when [reload] is called,
    whether or not that reload then fails; a failed save is not counted.
    No more configurations are saved than the document holds. *)
Theorem import_counts_saved_configs (collection : PluginCollection.t)
  (options : ImportOptions) (w w' : World) (tr' : list event) (result : dict) :
  import_mode options = "add" \/ import_mode options = "clean" ->
  import_collection collection options w [] = (Return result, w', tr') ->
  dict_get "configs_applied" result =
    Some (JInt (Z.of_nat (List.length (reload_calls tr')))) /\
  (List.length (reload_calls tr') <= List.length (save_calls tr')
   <= List.length (match PluginCollection.plugin_configs collection with
                   | JObj items => items
                   | _ => []
                   end))%nat.
Proof.
  intros Hmode H.
  destruct (import_collection_returns _ _ _ _ _ _ _ Hmode H)
    as (report & uninstalled & installed & failed & skipped & configs_applied &
        priority_applied & w1 & w2 & w3 & w4 & tr1 & tr2 & tr3 & tr4 &
        H1 & H2 & H3 & H4 & H5 & ->).
  rewrite dict_get_report by discriminate.
  destruct (emits_run not_config _ _ _ _ _ _
              (check_conflicts_emits World detect_conflicts not_config _ I) H1)
    as (evs1 & -> & Hevs1).
  destruct (emits_run not_config _ _ _ _ _ _
              (uninstall_phase_emits World get_all_stars uninstall_plugin not_config
                 collection options (fun _ => I)) H2) as (evs2 & -> & Hevs2).
  destruct (emits_run not_config _ _ _ _ _ _
              (install_phase_emits World install_plugin not_config
                 collection options _ (fun _ => I)) H3) as (evs3 & -> & Hevs3).
  destruct (emits_run not_config _ _ _ _ _ _
              (priority_phase_emits World apply_priority_overrides not_config
                 collection options (fun _ => I)) H5) as (evs5 & -> & Hevs5).
  destruct (no_config_calls _ Hevs1) as [R1 S1].
  destruct (no_config_calls _ Hevs2) as [R2 S2].
  destruct (no_config_calls _ Hevs3) as [R3 S3].
  destruct (no_config_calls _ Hevs5) as [R5 S5].
  assert (Hcount : exists evs4,
            tr4 = (([] ++ evs1) ++ evs2) ++ evs3 ++ evs4 /\
            configs_applied = Z.of_nat (List.length (reload_calls evs4)) /\
            (List.length (reload_calls evs4) <= List.length (save_calls evs4)
             <= List.length (match PluginCollection.plugin_configs collection with
                             | JObj items => items
                             | _ => []
                             end))%nat).
  { unfold Importer.config_phase in H4.
    destruct (apply_configs options).
    - destruct (PluginCollection.plugin_configs collection) as [| | | | | |items];
        try (cbn [ret] in H4; injection H4 as <- _ <-; exists []; rewrite !app_nil_r;
             cbn; repeat split; lia).
      destruct (config_loop_count _ _ _ _ _ _ _ _ _ H4) as (evs4 & -> & -> & Hle).
      exists evs4. rewrite <- !app_assoc. repeat split; lia.
    - cbn [ret] in H4. injection H4 as <- _ <-. exists []. rewrite !app_nil_r.
      cbn. repeat split; lia. }
  destruct Hcount as (evs4 & -> & -> & Hle).
  cbn [app]. rewrite !reload_calls_app, !save_calls_app, R1, R2, R3, R5, S1, S2, S3, S5.
  cbn [app]. rewrite !app_nil_r. split; [reflexivity | exact Hle].
Qed.

(** ** Failures of the collaborators *)

Lemma returns_ret {A : Type} (a : A) : returns (ret World a).
Proof. intros w tr. now exists a. Qed.

Lemma returns_read {A : Type} (f : World -> A) : returns (read World f).
Proof. intros w tr. now exists (f w). Qed.

Lemma returns_bind {A B : Type} (m : M A) (k : A -> M B) :
  returns m -> (forall a, returns (k a)) -> returns (bindM World m k).
Proof.
  intros Hm Hk w tr. unfold bindM. destruct (Hm w tr) as [a Ha].
  destruct (m w tr) as [[r w1] tr1]. cbn [fst] in Ha. subst r. apply Hk.
Qed.

Lemma returns_for_each {A B : Type} (xs : list A) (body : B -> A -> M B) :
  (forall acc x, returns (body acc x)) ->
  forall acc, returns (for_each World xs acc body).
Proof.
  intros Hbody. induction xs as [|x xs IH]; intros acc; cbn [for_each].
  - apply returns_ret.
  - apply returns_bind; [apply Hbody | exact IH].
Qed.

Lemma returns_try_call {A : Type} (ev : event) (op : World -> result A * World) :
  (forall w e, fst (op w) = Raise e -> is_Exception e = true) ->
  returns (try_except World (call World ev op)).
Proof.
  intros Hop w tr. unfold try_except, call. specialize (Hop w).
  destruct (op w) as [[a|e] w1]; cbn [fst] in *; [now eexists|].
  rewrite (Hop e eq_refl). now eexists.
Qed.

Lemma sort_results_total (options : ImportOptions) (tasks : list (string * string))
  (rs : list (result json)) :
  Forall2 (install_outcome options) tasks rs ->
  Forall (fun r => r <> Raise CancelledError) rs ->
  forall installed failed, exists installed' failed',
    sort_results rs installed failed = Return (installed', failed').
Proof.
  induction 1 as [|t r tasks rs Hr _ IH]; intros Hsafe installed failed; [cbn; eauto|].
  inversion Hsafe as [|? ? Hne Hsafe']; subst.
  destruct Hr as [[-> _] | (status & message & ->)]; [congruence|].
  cbn [sort_results]. destruct (json_eqb _ _); now apply IH.
Qed.

(** X21. A collaborator that fails with an [Exception] does not stop the
    import.  When the conflict detection, [uninstall_plugin],
    [install_plugin], [save_config] and [reload] raise nothing but
    [Exception]s, and applying the overrides of the document raises
    nothing, an import in an accepted mode returns its report, whatever
    fails on the way. *)
Theorem import_survives_failures (collection : PluginCollection.t)
  (options : ImportOptions) :
  import_mode options = "add" \/ import_mode options = "clean" ->
  (forall detect, detect_conflicts = Some detect ->
     forall w names e, detect w names = Raise e -> is_Exception e = true) ->
  (forall w n e, fst (uninstall_plugin w n) = Raise e -> is_Exception e = true) ->
  (forall w repo proxy e,
     fst (install_plugin w repo proxy) = Raise e -> is_Exception e = true) ->
  (forall w n cfg e, fst (save_config w n cfg) = Raise e -> is_Exception e = true) ->
  (forall w n e, fst (reload w n) = Raise e -> is_Exception e = true) ->
  (forall w e,
     fst (apply_priority_overrides w (PluginCollection.handler_priority_overrides collection))
     <> Raise e) ->
  forall w tr, exists result,
    fst (fst (import_collection collection options w tr)) = Return result.
Proof.
  intros Hmode Hdetect Huninstall Hinstall Hsave Hreload Hprio.
  change (returns (import_collection collection options)).
  rewrite (import_collection_phases collection options Hmode).
  apply returns_bind; [apply returns_read|]. intros installed_before.
  apply returns_bind.
  { unfold Importer.check_conflicts. destruct detect_conflicts as [detect|] eqn:Ed;
      [|apply returns_ret].
    apply returns_bind.
    - apply returns_try_call. intros w e. cbn [fst]. now apply (Hdetect detect).
    - intros [report|e]; apply returns_ret. }
  intros report. apply returns_bind.
  { unfold Importer.uninstall_phase. destruct (String.eqb _ "clean"); [|apply returns_ret].
    apply returns_bind; [apply returns_read|]. intros stars.
    apply returns_for_each. intros acc p. unfold uninstall_one.
    destruct (Star.reserved p); [apply returns_ret|].
    destruct (Star.falsy _); [apply returns_ret|].
    destruct (Star.in_names _ _); [apply returns_ret|].
    apply returns_bind; [apply returns_try_call; intros w e; apply Huninstall|].
    intros [u|e]; apply returns_ret. }
  intros uninstalled. apply returns_bind.
  { intros w tr.
    destruct (install_phase_run collection options installed_before w tr)
      as (rs & w' & Hrs & ->). cbn [fst].
    destruct (sort_results_total options _ rs Hrs) with (installed := @nil json)
      (failed := @nil json) as (installed & failed & ->); [|eauto].
    clear -Hrs Hinstall. induction Hrs as [|t r ts rs Hr _ IH]; constructor; [|exact IH].
    destruct Hr as [[-> [w0 Hw0]] | (status & message & ->)]; [|discriminate].
    apply Hinstall in Hw0. discriminate. }
  intros results. apply returns_bind.
  { unfold Importer.config_phase. destruct (apply_configs options); [|apply returns_ret].
    destruct (PluginCollection.plugin_configs collection); try apply returns_ret.
    apply returns_for_each. intros acc [plugin_name cfg]. unfold apply_config.
    destruct cfg; try apply returns_ret.
    apply returns_bind; [apply returns_read|]. intros [md|]; [|apply returns_ret].
    destruct (Star.config md) as [[|entry current]|]; try apply returns_ret.
    destruct (_ && _ && _); [apply returns_ret|].
    apply returns_bind; [apply returns_try_call; intros w e; apply Hsave|].
    intros [u|e]; [|apply returns_ret].
    apply returns_bind; [apply returns_try_call; intros w e; apply Hreload|].
    intros r. apply returns_ret. }
  intros configs_applied. apply returns_bind.
  { unfold Importer.priority_phase. destruct (apply_priority options); [|apply returns_ret].
    destruct (PluginCollection.handler_priority_overrides collection) eqn:Ehpo;
      try apply returns_ret.
    intros w tr. unfold call. specialize (Hprio w).
    destruct (apply_priority_overrides w (JObj kvs)) as [[b|e] w1]; cbn [fst] in *;
      [now exists b | now elim (Hprio e)]. }
  intros priority_applied. cbv zeta. destruct report; apply returns_ret.
Qed.

(** ** The preview *)

Local Abbreviation preview := (preview World get_all_stars detect_conflicts).

Lemma preview_split (installed : list (option string)) (plugins : list CollectionPlugin.t) :
  fold_left (fun (acc : list json * list json) (p : CollectionPlugin.t) =>
               let (to_install, to_skip) := acc in
               if Star.in_opt_names (CollectionPlugin.name p) installed
               then (to_install,
                     to_skip ++ [JObj [("name", JStr (CollectionPlugin.name p));
                                       ("repo", JStr (CollectionPlugin.repo p));
                                       ("status", JStr "installed")]])
               else (to_install ++ [JObj [("name", JStr (CollectionPlugin.name p));
                                          ("repo", JStr (CollectionPlugin.repo p));
                                          ("version", JStr (CollectionPlugin.version p));
                                          ("status", JStr "not_installed")]],
                     to_skip))
            plugins ([], []) =
  (map install_entry (filter (fun p => negb (is_installed installed p)) plugins),
   map skip_entry (filter (is_installed installed) plugins)).
Proof.
  set (step := fun (acc : list json * list json) (p : CollectionPlugin.t) => _).
  assert (H : forall ps a b,
    fold_left step ps (a, b) =
    (a ++ map install_entry (filter (fun p => negb (is_installed installed p)) ps),
     b ++ map skip_entry (filter (is_installed installed) ps))).
  { induction ps as [|p ps IH]; intros a b; cbn [fold_left filter map].
    - now rewrite !app_nil_r.
    - unfold step at 2. fold (is_installed installed p).
      destruct (is_installed installed p); cbn [negb map];
        rewrite IH, <- app_assoc; reflexivity. }
  apply (H plugins [] []).
Qed.

Lemma preview_run (collection : PluginCollection.t) (mode : string)
  (w : World) (tr : list event) :
  exists report,
    preview collection mode w tr = (Return report, w, tr) /\
    dict_get "plugins_to_install" report =
      Some (JArr (map install_entry
                   (filter (fun p => negb (is_installed (star_names (get_all_stars w)) p))
                           (PluginCollection.plugins collection)))) /\
    dict_get "plugins_to_skip" report =
      Some (JArr (map skip_entry
                   (filter (is_installed (star_names (get_all_stars w)))
                           (PluginCollection.plugins collection)))) /\
    dict_get "plugins_to_uninstall" report =
      Some (JArr (if String.eqb mode "clean"
                  then map (fun p : Star.t =>
                              JObj [("name", match Star.name p with
                                             | Some s => JStr s
                                             | None => JNull
                                             end)])
                           (filter (fun p : Star.t =>
                                      negb (Star.reserved p) &&
                                      negb (Star.in_names (Star.name p)
                                              (names_of (PluginCollection.plugins collection))))
                                   (get_all_stars w))
                  else [])).
Proof.
  unfold Importer.preview. rewrite bindM_run. cbn [read ret].
  eexists. split; [reflexivity|].
  cbn [dict_get String.eqb Ascii.eqb Bool.eqb].
  rewrite preview_split. cbn [fst snd]. repeat split.
Qed.

Lemma named_targets (keep : list string) (stars : list Star.t) :
  Forall (fun p => Star.reserved p = false -> Star.falsy (Star.name p) = false) stars ->
  map (fun p : Star.t =>
         JObj [("name", match Star.name p with Some s => JStr s | None => JNull end)])
      (filter (fun p : Star.t =>
                 negb (Star.reserved p) && negb (Star.in_names (Star.name p) keep)) stars)
  = map (fun n => JObj [("name", JStr n)]) (targets_of keep stars).
Proof.
  unfold targets_of.
  induction 1 as [|p stars Hp _ IH]; [reflexivity|]. cbn [filter].
  unfold uninstall_target at 1.
  destruct (Star.reserved p); cbn [negb andb]; [exact IH|].
  rewrite (Hp eq_refl). cbn [negb andb].
  destruct (Star.in_names (Star.name p) keep); cbn [negb]; [exact IH|].
  cbn [map flat_map]. specialize (Hp eq_refl).
  destruct (Star.name p) as [s|]; [|discriminate]. cbn [app map]. now rewrite IH.
Qed.

(** In [clean] mode, an import that returns has handed to
    [uninstall_plugin] the targets, all of them and in order. *)
Lemma import_clean_calls (collection : PluginCollection.t) (options : ImportOptions)
  (w w' : World) (tr tr' : list event) (result : dict) :
  import_mode options = "clean" ->
  import_collection collection options w tr = (Return result, w', tr') ->
  uninstall_calls tr' =
  uninstall_calls tr ++ uninstall_targets World get_all_stars collection w.
Proof.
  intros Hmode H.
  destruct (import_collection_returns _ _ _ _ _ _ _ (or_intror Hmode) H)
    as (report & uninstalled & installed & failed & skipped & configs_applied &
        priority_applied & w1 & w2 & w3 & w4 & tr1 & tr2 & tr3 & tr4 &
        H1 & H2 & H3 & H4 & H5 & _).
  set (P := fun ev => is_uninstall ev = false).
  destruct (emits_run P _ _ _ _ _ _
              (check_conflicts_emits World detect_conflicts P _ eq_refl) H1)
    as (evs1 & -> & Hevs1).
  apply check_conflicts_run in H1. destruct H1 as [-> _].
  destruct (emits_run P _ _ _ _ _ _
              (install_phase_emits World install_plugin P collection options _
                 (fun _ => eq_refl)) H3) as (evs3 & -> & Hevs3).
  destruct (emits_run P _ _ _ _ _ _
              (config_phase_emits P collection options _
                 (fun _ n => conj (fun _ => eq_refl) eq_refl)) H4) as (evs4 & -> & Hevs4).
  destruct (emits_run P _ _ _ _ _ _
              (priority_phase_emits World apply_priority_overrides P collection options
                 (fun _ => eq_refl)) H5) as (evs5 & -> & Hevs5).
  unfold Importer.uninstall_phase in H2. rewrite Hmode, String.eqb_refl in H2.
  rewrite bindM_run in H2. cbn [read] in H2.
  destruct (uninstall_loop World uninstall_plugin
              (names_of (PluginCollection.plugins collection))
              (get_all_stars w) [] w (tr ++ evs1))
    as (done & rest & Htargets & Htr2 & Hret & _).
  rewrite H2 in Htr2, Hret. cbn [fst snd] in Htr2, Hret.
  specialize (Hret uninstalled eq_refl). subst rest tr2. rewrite app_nil_r in Htargets.
  unfold uninstall_targets. rewrite Htargets.
  rewrite !uninstall_calls_app, (uninstall_calls_none evs1 Hevs1),
    (uninstall_calls_none evs3 Hevs3), (uninstall_calls_none evs4 Hevs4),
    (uninstall_calls_none evs5 Hevs5), uninstall_calls_uninstalls, !app_nil_r.
  reflexivity.
Qed.

(** X22. [preview] calls nothing and changes nothing, and it announces what
    an import in [add] mode then does: the names under [plugins_to_skip] are
    those the import reports as skipped, nothing is to be uninstalled and
    nothing is, and [install_plugin] is called for the repos under
    [plugins_to_install], in order. *)
Theorem preview_announces_add_import (collection : PluginCollection.t)
  (options : ImportOptions) (w w' : World) (tr' : list event) (result : dict) :
  import_mode options = "add" ->
  import_collection collection options w [] = (Return result, w', tr') ->
  exists report to_install to_skip skipped,
    preview collection "add" w [] = (Return report, w, []) /\
    dict_get "plugins_to_install" report = Some (JArr to_install) /\
    dict_get "plugins_to_skip" report = Some (JArr to_skip) /\
    dict_get "plugins_to_uninstall" report = Some (JArr []) /\
    dict_get "skipped" result = Some (JArr skipped) /\
    map entry_name skipped = map entry_name to_skip /\
    map (fun call => JStr (fst call)) (install_calls tr') = map entry_repo to_install /\
    uninstall_calls tr' = [].
Proof.
  intros Hmode H.
  destruct (preview_run collection "add" w []) as (report & Hrun & Hinst & Hskip & Hun).
  destruct (import_report_lists collection options w w' [] tr' result
              (or_introl Hmode) H)
    as (installed & failed & skipped & _ & _ & Hskipped & _ & _ & -> & _).
  eexists report, _, _, _.
  split; [exact Hrun|]. split; [exact Hinst|]. split; [exact Hskip|].
  split; [exact Hun|]. split; [exact Hskipped|].
  assert (Hsame : forall p,
            already_installed options (star_names (get_all_stars w)) p =
            is_installed (star_names (get_all_stars w)) p).
  { intros p. unfold already_installed, is_installed. now rewrite Hmode. }
  split; [|split].
  - rewrite !map_map. cbn [entry_name get get_or dict_get String.eqb Ascii.eqb Bool.eqb].
    f_equal. apply filter_ext. exact Hsame.
  - destruct (import_install_calls collection options w w' [] tr' result
                (or_introl Hmode) H) as [-> _].
    cbn [install_calls flat_map app].
    rewrite !map_map. cbn [fst entry_repo get get_or dict_get String.eqb Ascii.eqb Bool.eqb].
    f_equal. apply filter_ext. intros p. now rewrite Hsame.
  - destruct (emits_run _ _ _ _ _ _ _ (import_add_emits collection options Hmode) H)
      as (evs & -> & Hevs).
    cbn [app]. now rewrite (uninstall_calls_none evs Hevs).
Qed.

(** X23. In [clean] mode [preview] lists under [plugins_to_uninstall] the
    plugins an import then hands to [uninstall_plugin], in order, as long
    as every installed plugin that is not reserved has a name.  (A plugin
    with no name, or an empty one, is listed by [preview] and passed over
    by the import.) *)
Theorem preview_announces_clean_uninstalls (collection : PluginCollection.t)
  (options : ImportOptions) (w w' : World) (tr' : list event) (result : dict) :
  import_mode options = "clean" ->
  Forall (fun p => Star.reserved p = false -> Star.falsy (Star.name p) = false)
         (get_all_stars w) ->
  import_collection collection options w [] = (Return result, w', tr') ->
  exists report,
    preview collection "clean" w [] = (Return report, w, []) /\
    dict_get "plugins_to_uninstall" report =
      Some (JArr (map (fun n => JObj [("name", JStr n)]) (uninstall_calls tr'))).
Proof.
  intros Hmode Hnamed H.
  destruct (preview_run collection "clean" w []) as (report & Hrun & _ & _ & Hun).
  exists report. split; [exact Hrun|].
  rewrite Hun. cbn [String.eqb Ascii.eqb Bool.eqb].
  rewrite (import_clean_calls collection options w w' [] tr' result Hmode H).
  cbn [uninstall_calls flat_map app]. unfold uninstall_targets.
  now rewrite named_targets.
Qed.


(** X25. An import that returns has handed to [install_plugin], in the order
    of the document and each with the proxy of the options, the repo of
    every plugin of the document it did not skip: in [clean] mode that is
    every plugin, the ones already installed included. *)
Theorem import_installs_what_it_does_not_skip (collection : PluginCollection.t)
  (options : ImportOptions) (w w' : World) (tr tr' : list event) (result : dict) :
  import_mode options = "add" \/ import_mode options = "clean" ->
  import_collection collection options w tr = (Return result, w', tr') ->
  install_calls tr' =
    install_calls tr ++
    map (fun p => (CollectionPlugin.repo p, proxy options))
        (filter (fun p => negb (already_installed options (star_names (get_all_stars w)) p))
                (PluginCollection.plugins collection)) /\
  (import_mode options = "clean" ->
   install_calls tr' =
     install_calls tr ++
     map (fun p => (CollectionPlugin.repo p, proxy options))
         (PluginCollection.plugins collection)).
Proof. apply import_install_calls. Qed.

End Host.


Lemma import_installs_what_it_does_not_skip_witness :
  exists result w' tr',
    DemoHost.run_import DemoHost.wider_document (DemoHost.with_mode "clean") DemoHost.installed []
      = (Return result, w', tr') /\
    install_calls tr' = [("https://example.org/A", ""); ("https://example.org/D", "")].
Proof.
  eexists. eexists. eexists. split; [vm_compute; reflexivity|].
  refine (proj2 (import_installs_what_it_does_not_skip DemoHost.World
              DemoHost.get_all_stars
              DemoHost.get_registered_star DemoHost.detect_conflicts
              DemoHost.uninstall_plugin DemoHost.install_plugin DemoHost.save_config
              DemoHost.reload DemoHost.apply_priority_overrides
              DemoHost.wider_document (DemoHost.with_mode "clean") DemoHost.installed _ [] _ _
              (or_intror eq_refl) _) eq_refl).
  vm_compute. reflexivity.
Defined.

Lemma import_add_uninstalls_nothing_witness :
  exists result w' tr',
    DemoHost.run_import DemoHost.wider_document (DemoHost.with_mode "add") DemoHost.installed []
      = (Return result, w', tr') /\
    dict_get "uninstalled" result = Some (JArr []).
Proof.
  eexists. eexists. eexists. split; [vm_compute; reflexivity|].
  refine (proj2 (import_add_uninstalls_nothing DemoHost.World
              DemoHost.get_all_stars
              DemoHost.get_registered_star DemoHost.detect_conflicts
              DemoHost.uninstall_plugin DemoHost.install_plugin DemoHost.save_config
              DemoHost.reload DemoHost.apply_priority_overrides
              DemoHost.wider_document (DemoHost.with_mode "add") eq_refl)
            DemoHost.installed _ [] _ _ _).
  vm_compute. reflexivity.
Defined.

Lemma import_skips_switched_off_phases_witness :
  exists result w' tr',
    DemoHost.run_import DemoHost.wider_document DemoHost.installs_only DemoHost.installed []
      = (Return result, w', tr') /\
    dict_get "configs_applied" result = Some (JInt 0) /\
    dict_get "priority_applied" result = Some (JBool false).
Proof.
  eexists. eexists. eexists. split; [vm_compute; reflexivity|].
  destruct (import_skips_switched_off_phases DemoHost.World
              DemoHost.get_all_stars
              DemoHost.get_registered_star DemoHost.detect_conflicts
              DemoHost.uninstall_plugin DemoHost.install_plugin DemoHost.save_config
              DemoHost.reload DemoHost.apply_priority_overrides
              DemoHost.wider_document DemoHost.installs_only (or_introl eq_refl)) as [Hc Hp].
  split.
  - refine (proj2 (Hc eq_refl) DemoHost.installed _ [] _ _ _). vm_compute. reflexivity.
  - refine (proj2 (Hp eq_refl) DemoHost.installed _ [] _ _ _). vm_compute. reflexivity.
Defined.

Lemma import_reports_conflicts_witness :
  exists result w' tr',
    Importer.import_collection DemoHost.World DemoHost.get_all_stars
      DemoHost.get_registered_star DemoHost.reporting_conflicts
      DemoHost.uninstall_plugin DemoHost.install_plugin DemoHost.save_config
      DemoHost.reload DemoHost.apply_priority_overrides
      DemoHost.wider_document (DemoHost.with_mode "add") DemoHost.installed []
      = (Return result, w', tr') /\
    dict_get "conflicts" result = Some (JObj [("checked", JArr [JStr "A"; JStr "D"])]).
Proof.
  eexists. eexists. eexists. split; [vm_compute; reflexivity|].
  refine (import_reports_conflicts DemoHost.World DemoHost.get_all_stars
            DemoHost.get_registered_star DemoHost.reporting_conflicts
            DemoHost.uninstall_plugin DemoHost.install_plugin DemoHost.save_config
            DemoHost.reload DemoHost.apply_priority_overrides
            DemoHost.wider_document (DemoHost.with_mode "add") DemoHost.installed _ [] _ _
            (or_introl eq_refl) _).
  vm_compute. reflexivity.
Defined.

Lemma import_counts_saved_configs_witness :
  exists result w' tr',
    DemoHost.run_import DemoHost.wider_document DemoHost.overwriting DemoHost.installed []
      = (Return result, w', tr') /\
    reload_calls tr' = ["A"] /\
    dict_get "configs_applied" result = Some (JInt 1).
Proof.
  eexists. eexists. eexists. split; [vm_compute; reflexivity|].
  split; [reflexivity|].
  eapply eq_trans.
  - refine (proj1 (import_counts_saved_configs DemoHost.World DemoHost.get_all_stars
              DemoHost.get_registered_star DemoHost.detect_conflicts
              DemoHost.uninstall_plugin DemoHost.install_plugin DemoHost.save_config
              DemoHost.reload DemoHost.apply_priority_overrides
              DemoHost.wider_document DemoHost.overwriting DemoHost.installed _ _ _
              (or_introl eq_refl) _)).
    vm_compute. reflexivity.
  - reflexivity.
Defined.

Lemma preview_announces_add_import_witness :
  exists result w' tr',
    DemoHost.run_import DemoHost.wider_document (DemoHost.with_mode "add") DemoHost.installed []
      = (Return result, w', tr') /\
    exists report to_install,
      Importer.preview DemoHost.World DemoHost.get_all_stars DemoHost.detect_conflicts
        DemoHost.wider_document "add" DemoHost.installed [] = (Return report, DemoHost.installed, []) /\
      dict_get "plugins_to_install" report = Some (JArr to_install) /\
      map (fun call => JStr (fst call)) (install_calls tr') = map entry_repo to_install.
Proof.
  eexists. eexists. eexists. split; [vm_compute; reflexivity|].
  destruct (preview_announces_add_import DemoHost.World DemoHost.get_all_stars
            DemoHost.get_registered_star DemoHost.detect_conflicts
            DemoHost.uninstall_plugin DemoHost.install_plugin DemoHost.save_config
            DemoHost.reload DemoHost.apply_priority_overrides
            DemoHost.wider_document (DemoHost.with_mode "add") DemoHost.installed _ _ _
            eq_refl ltac:(vm_compute; reflexivity))
    as (report & to_install & to_skip & skipped & H1 & H2 & _ & _ & _ & _ & H7 & _).
  exists report, to_install. repeat split; assumption.
Defined.

Lemma preview_announces_clean_uninstalls_witness :
  exists result w' tr',
    DemoHost.run_import DemoHost.wider_document (DemoHost.with_mode "clean") DemoHost.installed []
      = (Return result, w', tr') /\
    uninstall_calls tr' = ["B"] /\
    exists report,
      Importer.preview DemoHost.World DemoHost.get_all_stars DemoHost.detect_conflicts
        DemoHost.wider_document "clean" DemoHost.installed []
        = (Return report, DemoHost.installed, []) /\
      dict_get "plugins_to_uninstall" report = Some (JArr [JObj [("name", JStr "B")]]).
Proof.
  eexists. eexists. eexists. split; [vm_compute; reflexivity|].
  split; [reflexivity|].
  destruct (preview_announces_clean_uninstalls DemoHost.World DemoHost.get_all_stars
              DemoHost.get_registered_star DemoHost.detect_conflicts
              DemoHost.uninstall_plugin DemoHost.install_plugin DemoHost.save_config
              DemoHost.reload DemoHost.apply_priority_overrides
              DemoHost.wider_document (DemoHost.with_mode "clean") DemoHost.installed _ _ _
              eq_refl ltac:(repeat constructor) ltac:(vm_compute; reflexivity))
    as (report & H1 & H2).
  exists report. split; assumption.
Defined.

Lemma import_survives_failures_witness :
  exists result,
    fst (fst (DemoHost.run_import DemoHost.document (DemoHost.with_mode "clean")
                DemoHost.installed_stuck [])) = Return result.
Proof.
  apply (import_survives_failures DemoHost.World DemoHost.get_all_stars
           DemoHost.get_registered_star DemoHost.detect_conflicts
           DemoHost.uninstall_plugin DemoHost.install_plugin DemoHost.save_config
           DemoHost.reload DemoHost.apply_priority_overrides
           DemoHost.document (DemoHost.with_mode "clean") (or_intror eq_refl)).
  - intros detect H. discriminate H.
  - intros w n e. unfold DemoHost.uninstall_plugin.
    destruct (String.eqb n "stuck"); cbn [fst]; [intros [= <-]; reflexivity | discriminate].
  - intros w repo proxy e. discriminate.
  - intros w n cfg e. discriminate.
  - intros w n e. discriminate.
  - intros w e. unfold DemoHost.apply_priority_overrides. cbn [fst].
    destruct (apply_priority_overrides_returns unit Compatibility.failing_put
                (PluginCollection.handler_priority_overrides DemoHost.document) tt
                (DemoHost.registry w) [("on_command", 7)] eq_refl) as [b Hb].
    + intros e0 [= <-]. reflexivity.
    + rewrite Hb. discriminate.
Defined.

End ImporterProperties.

(** ** [routes/collection.py]: what the routes answer *)
Module RoutesProperties.
Import SensitiveFilterProperties ModelsProperties CompatibilityProperties ImporterProperties.
Import Py PyFacts Models ModelsFacts Importer ImporterFacts Routes.

Lemma lstrip_all_space (s : string) : all_of is_space s = true -> lstrip s = "".
Proof.
  induction s as [|c s IH]; cbn [all_of lstrip]; [reflexivity|].
  intros H. apply andb_true_iff in H. destruct H as [-> Hs]. now apply IH.
Qed.

Lemma strip_all_space (s : string) : all_of is_space s = true -> strip s = "".
Proof. intros H. unfold strip. now rewrite (lstrip_all_space s H). Qed.

Section Route.
Variable DEMO_MODE : bool.
Variable py_repr : json -> string.

Local Abbreviation _parse_collection := (_parse_collection py_repr).
Local Abbreviation validate_collection := (validate_collection py_repr).

(** A payload the schema accepts has no key ["collection"]. *)
Lemma accepted_no_envelope (d : dict) :
  accepted (JObj d) -> dict_get "collection" d = None.
Proof.
  intros (d' & [= <-] & _ & _ & _ & _ & _ & Hkeys).
  destruct (dict_get "collection" d) as [v|] eqn:E; [|reflexivity].
  apply dict_get_some_in in E. apply (in_map fst) in E.
  apply Hkeys in E. cbn [In fst] in E. intuition discriminate.
Qed.

Lemma parse_bare (d : dict) (doc : PluginCollection.t) :
  PluginCollection.from_dict py_repr (JObj d) = Return doc ->
  _parse_collection (JObj d) = Return doc.
Proof.
  intros H. unfold Routes._parse_collection.
  assert (Hacc : accepted (JObj d)).
  { apply (validate_dict_accepted py_repr). unfold PluginCollection.from_dict in H.
    destruct (PluginCollection.validate_dict py_repr (JObj d)) as [[]|e];
      [reflexivity | discriminate]. }
  now rewrite (accepted_no_envelope d Hacc).
Qed.

Lemma parse_total (data : json) :
  (exists doc, _parse_collection data = Return doc) \/
  (exists msg, _parse_collection data = Raise (CollectionValidationError msg)).
Proof.
  unfold Routes._parse_collection. destruct data; try (right; eauto; fail).
  destruct (from_dict_total py_repr
              (JObj match dict_get "collection" kvs with
                    | Some (JObj c) => c
                    | _ => kvs
                    end)) as [(doc & -> & _) | (msg & -> & _)]; eauto.
Qed.

(** X26. [_parse_collection] takes a document bare or wrapped.  A body that
    [from_dict] accepts is parsed as it is; a body with a mapping under
    ["collection"] is parsed as that mapping, whatever else it holds; a
    body that is no mapping is refused as a validation error. *)
Theorem parse_collection_takes_both_forms :
  (forall d doc,
     PluginCollection.from_dict py_repr (JObj d) = Return doc ->
     _parse_collection (JObj d) = Return doc /\
     forall other,
       _parse_collection (JObj (("collection", JObj d) :: other)) = Return doc) /\
  (forall d c,
     dict_get "collection" d = Some (JObj c) ->
     _parse_collection (JObj d) = PluginCollection.from_dict py_repr (JObj c)) /\
  (forall body, (forall d, body <> JObj d) ->
     _parse_collection body =
     Raise (CollectionValidationError "collection must be an object")).
Proof.
  split; [|split].
  - intros d doc H. split; [now apply parse_bare|].
    intros other. unfold Routes._parse_collection.
    assert (E : dict_get "collection" (("collection", JObj d) :: other) = Some (JObj d))
      by reflexivity.
    now rewrite E.
  - intros d c H. unfold Routes._parse_collection. now rewrite H.
  - intros body H. destruct body; try reflexivity. now elim (H kvs).
Qed.

(** X27. Whatever JSON the request holds, [validate_collection] answers
    [ok]: with [valid] true when the document parses, with [valid] false
    and the one validation message otherwise.  It never answers with an
    error and never raises. *)
Theorem validate_collection_always_answers (data : json) :
  (exists doc,
     _parse_collection data = Return doc /\
     validate_collection (Return data) = Return (ok (JObj [("valid", JBool true)]))) \/
  (exists msg,
     _parse_collection data = Raise (CollectionValidationError msg) /\
     validate_collection (Return data) =
       Return (ok (JObj [("valid", JBool false); ("errors", JArr [JStr msg])]))).
Proof.
  unfold Routes.validate_collection. cbn [bind].
  destruct (parse_total data) as [[doc H] | [msg H]]; rewrite H; [left | right]; eauto.
Qed.

Section Exporting.
Variable stars : list Star.t.
Variable Store : Type.
Variable global_get : Store -> string -> json -> result json.
Variable sp : Store.
Variable registry : Compatibility.Registry.
Variable now : string.
Variable VERSION : string.

Local Abbreviation export_collection :=
  (export_collection DEMO_MODE py_repr stars Store global_get sp registry now VERSION).

(** X28. The export route asks for a name and turns failures into answers.
    In demo mode it refuses; a body that is no mapping is refused; a name
    that is missing, null, empty or blank gives ["name is required"]; and
    whatever the exporter raises as an [Exception] comes back as an error
    answer, so the route raises only what is no [Exception]. *)
Theorem export_route_answers :
  (DEMO_MODE = true ->
   forall request, export_collection request = Return (error DEMO_MESSAGE)) /\
  (DEMO_MODE = false ->
   (forall body, (forall d, body <> JObj d) ->
      export_collection (Return body) = Return (error "Invalid request body")) /\
   (forall d,
      dict_get "name" d = None \/ dict_get "name" d = Some JNull \/
      (exists s, dict_get "name" d = Some (JStr s) /\ all_of is_space s = true) ->
      export_collection (Return (JObj d)) = Return (error "name is required")) /\
   (forall body e, export_collection (Return body) = Raise e -> is_Exception e = false)).
Proof.
  unfold Routes.export_collection. split; [intros ->; reflexivity|].
  intros ->. split; [|split].
  - intros body H. cbn [bind]. destruct body; try reflexivity. now elim (H kvs).
  - intros d H. cbn [bind].
    assert (E : strip (py_str py_repr (py_or (get "name" d) (JStr ""))) = "").
    { unfold get, get_or. destruct H as [-> | [-> | (s & -> & Hs)]]; try reflexivity.
      unfold py_or. cbn [truthy].
      destruct (String.eqb s ""); cbn [negb py_str]; [reflexivity|].
      now apply strip_all_space. }
    now rewrite E.
  - intros body e. cbn [bind]. destruct body; try discriminate.
    destruct (String.eqb _ ""); [discriminate|].
    destruct (exporter_export _ _ _ _ _ _ _ _ _ _ _ _ _ _ _) as [payload|e0];
      [discriminate|].
    destruct (is_Exception e0) eqn:E0; [discriminate|]. now intros [= <-].
Qed.

End Exporting.

Section Importing.
Variable World : Type.
Variable get_all_stars : World -> list Star.t.
Variable get_registered_star : World -> string -> option Star.t.
Variable detect_conflicts : option (World -> list string -> result json).
Variable uninstall_plugin : World -> string -> result unit * World.
Variable install_plugin : World -> string -> string -> result unit * World.
Variable save_config : World -> string -> dict -> result unit * World.
Variable reload : World -> string -> result unit * World.
Variable apply_priority_overrides : World -> json -> result bool * World.

Local Abbreviation import_collection :=
  (Routes.import_collection DEMO_MODE py_repr World get_all_stars get_registered_star
     detect_conflicts uninstall_plugin install_plugin save_config reload
     apply_priority_overrides).
Local Abbreviation preview_collection :=
  (Routes.preview_collection py_repr World get_all_stars detect_conflicts).

Lemma import_collection_rejects_mode (collection : PluginCollection.t)
  (options : ImportOptions) (w : World) (tr : list event) :
  import_mode options <> "add" -> import_mode options <> "clean" ->
  Importer.import_collection World get_all_stars get_registered_star detect_conflicts
    uninstall_plugin install_plugin save_config reload apply_priority_overrides
    collection options w tr =
  (Raise (ValueError "import_mode must be 'add' or 'clean'"), w, tr).
Proof.
  intros Hadd Hclean. unfold Importer.import_collection.
  apply String.eqb_neq in Hadd, Hclean. rewrite Hadd, Hclean. reflexivity.
Qed.

(** X29. The import route checks before it acts.  In demo mode, for a body
    that is no mapping, for a collection that is missing or that the schema
    refuses, and for a mode that is neither ["add"] nor ["clean"], it
    answers with an error, and the world and the log of calls are as they
    were: nothing was uninstalled, installed or written. *)
Theorem import_route_checks_before_acting (w : World) (tr : list event) :
  (DEMO_MODE = true ->
   forall request, import_collection request w tr = (Return (error DEMO_MESSAGE), w, tr)) /\
  (DEMO_MODE = false ->
   (forall body, (forall d, body <> JObj d) ->
      import_collection (Return body) w tr =
      (Return (error "Invalid request body"), w, tr)) /\
   (forall d msg,
      PluginCollection.from_dict py_repr (JObj (request_collection d)) =
        Raise (CollectionValidationError msg) ->
      import_collection (Return (JObj d)) w tr = (Return (error msg), w, tr)) /\
   (forall d, (forall c, dict_get "collection" d <> Some (JObj c)) ->
      exists msg, import_collection (Return (JObj d)) w tr = (Return (error msg), w, tr)) /\
   (forall d doc,
      PluginCollection.from_dict py_repr (JObj (request_collection d)) = Return doc ->
      import_mode (import_options py_repr d) <> "add" ->
      import_mode (import_options py_repr d) <> "clean" ->
      import_collection (Return (JObj d)) w tr =
      (Return (error "import_mode must be 'add' or 'clean'"), w, tr))).
Proof.
  unfold Routes.import_collection. split; [intros ->; reflexivity|].
  intros ->. split; [|split; [|split]].
  - intros body H. destruct body; try reflexivity. now elim (H kvs).
  - intros d msg H. unfold answer, lift, bindM, try_except, ret. now rewrite H.
  - intros d H.
    assert (Hempty : request_collection d = []).
    { unfold request_collection, get, get_or.
      destruct (dict_get "collection" d) as [[| | | | | |c]|]; try reflexivity.
      now elim (H c). }
    destruct (from_dict_total py_repr (JObj (request_collection d)))
      as [(doc & Hdoc & Hvalid) | (msg & Hdoc & _)].
    + exfalso. rewrite Hempty in Hvalid.
      apply (validate_dict_accepted py_repr) in Hvalid.
      destruct Hvalid as (d' & [= <-] & Hsv & _). discriminate.
    + exists msg. unfold answer, lift, bindM, try_except, ret. now rewrite Hdoc.
  - intros d doc H Hadd Hclean. unfold answer, lift, bindM, try_except, ret.
    rewrite H.
    rewrite (import_collection_rejects_mode doc (import_options py_repr d) w tr Hadd Hclean).
    reflexivity.
Qed.

(** X30. The preview route calls nothing and changes nothing, whatever the
    request; and where the import route refuses a mode that is neither
    ["add"] nor ["clean"], the preview route goes on with ["add"]: its
    answer for such a body is the preview in [add] mode. *)
Theorem preview_route_reads_only (request : result json) (w : World) (tr : list event) :
  snd (fst (preview_collection request w tr)) = w /\
  snd (preview_collection request w tr) = tr /\
  (forall d collection,
     request = Return (JObj d) ->
     unhashable (get "import_mode" d) = None ->
     get "import_mode" d <> JStr "add" -> get "import_mode" d <> JStr "clean" ->
     _parse_collection (JObj d) = Return collection ->
     exists report,
       Importer.preview World get_all_stars detect_conflicts collection "add" w tr
         = (Return report, w, tr) /\
       preview_collection request w tr = (Return (ok (JObj report)), w, tr)).
Proof.
  assert (Hrun : forall collection mode,
            exists report,
              Importer.preview World get_all_stars detect_conflicts collection mode w tr
              = (Return report, w, tr)).
  { intros collection mode.
    destruct (ImporterProperties.preview_run World get_all_stars detect_conflicts
                collection mode w tr) as (report & H & _). now exists report. }
  unfold Routes.preview_collection, answer, lift, bindM, try_except, ret.
  split; [|split].
  - destruct request as [data|e]; [|destruct (is_Exception e); reflexivity].
    destruct (preview_mode py_repr data) as [mode|e];
      [|destruct (is_Exception e); reflexivity].
    destruct (_parse_collection data) as [collection|e];
      [|destruct (is_Exception e); reflexivity].
    destruct (Hrun collection mode) as [report ->]. reflexivity.
  - destruct request as [data|e]; [|destruct (is_Exception e); reflexivity].
    destruct (preview_mode py_repr data) as [mode|e];
      [|destruct (is_Exception e); reflexivity].
    destruct (_parse_collection data) as [collection|e];
      [|destruct (is_Exception e); reflexivity].
    destruct (Hrun collection mode) as [report ->]. reflexivity.
  - intros d collection -> Hhash Hadd Hclean Hparse.
    assert (Hmode : preview_mode py_repr (JObj d) = Return "add").
    { unfold preview_mode. rewrite Hhash.
      assert (E : forall v s, v <> JStr s -> json_eqb v (JStr s) = false).
      { intros v s Hne. destruct v; try reflexivity. cbn [json_eqb].
        apply String.eqb_neq. congruence. }
      now rewrite (E _ "add" Hadd), (E _ "clean" Hclean). }
    rewrite Hmode, Hparse.
    destruct (Hrun collection "add") as [report Hreport].
    exists report. split; [exact Hreport|]. now rewrite Hreport.
Qed.

End Importing.
End Route.

Lemma parse_collection_takes_both_forms_witness :
  exists doc,
    PluginCollection.from_dict demo_repr DemoHost.payload = Return doc /\
    _parse_collection demo_repr DemoHost.payload = Return doc /\
    _parse_collection demo_repr DemoHost.replace_request = Return doc.
Proof.
  eexists. split; [vm_compute; reflexivity|].
  destruct (proj1 (parse_collection_takes_both_forms demo_repr) _ _
              (eq_refl : PluginCollection.from_dict demo_repr DemoHost.payload = _))
    as [Hbare Hwrapped].
  split; [exact Hbare | exact (Hwrapped [("import_mode", JStr "replace")])].
Defined.

Lemma export_route_answers_witness :
  Routes.export_collection false demo_repr (DemoHost.stars DemoHost.installed) unit
    DemoHost.failing_get tt (DemoHost.registry DemoHost.installed)
    "2026-01-01T00:00:00+00:00" "4.0.0" (Return (JObj [("name", JStr "  ")]))
  = Return (error "name is required").
Proof.
  apply (proj1 (proj2 (proj2 (export_route_answers false demo_repr
           (DemoHost.stars DemoHost.installed) unit
           DemoHost.failing_get tt (DemoHost.registry DemoHost.installed)
           "2026-01-01T00:00:00+00:00" "4.0.0") eq_refl))).
  right. right. exists "  ". split; reflexivity.
Defined.

Lemma import_route_checks_before_acting_witness :
  Routes.import_collection false demo_repr DemoHost.World DemoHost.get_all_stars
    DemoHost.get_registered_star DemoHost.detect_conflicts
    DemoHost.uninstall_plugin DemoHost.install_plugin DemoHost.save_config
    DemoHost.reload DemoHost.apply_priority_overrides
    (Return DemoHost.replace_request) DemoHost.installed []
  = (Return (error "import_mode must be 'add' or 'clean'"), DemoHost.installed, []).
Proof.
  refine (proj2 (proj2 (proj2 (proj2 (import_route_checks_before_acting false demo_repr
            DemoHost.World DemoHost.get_all_stars
            DemoHost.get_registered_star DemoHost.detect_conflicts
            DemoHost.uninstall_plugin DemoHost.install_plugin DemoHost.save_config
            DemoHost.reload DemoHost.apply_priority_overrides
            DemoHost.installed []) eq_refl))) _ _ _ _ _).
  - vm_compute. reflexivity.
  - vm_compute. discriminate.
  - vm_compute. discriminate.
Defined.

Lemma preview_route_reads_only_witness :
  exists report,
    Routes.preview_collection demo_repr DemoHost.World DemoHost.get_all_stars
      DemoHost.detect_conflicts (Return DemoHost.replace_request) DemoHost.installed []
    = (Return (ok (JObj report)), DemoHost.installed, []) /\
    dict_get "plugins_to_uninstall" report = Some (JArr []).
Proof.
  destruct (proj2 (proj2 (preview_route_reads_only demo_repr DemoHost.World
              DemoHost.get_all_stars DemoHost.detect_conflicts
              (Return DemoHost.replace_request) DemoHost.installed []))
              _ _ eq_refl eq_refl ltac:(discriminate) ltac:(discriminate)
              ltac:(vm_compute; reflexivity))
    as (report & Hpreview & Hroute).
  exists report. split; [exact Hroute|].
  vm_compute in Hpreview. injection Hpreview as <-. reflexivity.
Defined.

End RoutesProperties.
